(** * ipp-macro-series-parser: the national-accounts extraction core

    A shallow embedding of
    [ipp_macro_series_parser/comptes_nationaux/cn_extract_data.py]:
    the row filter ([look_up], [look_many]) and the variable resolver
    ([get_or_construct_value], [get_or_construct_data]).

    Conventions of the embedding.
    - The stacked table is a list of records with the six columns
      code, institution, ressources, year, description, value; its index
      is the default one, so a boolean mask computed on the whole table and
      applied to a slice of it keeps the rows of the slice whose own cells
      satisfy the test.
    - Numeric cells are integers.
    - [Series.str.contains] and the [re] module behind it are external to
      the repository: the row filter takes the search from a [RegexEngine].
      The pattern is compiled first, which raises when it is no regular
      expression; a pattern without special characters is searched as a
      substring.
    - A Python dict that is iterated ([entry_by_index], the registry) is an
      association list in iteration order; a dict that is only read by key
      ([dico_value], [formulas]) is a [gmap].
    - An exception is a [Raise]; the recursion of the resolver is bounded by
      a fuel argument and [None] means that the fuel ran out.
    - [py_expression_eval.Parser] and the built-in [eval] are external to
      the repository: the resolver takes them from a [FormulaEngine].
    - The combined table of [get_or_construct_data] is the list of its
      columns, each with its own cells under their year; a cell that the
      outer join fills with NaN is a year without a cell. *)

From Stdlib Require Import ZArith String Ascii List Bool Lia.
From stdpp Require Import base option list gmap strings.
Import ListNotations.

Local Open Scope Z_scope.

(** ** Python values, exceptions *)

Inductive pyval :=
| PNone
| PBool (b : bool)
| PInt (n : Z)
| PStr (s : string).

Inductive exn :=
| KeyError (key : string)
| TypeError
| ValueError
| UnboundLocalError (name : string)
| AssertionError
| ReError
| InvalidIndexError
| Exception (msg : string).

Inductive result (A : Type) :=
| Ok (a : A)
| Raise (e : exn).
Arguments Ok {A} a.
Arguments Raise {A} e.

Definition bind {A B} (r : result A) (k : A -> result B) : result B :=
  match r with
  | Ok a => k a
  | Raise e => Raise e
  end.

Notation "x <- r ;; k" := (bind r (fun x => k))
  (at level 100, r at next level, right associativity).

#[global] Instance pyval_eq_dec : EqDecision pyval.
Proof. solve_decision. Defined.

#[global] Instance exn_eq_dec : EqDecision exn.
Proof. solve_decision. Defined.

(** [a == b] on scalars: a boolean compares as the integer 0 or 1. *)
Definition py_eq (a b : pyval) : bool :=
  match a, b with
  | PStr s, PStr t => String.eqb s t
  | PInt n, PInt m => Z.eqb n m
  | PBool x, PBool y => Bool.eqb x y
  | PBool x, PInt m => Z.eqb (if x then 1 else 0) m
  | PInt n, PBool y => Z.eqb n (if y then 1 else 0)
  | _, _ => false
  end.

(** Truth value of an object, as tested by [not x]. *)
Definition truthy (v : pyval) : bool :=
  match v with
  | PNone => false
  | PBool b => b
  | PInt n => negb (Z.eqb n 0)
  | PStr s => negb (String.eqb s "")
  end.

Definition is_none (v : pyval) : bool :=
  match v with PNone => true | _ => false end.

(** ** Strings *)

(** [pat in s] *)
Fixpoint contains (pat s : string) : bool :=
  String.prefix pat s ||
  match s with
  | EmptyString => false
  | String _ s' => contains pat s'
  end.

(** [s.replace(old, new)] for a non-empty [old]: the occurrences are taken
    from the left and do not overlap; [skip] counts the characters of the
    occurrence just replaced that are still to be passed over. *)
Fixpoint replace_from (old new : string) (skip : nat) (s : string) : string :=
  match s with
  | EmptyString => EmptyString
  | String c s' =>
      match skip with
      | S k => replace_from old new k s'
      | O =>
          if String.prefix old s
          then new +:+ replace_from old new (String.length old - 1) s'
          else String c (replace_from old new 0 s')
      end
  end.

(** With an empty [old], [new] is inserted before every character and at
    the end. *)
Fixpoint intersperse (new s : string) : string :=
  match s with
  | EmptyString => new
  | String c s' => new +:+ String c (intersperse new s')
  end.

Definition replace (s old new : string) : string :=
  match old with
  | EmptyString => intersperse new s
  | _ => replace_from old new 0 s
  end.

(** ** Regular expressions *)

(** The characters that a regular expression reads specially. *)
Definition special (c : ascii) : bool :=
  existsb (Ascii.eqb c) (list_ascii_of_string ".^$*+?{}[]\|()").

Definition plain (pat : string) : bool :=
  forallb (fun c => negb (special c)) (list_ascii_of_string pat).

(** [str_contains pat] is what [Series.str.contains(pat)] does with a
    string: [re.compile(pat)], which raises when [pat] is no regular
    expression, then the test [bool(regex.search(x))] for the cells [x].
    The search of a pattern without special characters is the search of a
    substring. *)
Class RegexEngine := {
  str_contains : string -> result (string -> bool);
  str_contains_plain :
    forall pat, plain pat = true ->
    exists test, str_contains pat = Ok test /\
                 forall s, test s = contains pat s
}.

(** ** The stacked table *)

Record Row := mkRow {
  code : string;
  institution : string;
  ressources : bool;
  year : Z;
  description : string;
  value : Z
}.

#[global] Instance Row_eq_dec : EqDecision Row.
Proof. solve_decision. Defined.

(** A data frame is the frame without rows nor columns built by
    [pandas.DataFrame()], a table with the six columns under the default
    index, such a table re-indexed by its year column, or a single numeric
    column given with its index. *)
Inductive DataFrame :=
| NoFrame
| Table (rows : list Row)
| ByYear (rows : list Row)
| Column (name : string) (cells : list (Z * Z)).

#[global] Instance DataFrame_eq_dec : EqDecision DataFrame.
Proof. solve_decision. Defined.

(** [df[key]] at one row; [None] when the table has no such column. *)
Definition cell (r : Row) (key : string) : option pyval :=
  if String.eqb key "code" then Some (PStr (code r))
  else if String.eqb key "institution" then Some (PStr (institution r))
  else if String.eqb key "ressources" then Some (PBool (ressources r))
  else if String.eqb key "year" then Some (PInt (year r))
  else if String.eqb key "description" then Some (PStr (description r))
  else if String.eqb key "value" then Some (PInt (value r))
  else None.

Definition is_column (key : string) : bool :=
  existsb (String.eqb key)
    ["code"; "institution"; "ressources"; "year"; "description"; "value"].

(** [df.empty] *)
Definition empty (df : DataFrame) : bool :=
  match df with
  | NoFrame => true
  | Table rows | ByYear rows => match rows with [] => true | _ => false end
  | Column _ cells => match cells with [] => true | _ => false end
  end.

Definition rows_of (df : DataFrame) : list Row :=
  match df with
  | Table rows => rows
  | _ => []
  end.

(** [result[mask]]: selection by a boolean mask; the frame without columns
    has no row to keep. *)
Definition select (result : DataFrame) (mask : Row -> bool) : DataFrame :=
  match result with
  | Table rows => Table (List.filter mask rows)
  | ByYear rows => ByYear (List.filter mask rows)
  | other => other
  end.

(** [df.set_index('year')] *)
Definition set_index_year (df : DataFrame) : result DataFrame :=
  match df with
  | Table rows => Ok (ByYear rows)
  | _ => Raise (KeyError "year")
  end.

(** The default index [0 .. n - 1]. *)
Definition positions {A} (l : list A) : list Z :=
  List.map Z.of_nat (seq 0 (List.length l)).

(** [df[['value']]] *)
Definition value_column (df : DataFrame) : result DataFrame :=
  match df with
  | Table rows => Ok (Column "value" (combine (positions rows) (List.map value rows)))
  | ByYear rows => Ok (Column "value" (List.map (fun r => (year r, value r)) rows))
  | Column name cells =>
      if String.eqb name "value" then Ok df else Raise (KeyError "value")
  | NoFrame => Raise (KeyError "value")
  end.

(** [len(df.columns)] *)
Definition columns_count (df : DataFrame) : nat :=
  match df with
  | NoFrame => 0
  | Table _ => 6
  | ByYear _ => 5
  | Column _ _ => 1
  end.

(** [df.columns = [name]], on a frame of one column. *)
Definition rename_column (df : DataFrame) (name : string) : result DataFrame :=
  match df with
  | Column _ cells => Ok (Column name cells)
  | _ => Raise ValueError
  end.

(** [year.isin(years)] *)
Definition isin (y : Z) (years : list Z) : bool := existsb (Z.eqb y) years.

(** [range(1949, 2014)] *)
Definition default_years : list Z :=
  List.map (fun n => 1949 + Z.of_nat n) (seq 0 65).

(** A constraint set, or the definition of a variable. *)
Definition Entry := list (string * pyval).

(** [d.get(key)] *)
Fixpoint dict_get (key : string) (d : Entry) : pyval :=
  match d with
  | [] => PNone
  | (k, v) :: d' => if String.eqb k key then v else dict_get key d'
  end.

(** ** look_up *)

Definition cell_equals (key : string) (v : pyval) (r : Row) : bool :=
  match cell r key with
  | Some c => py_eq c v
  | None => false
  end.

(** The mask [df['description'].str.contains(value)], given the test of
    the compiled pattern. *)
Definition description_contains (test : string -> bool) (r : Row) : bool :=
  test (description r).

Section RowFilter.
Context {regex : RegexEngine}.

(** One turn of the loop over [entry_by_index.items()]. *)
Definition look_up_step (acc : DataFrame) (kv : string * pyval)
  : result DataFrame :=
  let (key, v) := kv in
  if is_none v then Ok acc
  else if String.eqb key "drop" then Ok acc
  else if negb (String.eqb key "description") && negb (String.eqb key "formula")
  then
    if is_column key then
      let acc' := select acc (cell_equals key v) in
      if empty acc' then Ok NoFrame else Ok acc'
    else Raise (KeyError key)
  else if String.eqb key "description" then
    match v with
    | PStr pat =>
        test <- str_contains pat ;;
        Ok (select acc (description_contains test))
    | _ => Raise TypeError
    end
  else Ok NoFrame.

Fixpoint look_up_loop (entry : Entry) (acc : DataFrame) : result DataFrame :=
  match entry with
  | [] => Ok acc
  | kv :: entry' =>
      acc' <- look_up_step acc kv ;;
      look_up_loop entry' acc'
  end.

Definition look_up (df : list Row) (entry_by_index : Entry) (years : list Z)
  : result DataFrame :=
  let result := Table (List.filter (fun r => isin (year r) years) df) in
  look_up_loop entry_by_index result.

End RowFilter.

(** ** look_many *)

(** [pandas.concat([a, b], axis = 0)] *)
Definition concat_rows (a b : DataFrame) : DataFrame :=
  match a, b with
  | NoFrame, _ => b
  | _, NoFrame => a
  | Table ra, Table rb => Table (ra ++ rb)
  | _, _ => a
  end.

(** [drop_duplicates()]: the first of equal rows is kept. *)
Definition dedup (rows : list Row) : list Row :=
  fold_left (fun acc r => if bool_decide (r ∈ acc) then acc else acc ++ [r])
    rows [].

Definition drop_duplicates (df : DataFrame) : DataFrame :=
  match df with
  | Table rows => Table (dedup rows)
  | other => other
  end.

Section RowFilterMany.
Context {regex : RegexEngine}.

Fixpoint look_many_loop (df : list Row) (entry_by_index_list : list Entry)
  (df_output : DataFrame) : result DataFrame :=
  match entry_by_index_list with
  | [] => Ok df_output
  | entity :: rest =>
      df_inter <- look_up df entity default_years ;;
      look_many_loop df rest (concat_rows df_output df_inter)
  end.

Definition look_many (df : list Row) (entry_by_index_list : list Entry)
  : result DataFrame :=
  df_output <- look_many_loop df entry_by_index_list NoFrame ;;
  Ok (drop_duplicates df_output).
End RowFilterMany.

(** ** Arrays *)

(** The arrays that flow through a formula: a scalar (shape [()]), a vector
    (shape [(n,)]), or the values of the frame without columns (shape
    [(0, 0)]). *)
Inductive ndarray :=
| Arr0 (x : Z)
| Arr1 (xs : list Z)
| Arr00.

#[global] Instance ndarray_eq_dec : EqDecision ndarray.
Proof. solve_decision. Defined.

(** [serie.values.squeeze()]: the values of a one-column frame have shape
    [(n, 1)]; squeezing drops every axis of length one, so a single cell
    becomes a scalar. *)
Definition values_squeeze (serie : DataFrame) : ndarray :=
  match serie with
  | Column _ cells =>
      match cells with
      | [(_, x)] => Arr0 x
      | _ => Arr1 (List.map snd cells)
      end
  | _ => Arr00
  end.

(** [serie.index] *)
Definition index_of (serie : DataFrame) : list Z :=
  match serie with
  | Column _ cells => List.map fst cells
  | Table rows => positions rows
  | ByYear rows => List.map year rows
  | NoFrame => []
  end.

(** [len(a)]; a scalar array has no length. *)
Definition array_len (a : ndarray) : result nat :=
  match a with
  | Arr0 _ => Raise TypeError
  | Arr1 xs => Ok (List.length xs)
  | Arr00 => Ok 0%nat
  end.

(** [pandas.DataFrame(data = {name: data}, index = index)]: a scalar is
    repeated along the index, a vector must have the length of the index,
    anything else is refused. *)
Definition make_frame (name : string) (data : ndarray) (index : list Z)
  : result DataFrame :=
  match data with
  | Arr0 x => Ok (Column name (List.map (fun y => (y, x)) index))
  | Arr1 xs =>
      if Nat.eqb (List.length xs) (List.length index)
      then Ok (Column name (combine index xs))
      else Raise ValueError
  | Arr00 => Raise (Exception "Data must be 1-dimensional")
  end.

(** Two frames bear the same index. *)
Definition same_index (a b : DataFrame) : bool :=
  bool_decide (index_of a = index_of b).

(** The index of the frame repeats no label. *)
Definition unique_index (a : DataFrame) : bool :=
  bool_decide (NoDup (index_of a)).

(** ** The formula engine *)

(** [parse_variables f] is [Parser().parse(f).variables()], the names of
    the formula in the order of the parsed expression; [py_eval f env] is
    [eval(f, env)]. *)
Class FormulaEngine := {
  parse_variables : string -> result (list string);
  py_eval : string -> gmap string ndarray -> result ndarray
}.

(** ** get_or_construct_value *)

Abbreviation Registry := (list (string * Entry)).

(** [index_by_variable[variable_name]] *)
Fixpoint registry_get (variable_name : string) (index_by_variable : Registry)
  : result Entry :=
  match index_by_variable with
  | [] => Raise (KeyError variable_name)
  | (k, d) :: rest =>
      if String.eqb k variable_name then Ok d
      else registry_get variable_name rest
  end.

(** The locals that the loop over the components assigns. *)
Record Locals := mkLocals {
  final_formula : option string;
  dico_value : gmap string ndarray;
  index : option (list Z)
}.

Definition no_locals : Locals := mkLocals None ∅ None.

(** [x] as a local that may not have been assigned. *)
Definition local {A} (name : string) (x : option A) : result A :=
  match x with
  | Some a => Ok a
  | None => Raise (UnboundLocalError name)
  end.

Section Resolver.
Context {regex : RegexEngine} {engine : FormulaEngine}.

(** The loop [for component in variables], over a resolver [rec] for the
    components. *)
Fixpoint resolve_components
  (rec : string -> option (result (DataFrame * string)))
  (formula : string) (variables : list string) (st : Locals)
  : option (result Locals) :=
  match variables with
  | [] => Some (Ok st)
  | component :: rest =>
      match rec component with
      | None => None
      | Some (Raise e) => Some (Raise e)
      | Some (Ok (variable_value, variable_formula)) =>
          let formula_with_parenthesis := "(" +:+ variable_formula +:+ ")" in
          resolve_components rec formula rest
            (mkLocals
               (Some (replace formula component formula_with_parenthesis))
               (<[component := values_squeeze variable_value]> (dico_value st))
               (Some (index_of variable_value)))
      end
  end.

(** The loop [for component in variables: print len(dico_value[component])]. *)
Fixpoint print_lengths (variables : list string)
  (dico : gmap string ndarray) : result unit :=
  match variables with
  | [] => Ok tt
  | component :: rest =>
      a <- match dico !! component with
           | Some a => Ok a
           | None => Raise (KeyError component)
           end ;;
      _ <- array_len a ;;
      print_lengths rest dico
  end.

(** The part of the derived case that follows the loop. *)
Definition evaluate (variable_name formula : string)
  (variables : list string) (st : Locals) : result (DataFrame * string) :=
  let formula_modified := replace formula "^" "**" in
  _ <- print_lengths variables (dico_value st) ;;
  data <- py_eval formula_modified (dico_value st) ;;
  index <- local "index" (index st) ;;
  serie <- make_frame variable_name data index ;;
  final_formula <- local "final_formula" (final_formula st) ;;
  Ok (serie, final_formula).

(** The direct-hit case. *)
Definition direct_hit (entry_df : DataFrame) (variable_name : string)
  : result (DataFrame * string) :=
  entry_df <- set_index_year entry_df ;;
  serie <- value_column entry_df ;;
  _ <- (if Nat.eqb (columns_count serie) 1 then Ok tt
        else Raise AssertionError) ;;
  serie <- rename_column serie variable_name ;;
  Ok (serie, variable_name).

(** The body of [get_or_construct_value] once the registry is known. *)
Definition resolve_body
  (rec : string -> option (result (DataFrame * string)))
  (df : list Row) (variable_name : string) (index_by_variable : Registry)
  (years : list Z) : option (result (DataFrame * string)) :=
  match registry_get variable_name index_by_variable with
  | Raise e => Some (Raise e)
  | Ok variable =>
      let formula := dict_get "formula" variable in
      match look_up df variable years with
      | Raise e => Some (Raise e)
      | Ok entry_df =>
          if negb (empty entry_df) then
            Some (direct_hit entry_df variable_name)
          else if negb (truthy formula) && empty entry_df then
            Some (Ok (NoFrame, ""))
          else
            match formula with
            | PStr formula =>
                match parse_variables formula with
                | Raise e => Some (Raise e)
                | Ok variables =>
                    match resolve_components rec formula variables no_locals with
                    | None => None
                    | Some (Raise e) => Some (Raise e)
                    | Some (Ok st) =>
                        Some (evaluate variable_name formula variables st)
                    end
                end
            | _ => Some (Raise TypeError)
            end
      end
  end.

Fixpoint get_or_construct_value (fuel : nat) (df : list Row)
  (variable_name : string) (index_by_variable : option Registry)
  (years : list Z) : option (result (DataFrame * string)) :=
  match fuel with
  | O => None
  | S fuel' =>
      let index_by_variable :=
        match index_by_variable with
        | None => [(variable_name, [("code", PStr variable_name)])]
        | Some registry => registry
        end in
      resolve_body
        (fun component =>
           get_or_construct_value fuel' df component (Some index_by_variable)
             years)
        df variable_name index_by_variable years
  end.

(** ** get_or_construct_data *)

(** [pandas.concat((result, variable_values), axis = 1)] on the combined
    table, held as the list of its columns in order, each with its own
    cells under their year. A frame without rows nor columns is left out
    of the concatenation, so the first series is taken as it is. After
    that, a series whose index is the index of the table is put beside
    it; otherwise the table and the series are aligned on the union of
    their years, which raises unless no index repeats a year. As long as
    nothing has been aligned the columns of the table all bear its
    index, and afterwards none of them repeats a year. *)
Definition concat_columns (table : list DataFrame)
  (variable_values : DataFrame) : result (list DataFrame) :=
  match variable_values with
  | NoFrame => Ok table
  | _ =>
      match table with
      | [] => Ok [variable_values]
      | _ =>
          if forallb (fun column => same_index column variable_values) table
          then Ok (table ++ [variable_values])
          else if forallb unique_index (variable_values :: table)
          then Ok (table ++ [variable_values])
          else Raise InvalidIndexError
      end
  end.

(** One turn of the loop [for variable in variable_dictionary]. *)
Definition data_step (fuel : nat) (df : list Row)
  (variable_dictionary : Registry) (years : list Z)
  (acc : list DataFrame * gmap string string) (variable : string)
  : option (result (list DataFrame * gmap string string)) :=
  let (result, formulas) := acc in
  match get_or_construct_value fuel df variable (Some variable_dictionary)
          years with
  | None => None
  | Some (Raise e) => Some (Raise e)
  | Some (Ok (variable_values, variable_formula)) =>
      let variable_name := replace variable "_" " " in
      match registry_get variable variable_dictionary with
      | Raise e => Some (Raise e)
      | Ok definition =>
          let formulas :=
            if negb (is_none (dict_get "formula" definition))
            then <[variable_name := variable_formula]> formulas
            else formulas in
          let drop := dict_get "drop" definition in
          if negb (truthy drop)
          then
            match concat_columns result variable_values with
            | Raise e => Some (Raise e)
            | Ok result => Some (Ok (result, formulas))
            end
          else Some (Ok (result, formulas))
      end
  end.

Fixpoint data_loop (fuel : nat) (df : list Row)
  (variable_dictionary : Registry) (years : list Z)
  (variables : list string) (acc : list DataFrame * gmap string string)
  : option (result (list DataFrame * gmap string string)) :=
  match variables with
  | [] => Some (Ok acc)
  | variable :: rest =>
      match data_step fuel df variable_dictionary years acc variable with
      | None => None
      | Some (Raise e) => Some (Raise e)
      | Some (Ok acc') =>
          data_loop fuel df variable_dictionary years rest acc'
      end
  end.

Definition get_or_construct_data (fuel : nat) (df : list Row)
  (variable_dictionary : Registry) (years : list Z)
  : option (result (list DataFrame * gmap string string)) :=
  data_loop fuel df variable_dictionary years
    (List.map fst variable_dictionary) ([], ∅).
End Resolver.

(** ** Reference engines

    An instance of [FormulaEngine] for the formulas of the registries:
    names, integer literals, [+ - * / ^] and parentheses, evaluated on
    integer arrays as Python 2 and numpy do (floor division, element by
    element, scalars broadcast, 64-bit cells that wrap around). The names
    that the parser reads as constants or functions (E, PI, sin, ...) are
    left aside.

    An instance of [RegexEngine] for the patterns made of characters,
    [.], escaped special characters, groups, [|] and the repetitions
    [*], [+], [?]; anchors, character classes, counted repetitions and
    the other escapes are left aside.

    The general theorems hold for every engine; these run the
    examples. *)
Module Reference.

Inductive binop := Add | Sub | Mul | Div | Pow.

Inductive token :=
| TNum (n : Z)
| TName (s : string)
| TOp (op : binop)
| TLParen
| TRParen.

Inductive expr :=
| ENum (n : Z)
| EVar (s : string)
| ENeg (e : expr)
| EBin (op : binop) (e1 e2 : expr).

Definition between (lo hi : nat) (c : ascii) : bool :=
  (lo <=? nat_of_ascii c)%nat && (nat_of_ascii c <=? hi)%nat.

Definition is_digit (c : ascii) : bool := between 48 57 c.
Definition is_alpha (c : ascii) : bool := between 65 90 c || between 97 122 c.
Definition is_space (c : ascii) : bool := Ascii.eqb c " ".
Definition digit (c : ascii) : Z := Z.of_nat (nat_of_ascii c) - 48.

Inductive lex_state :=
| LNone
| LNum (n : Z)
| LName (s : string).

Definition flush (st : lex_state) (rest : option (list token))
  : option (list token) :=
  match st with
  | LNone => rest
  | LNum n => cons (TNum n) <$> rest
  | LName s => cons (TName s) <$> rest
  end.

(** The character [c] carries on the literal or the name being read. *)
Definition carry_on (st : lex_state) (c : ascii) : option lex_state :=
  match st with
  | LNone => None
  | LNum n => if is_digit c then Some (LNum (10 * n + digit c)) else None
  | LName s =>
      if is_alpha c || is_digit c || Ascii.eqb c "_"
      then Some (LName (s +:+ String c EmptyString))
      else None
  end.

(** With [python] the power operator is [**], as [eval] reads it;
    without, it is [^], as the formulas write it. *)
Fixpoint lex (python : bool) (st : lex_state) (s : string)
  : option (list token) :=
  match s with
  | EmptyString => flush st (Some [])
  | String c s' =>
      match carry_on st c with
      | Some st' => lex python st' s'
      | None =>
          flush st
            (if is_space c then lex python LNone s'
             else if is_alpha c then lex python (LName (String c EmptyString)) s'
             else if is_digit c then lex python (LNum (digit c)) s'
             else if Ascii.eqb c "+" then cons (TOp Add) <$> lex python LNone s'
             else if Ascii.eqb c "-" then cons (TOp Sub) <$> lex python LNone s'
             else if Ascii.eqb c "/" then cons (TOp Div) <$> lex python LNone s'
             else if Ascii.eqb c "(" then cons TLParen <$> lex python LNone s'
             else if Ascii.eqb c ")" then cons TRParen <$> lex python LNone s'
             else if Ascii.eqb c "^" then
               if python then None else cons (TOp Pow) <$> lex python LNone s'
             else if Ascii.eqb c "*" then
               match s' with
               | String d s'' =>
                   if Ascii.eqb d "*" then
                     if python then cons (TOp Pow) <$> lex python LNone s''
                     else None
                   else cons (TOp Mul) <$> lex python LNone s'
               | EmptyString => cons (TOp Mul) <$> lex python LNone s'
               end
             else None)
      end
  end.

(** Binding strength; the power operator associates to the right. *)
Definition prec (op : binop) : nat :=
  match op with
  | Add | Sub => 1
  | Mul | Div => 2
  | Pow => 4
  end.

Definition next_prec (op : binop) : nat :=
  match op with
  | Pow => 4
  | _ => S (prec op)
  end.

Fixpoint parse_expr (fuel : nat) (min : nat) (ts : list token)
  {struct fuel} : option (expr * list token) :=
  match fuel with
  | O => None
  | S fuel' =>
      match parse_atom fuel' ts with
      | Some (lhs, rest) => parse_loop fuel' min lhs rest
      | None => None
      end
  end
with parse_atom (fuel : nat) (ts : list token)
  {struct fuel} : option (expr * list token) :=
  match fuel with
  | O => None
  | S fuel' =>
      match ts with
      | TNum n :: rest => Some (ENum n, rest)
      | TName s :: rest => Some (EVar s, rest)
      | TLParen :: rest =>
          match parse_expr fuel' 1 rest with
          | Some (e, TRParen :: rest') => Some (e, rest')
          | _ => None
          end
      | TOp Sub :: rest =>
          match parse_expr fuel' 3 rest with
          | Some (e, rest') => Some (ENeg e, rest')
          | None => None
          end
      | _ => None
      end
  end
with parse_loop (fuel : nat) (min : nat) (lhs : expr) (ts : list token)
  {struct fuel} : option (expr * list token) :=
  match fuel with
  | O => None
  | S fuel' =>
      match ts with
      | TOp op :: rest =>
          if (min <=? prec op)%nat then
            match parse_expr fuel' (next_prec op) rest with
            | Some (rhs, rest') => parse_loop fuel' min (EBin op lhs rhs) rest'
            | None => None
            end
          else Some (lhs, ts)
      | _ => Some (lhs, ts)
      end
  end.

Definition parse (python : bool) (s : string) : option expr :=
  match lex python LNone s with
  | Some ts =>
      match parse_expr (4 * List.length ts + 4) 1 ts with
      | Some (e, []) => Some e
      | _ => None
      end
  | None => None
  end.

(** The names of an expression, each once, in the order of their first
    occurrence. *)
Fixpoint names (e : expr) (seen : list string) : list string :=
  match e with
  | ENum _ => seen
  | EVar s => if existsb (String.eqb s) seen then seen else seen ++ [s]
  | ENeg e => names e seen
  | EBin _ e1 e2 => names e2 (names e1 seen)
  end.

Definition variables (formula : string) : result (list string) :=
  match parse false formula with
  | Some e => Ok (names e [])
  | None => Raise (Exception "parse error")
  end.

(** Integer arithmetic of one operator; a negative exponent has no
    integer result. *)
Definition arith (op : binop) (x y : Z) : result Z :=
  match op with
  | Add => Ok (x + y)
  | Sub => Ok (x - y)
  | Mul => Ok (x * y)
  | Div => Ok (x / y)
  | Pow => if y <? 0 then Raise ValueError else Ok (x ^ y)
  end.

(** The same on the cells of an array, which are 64-bit integers: the
    result wraps around. *)
Definition wrap (z : Z) : Z := (z + 2 ^ 63) mod 2 ^ 64 - 2 ^ 63.

Definition arith64 (op : binop) (x y : Z) : result Z :=
  z <- arith op x y ;; Ok (wrap z).

Fixpoint map_result {A B} (f : A -> result B) (l : list A) : result (list B) :=
  match l with
  | [] => Ok []
  | a :: l' => b <- f a ;; bs <- map_result f l' ;; Ok (b :: bs)
  end.

(** Broadcasting of a binary operator over two arrays. *)
Definition broadcast (op : binop) (a b : ndarray) : result ndarray :=
  match a, b with
  | Arr0 x, Arr0 y => z <- arith64 op x y ;; Ok (Arr0 z)
  | Arr0 x, Arr1 ys => zs <- map_result (arith64 op x) ys ;; Ok (Arr1 zs)
  | Arr1 xs, Arr0 y =>
      zs <- map_result (fun x => arith64 op x y) xs ;; Ok (Arr1 zs)
  | Arr1 xs, Arr1 ys =>
      match xs, ys with
      | [x], _ => zs <- map_result (arith64 op x) ys ;; Ok (Arr1 zs)
      | _, [y] => zs <- map_result (fun x => arith64 op x y) xs ;; Ok (Arr1 zs)
      | _, _ =>
          if Nat.eqb (List.length xs) (List.length ys)
          then zs <- map_result (fun p => arith64 op (fst p) (snd p))
                       (combine xs ys) ;;
               Ok (Arr1 zs)
          else Raise ValueError
      end
  | Arr00, Arr0 _ | Arr0 _, Arr00 | Arr00, Arr00 => Ok Arr00
  | Arr00, Arr1 xs | Arr1 xs, Arr00 =>
      if (List.length xs <=? 1)%nat then Ok Arr00 else Raise ValueError
  end.

Definition negate (a : ndarray) : ndarray :=
  match a with
  | Arr0 x => Arr0 (wrap (- x))
  | Arr1 xs => Arr1 (List.map (fun x => wrap (- x)) xs)
  | Arr00 => Arr00
  end.

(** A value of the evaluation: a Python number or an array. *)
Inductive evalue :=
| Num (n : Z)
| Arr (a : ndarray).

Definition to_array (v : evalue) : ndarray :=
  match v with
  | Num n => Arr0 n
  | Arr a => a
  end.

Fixpoint eval_expr (env : gmap string ndarray) (e : expr) : result evalue :=
  match e with
  | ENum n => Ok (Num n)
  | EVar s =>
      match env !! s with
      | Some a => Ok (Arr a)
      | None => Raise (Exception "NameError")
      end
  | ENeg e =>
      v <- eval_expr env e ;;
      Ok (match v with Num n => Num (- n) | Arr a => Arr (negate a) end)
  | EBin op e1 e2 =>
      v1 <- eval_expr env e1 ;;
      v2 <- eval_expr env e2 ;;
      match v1, v2 with
      | Num x, Num y =>
          match op with
          | Div =>
              if y =? 0 then Raise (Exception "ZeroDivisionError")
              else Ok (Num (x / y))
          | _ => z <- arith op x y ;; Ok (Num z)
          end
      | _, _ => a <- broadcast op (to_array v1) (to_array v2) ;; Ok (Arr a)
      end
  end.

Definition eval (formula : string) (env : gmap string ndarray)
  : result ndarray :=
  match parse true formula with
  | Some e => v <- eval_expr env e ;; Ok (to_array v)
  | None => Raise (Exception "SyntaxError")
  end.

#[export] Instance engine : FormulaEngine :=
  {| parse_variables := variables; py_eval := eval |}.

(** *** Regular expressions *)

Inductive pattern :=
| RNone
| REps
| RChar (c : ascii)
| RAny
| RAlt (r1 r2 : pattern)
| RCat (r1 r2 : pattern)
| RStar (r : pattern).

Definition is_char (c : ascii) (s : string) : bool :=
  String.eqb (String c EmptyString) s.

Definition unsupported {A} : result A :=
  Raise (Exception "unsupported pattern").

(** A repetition may be followed by [?], which asks for the shortest
    match and does not change whether there is one. *)
Definition skip_lazy (s : list ascii) : list ascii :=
  match s with
  | c :: rest => if is_char c "?" then rest else s
  | [] => s
  end.

Fixpoint regex_alt (fuel : nat) (s : list ascii)
  {struct fuel} : result (pattern * list ascii) :=
  match fuel with
  | O => unsupported
  | S fuel' =>
      match regex_cat fuel' s with
      | Raise e => Raise e
      | Ok (r1, rest) =>
          match rest with
          | c :: rest' =>
              if is_char c "|" then
                match regex_alt fuel' rest' with
                | Raise e => Raise e
                | Ok (r2, rest'') => Ok (RAlt r1 r2, rest'')
                end
              else Ok (r1, rest)
          | [] => Ok (r1, rest)
          end
      end
  end
with regex_cat (fuel : nat) (s : list ascii)
  {struct fuel} : result (pattern * list ascii) :=
  match fuel with
  | O => unsupported
  | S fuel' =>
      match s with
      | [] => Ok (REps, [])
      | c :: _ =>
          if is_char c "|" || is_char c ")" then Ok (REps, s)
          else
            match regex_rep fuel' s with
            | Raise e => Raise e
            | Ok (r1, rest) =>
                match regex_cat fuel' rest with
                | Raise e => Raise e
                | Ok (r2, rest') => Ok (RCat r1 r2, rest')
                end
            end
      end
  end
with regex_rep (fuel : nat) (s : list ascii)
  {struct fuel} : result (pattern * list ascii) :=
  match fuel with
  | O => unsupported
  | S fuel' =>
      match regex_atom fuel' s with
      | Raise e => Raise e
      | Ok (r, rest) =>
          match rest with
          | c :: rest' =>
              if is_char c "*" then Ok (RStar r, skip_lazy rest')
              else if is_char c "+" then Ok (RCat r (RStar r), skip_lazy rest')
              else if is_char c "?" then Ok (RAlt REps r, skip_lazy rest')
              else Ok (r, rest)
          | [] => Ok (r, rest)
          end
      end
  end
with regex_atom (fuel : nat) (s : list ascii)
  {struct fuel} : result (pattern * list ascii) :=
  match fuel with
  | O => unsupported
  | S fuel' =>
      match s with
      | [] => Raise ReError
      | c :: rest =>
          if is_char c "(" then
            match rest with
            | d :: _ =>
                if is_char d "?" then unsupported
                else
                  match regex_alt fuel' rest with
                  | Raise e => Raise e
                  | Ok (r, close :: rest') =>
                      if is_char close ")" then Ok (r, rest')
                      else Raise ReError
                  | Ok (_, []) => Raise ReError
                  end
            | [] => Raise ReError
            end
          else if is_char c "." then Ok (RAny, rest)
          else if is_char c "\" then
            match rest with
            | d :: rest' =>
                if special d then Ok (RChar d, rest') else unsupported
            | [] => Raise ReError
            end
          else if is_char c "*" || is_char c "+" || is_char c "?"
                  || is_char c ")"
          then Raise ReError
          else if special c then unsupported
          else Ok (RChar c, rest)
      end
  end.

(** [re.compile(pat)] *)
Definition compile (pat : string) : result pattern :=
  let s := list_ascii_of_string pat in
  match regex_alt (4 * List.length s + 4) s with
  | Raise e => Raise e
  | Ok (r, []) => Ok r
  | Ok (_, _ :: _) => Raise ReError
  end.

(** The pattern matches the empty string. *)
Fixpoint nullable (r : pattern) : bool :=
  match r with
  | RNone | RChar _ | RAny => false
  | REps | RStar _ => true
  | RAlt r1 r2 => nullable r1 || nullable r2
  | RCat r1 r2 => nullable r1 && nullable r2
  end.

Definition newline : ascii := ascii_of_nat 10.

(** What is left of the pattern once the character [c] is read; [.]
    reads any character but the newline. *)
Fixpoint derive (c : ascii) (r : pattern) : pattern :=
  match r with
  | RNone | REps => RNone
  | RChar d => if Ascii.eqb c d then REps else RNone
  | RAny => if Ascii.eqb c newline then RNone else REps
  | RAlt r1 r2 => RAlt (derive c r1) (derive c r2)
  | RCat r1 r2 =>
      if nullable r1
      then RAlt (RCat (derive c r1) r2) (derive c r2)
      else RCat (derive c r1) r2
  | RStar r1 => RCat (derive c r1) (RStar r1)
  end.

(** The pattern matches a prefix of the string. *)
Fixpoint match_prefix (r : pattern) (s : string) : bool :=
  nullable r ||
  match s with
  | EmptyString => false
  | String c s' => match_prefix (derive c r) s'
  end.

(** [bool(regex.search(s))] *)
Fixpoint search (r : pattern) (s : string) : bool :=
  match_prefix r s ||
  match s with
  | EmptyString => false
  | String _ s' => search r s'
  end.

(** A pattern without special characters is its own text. *)
Definition contains_regex (pat : string) : result (string -> bool) :=
  if plain pat then Ok (contains pat)
  else r <- compile pat ;; Ok (search r).

#[export] Instance regex_engine : RegexEngine.
Proof.
  refine {| str_contains := contains_regex |}.
  intros pat Hplain. exists (contains pat). unfold contains_regex.
  rewrite Hplain. split; reflexivity.
Defined.

End Reference.

Import Reference.

(** ** Example data *)

Definition row (c : string) (y v : Z) : Row := mkRow c "S1" false y "" v.

Definition xyz_registry : Registry :=
  [("X", [("code", PStr "D41")]);
   ("Y", [("code", PStr "D42")]);
   ("Z", [("formula", PStr "X + Y")])].

Definition table_1999 : list Row := [row "D41" 1999 10; row "D42" 1999 5].

(** Two rows of the same code and year. *)
Definition ambiguous_table : list Row :=
  [mkRow "D41" "S1" false 1999 "" 10; mkRow "D41" "S2" false 1999 "" 20].

(** A registry whose formula names the undeclared [Q]. *)
Definition q_registry : Registry :=
  [("X", [("code", PStr "D41")]);
   ("Z", [("formula", PStr "X + Q")])].

(** A registry with a variable that the table does not hold. *)
Definition absent_registry : Registry := [("X", [("code", PStr "D43")])].

(** A registry whose second variable repeats the year of the first. *)
Definition repeated_year_registry : Registry :=
  [("Y", [("code", PStr "D41"); ("institution", PStr "S1")]);
   ("X", [("code", PStr "D41")])].

(** A registry with a dropped component and two columns. *)
Definition mixed_registry : Registry :=
  [("X_in", [("code", PStr "D41"); ("drop", PBool true)]);
   ("Y_in", [("code", PStr "D42")]);
   ("Z_out", [("formula", PStr "X_in - Y_in")])].

(** A registry with dropped components. *)
Definition drop_registry : Registry :=
  [("X_in", [("code", PStr "D41"); ("drop", PBool true)]);
   ("Y_in", [("code", PStr "D42"); ("drop", PBool true)]);
   ("Z_out", [("formula", PStr "X_in - Y_in")])].

Definition table_two_years : list Row :=
  [row "D41" 1999 10; row "D41" 2000 20; row "D42" 1999 5; row "D42" 2000 7].

(** A table with descriptions. *)
Definition pib_table : list Row :=
  [mkRow "B1g" "S1" false 1999 "P.B aux prix courants" 10;
   mkRow "B1g" "S1" false 1999 "PIB total" 20;
   mkRow "D41" "S1" false 1999 "Interets" 5].


(** ** Reading a definition *)

(** The variable is left out of the combined table. *)
Definition dropped (definition : Entry) : bool :=
  truthy (dict_get "drop" definition).

(** The definition carries a formula. *)
Definition has_formula (definition : Entry) : bool :=
  negb (is_none (dict_get "formula" definition)).

(** The name under which a formula is reported. *)
Definition readable (variable : string) : string := replace variable "_" " ".

(** The columns that a resolved series brings to the combined table. *)
Definition series_columns (serie : DataFrame) : list DataFrame :=
  match serie with
  | NoFrame => []
  | _ => [serie]
  end.

(** The columns that a variable of the registry brings, given the
    resolution of every variable. *)
Definition combined_columns (resolved : string -> DataFrame * string)
  (entry : string * Entry) : list DataFrame :=
  if dropped (snd entry) then []
  else series_columns (fst (resolved (fst entry))).

(** The formulas after the definition of one more variable. *)
Definition record_formula (registry : Registry)
  (resolved : string -> DataFrame * string)
  (formulas : gmap string string) (variable : string) : gmap string string :=
  match registry_get variable registry with
  | Ok definition =>
      if has_formula definition
      then <[readable variable := snd (resolved variable)]> formulas
      else formulas
  | Raise _ => formulas
  end.

(** The concatenations of the batch, one series after the other. *)
Fixpoint concat_all (table : list DataFrame) (series : list DataFrame)
  : result (list DataFrame) :=
  match series with
  | [] => Ok table
  | serie :: rest =>
      table' <- concat_columns table serie ;;
      concat_all table' rest
  end.

Definition columns_of (registry : Registry)
  (resolved : string -> DataFrame * string) (variable : string)
  : list DataFrame :=
  match registry_get variable registry with
  | Ok definition => combined_columns resolved (variable, definition)
  | Raise _ => []
  end.

(** One resolver refines another when it gives the same answers, with more
    fuel. *)
Definition refines (rec1 rec2 : string -> option (result (DataFrame * string)))
  : Prop :=
  forall c r, rec1 c = Some r -> rec2 c = Some r.

(** ** What a constraint set asks of a row *)

Section Constraints.
Context {regex : RegexEngine}.

(** A null field asks nothing and [drop] is no constraint; [description]
    asks that the search of the pattern succeeds; any other field asks
    for an equal cell, which a row has only for the columns of the
    table. *)
Definition field_matches (r : Row) (kv : string * pyval) : bool :=
  let (key, v) := kv in
  if is_none v then true
  else if String.eqb key "drop" then true
  else if String.eqb key "description" then
    match v with
    | PStr pat =>
        match str_contains pat with
        | Ok test => test (description r)
        | Raise _ => false
        end
    | _ => false
    end
  else cell_equals key v r.

Definition matches (entry : Entry) (r : Row) : bool :=
  forallb (field_matches r) entry.

(** The pattern of a description compiles. *)
Definition compiles (v : pyval) : bool :=
  match v with
  | PStr pat =>
      match str_contains pat with
      | Ok _ => true
      | Raise _ => false
      end
  | _ => false
  end.

(** The keys of a constraint set are among code, institution, ressources,
    year, description, value, formula and drop, and a description is a
    string that compiles as a regular expression. *)
Definition field_wf (kv : string * pyval) : bool :=
  let (key, v) := kv in
  is_none v
  || String.eqb key "drop"
  || String.eqb key "formula"
  || (if String.eqb key "description" then compiles v else is_column key).

Definition entry_wf (entry : Entry) : bool := forallb field_wf entry.

(** The exception that an ill-formed constraint raises. *)
Definition fault_of (kv : string * pyval) : exn :=
  if String.eqb (fst kv) "description" then
    match snd kv with
    | PStr pat =>
        match str_contains pat with
        | Raise e => e
        | Ok _ => TypeError
        end
    | _ => TypeError
    end
  else KeyError (fst kv).

(** The first exception that the constraints raise when they are visited
    in turn. *)
Fixpoint first_fault (entry : Entry) : option exn :=
  match entry with
  | [] => None
  | (key, v) :: rest =>
      if field_wf (key, v) then first_fault rest
      else Some (fault_of (key, v))
  end.
End Constraints.

(** [pat] occurs in [s]. *)
Definition occurs_in (pat s : string) : Prop :=
  exists before after, s = before +:+ pat +:+ after.

(** What a constraint asks of a row when the description is searched as
    plain text. *)
Definition asks (r : Row) (kv : string * pyval) : Prop :=
  snd kv = PNone
  \/ fst kv = "drop"
  \/ (fst kv = "description" /\
      exists pat, snd kv = PStr pat /\ occurs_in pat (description r))
  \/ (fst kv <> "description" /\
      exists c, cell r (fst kv) = Some c /\ py_eq c (snd kv) = true).

(** The descriptions of the constraint set hold no special character. *)
Definition plain_descriptions (entry : Entry) : bool :=
  forallb (fun kv : string * pyval =>
             if String.eqb (fst kv) "description"
             then match snd kv with PStr pat => plain pat | _ => true end
             else true) entry.

(** The columns of a combined table can stand side by side: they bear the
    same index, or none of them repeats a year. *)
Definition all_same_index (columns : list DataFrame) : bool :=
  match columns with
  | [] => true
  | first :: rest => forallb (fun column => same_index column first) rest
  end.

Definition alignable (columns : list DataFrame) : bool :=
  all_same_index columns || forallb unique_index columns.

(** A frame that [look_up] handles: the table slice or the frame without
    columns. *)
Definition is_slice (df : DataFrame) : Prop :=
  df = NoFrame \/ exists rows, df = Table rows.

(** How the reference engine resolves the variables of [mixed_registry]. *)
Definition mixed_resolved (v : string) : DataFrame * string :=
  match get_or_construct_value 2 table_two_years v (Some mixed_registry)
          [1999; 2000] with
  | Some (Ok r) => r
  | _ => (NoFrame, "")
  end.


(** ** The resolver over a store of frames

    The same functions with the frames held in a store and passed by
    reference, as Python passes them: [copy], a selection and
    [pandas.DataFrame()] allocate a new frame, and the assignment to
    [serie.columns] updates a frame in place. *)
Module Heap.

Abbreviation ref := nat.
Abbreviation store := (list DataFrame).

(** A computation reads and updates the store; it returns a value, raises
    an exception, or runs out of fuel. *)
Definition M (A : Type) : Type := store -> option (result A) * store.

Definition ret {A} (a : A) : M A := fun h => (Some (Ok a), h).

Definition raise {A} (e : exn) : M A := fun h => (Some (Raise e), h).

Definition out_of_fuel {A} : M A := fun h => (None, h).

Definition bind {A B} (m : M A) (k : A -> M B) : M B :=
  fun h =>
    match m h with
    | (Some (Ok a), h') => k a h'
    | (Some (Raise e), h') => (Some (Raise e), h')
    | (None, h') => (None, h')
    end.

Notation "x <~ m ;; k" := (bind m (fun x => k))
  (at level 100, m at next level, right associativity).

Definition lift {A} (r : result A) : M A :=
  match r with
  | Ok a => ret a
  | Raise e => raise e
  end.

(** A new object. *)
Definition alloc (f : DataFrame) : M ref :=
  fun h => (Some (Ok (List.length h)), h ++ [f]).

Definition read (r : ref) : M DataFrame :=
  fun h =>
    match h !! r with
    | Some f => (Some (Ok f), h)
    | None => (Some (Raise (Exception "no such object")), h)
    end.

(** An update in place. *)
Definition write (r : ref) (f : DataFrame) : M unit :=
  fun h => (Some (Ok tt), <[r := f]> h).

(** [df.copy()] *)
Definition copy (df : ref) : M ref := f <~ read df ;; alloc f.

(** [pandas.DataFrame()] *)
Definition new_frame : M ref := alloc NoFrame.

(** The frame has a column [key]. *)
Definition has_column (f : DataFrame) (key : string) : bool :=
  match f with
  | NoFrame => false
  | Table _ => is_column key
  | ByYear _ => is_column key && negb (String.eqb key "year")
  | Column name _ => String.eqb key name
  end.

(** [df[key]], read for a mask. *)
Definition column (df : ref) (key : string) : M unit :=
  f <~ read df ;;
  if has_column f key then ret tt else raise (KeyError key).

(** [result[mask]] *)
Definition getitem_mask (result : ref) (mask : Row -> bool) : M ref :=
  f <~ read result ;; alloc (select f mask).

(** [df.empty] *)
Definition is_empty (df : ref) : M bool := f <~ read df ;; ret (empty f).

(** [df.set_index('year')] *)
Definition set_index (df : ref) : M ref :=
  f <~ read df ;; f' <~ lift (set_index_year f) ;; alloc f'.

(** [df[['value']]] *)
Definition getitem_value (df : ref) : M ref :=
  f <~ read df ;; f' <~ lift (value_column f) ;; alloc f'.

(** [serie.columns = [name]] *)
Definition set_columns (serie : ref) (name : string) : M unit :=
  f <~ read serie ;; f' <~ lift (rename_column f name) ;; write serie f'.

Section RowFilter.
Context {regex : RegexEngine}.

Definition look_up_step (df : ref) (acc : ref) (kv : string * pyval)
  : M ref :=
  let (key, v) := kv in
  if is_none v then ret acc
  else if String.eqb key "drop" then ret acc
  else if negb (String.eqb key "description")
          && negb (String.eqb key "formula")
  then
    _ <~ column df key ;;
    selected <~ getitem_mask acc (cell_equals key v) ;;
    acc <~ copy selected ;;
    e <~ is_empty acc ;;
    if e then new_frame else ret acc
  else if String.eqb key "description" then
    _ <~ column df key ;;
    match v with
    | PStr pat =>
        test <~ lift (str_contains pat) ;;
        selected <~ getitem_mask acc (description_contains test) ;;
        copy selected
    | _ => raise TypeError
    end
  else new_frame.

Fixpoint look_up_loop (df : ref) (entry : Entry) (acc : ref) : M ref :=
  match entry with
  | [] => ret acc
  | kv :: entry' =>
      acc' <~ look_up_step df acc kv ;;
      look_up_loop df entry' acc'
  end.

Definition look_up (df : ref) (entry_by_index : Entry) (years : list Z)
  : M ref :=
  result <~ copy df ;;
  _ <~ column df "year" ;;
  selected <~ getitem_mask result (fun r => isin (year r) years) ;;
  result <~ copy selected ;;
  look_up_loop df entry_by_index result.
End RowFilter.

(** The copy of the value column, renamed in place. *)
Definition rename_copy (selected : ref) (variable_name : string)
  : M (ref * string) :=
  serie <~ copy selected ;;
  f <~ read serie ;;
  _ <~ (if Nat.eqb (columns_count f) 1 then ret tt
        else raise AssertionError) ;;
  _ <~ set_columns serie variable_name ;;
  ret (serie, variable_name).

(** The direct-hit case. *)
Definition direct_hit (entry_df : ref) (variable_name : string)
  : M (ref * string) :=
  entry_df <~ set_index entry_df ;;
  selected <~ getitem_value entry_df ;;
  rename_copy selected variable_name.

Section Resolver.
Context {regex : RegexEngine} {engine : FormulaEngine}.

Fixpoint resolve_components (rec : string -> M (ref * string))
  (formula : string) (variables : list string) (st : Locals) : M Locals :=
  match variables with
  | [] => ret st
  | component :: rest =>
      answer <~ rec component ;;
      let (variable_value, variable_formula) := answer : ref * string in
      let formula_with_parenthesis := "(" +:+ variable_formula +:+ ")" in
      serie <~ read variable_value ;;
      resolve_components rec formula rest
        (mkLocals
           (Some (replace formula component formula_with_parenthesis))
           (<[component := values_squeeze serie]> (dico_value st))
           (Some (index_of serie)))
  end.

Definition resolve_body (rec : string -> M (ref * string))
  (df : ref) (variable_name : string) (index_by_variable : Registry)
  (years : list Z) : M (ref * string) :=
  variable <~ lift (registry_get variable_name index_by_variable) ;;
  let formula := dict_get "formula" variable in
  entry_df <~ look_up df variable years ;;
  e <~ is_empty entry_df ;;
  if negb e then
    direct_hit entry_df variable_name
  else if negb (truthy formula) && e then
    serie <~ new_frame ;;
    ret (serie, "")
  else
    match formula with
    | PStr formula =>
        variables <~ lift (parse_variables formula) ;;
        st <~ resolve_components rec formula variables no_locals ;;
        answer <~ lift (evaluate variable_name formula variables st) ;;
        serie <~ alloc (fst answer) ;;
        ret (serie, snd answer)
    | _ => raise TypeError
    end.

Fixpoint get_or_construct_value (fuel : nat) (df : ref)
  (variable_name : string) (index_by_variable : option Registry)
  (years : list Z) : M (ref * string) :=
  match fuel with
  | O => out_of_fuel
  | S fuel' =>
      df <~ copy df ;;
      let index_by_variable :=
        match index_by_variable with
        | None => [(variable_name, [("code", PStr variable_name)])]
        | Some registry => registry
        end in
      resolve_body
        (fun component =>
           get_or_construct_value fuel' df component
             (Some index_by_variable) years)
        df variable_name index_by_variable years
  end.
End Resolver.

(** The store after a run. *)
Definition final {A} (m : M A) (h : store) : store := snd (m h).

(** A computation extends the store: it may add objects, and every object
    that was there is still there, unchanged, whatever the outcome. *)
Definition extends {A} (m : M A) : Prop :=
  forall h, h `prefix_of` final m h.

(** A run of the row filter from the store [h] stands for the answer
    [pure] of the filter on values: it extends [h] and raises the same
    exception, or returns a reference, not below [bound], to the same
    frame. *)
Definition filter_stands_for (h : store) (bound : nat)
  (run : option (result ref) * store) (pure : result DataFrame) : Prop :=
  h `prefix_of` snd run /\
  match pure with
  | Ok f =>
      exists r, fst run = Some (Ok r) /\ snd run !! r = Some f /\
                (bound <= r)%nat
  | Raise e => fst run = Some (Raise e)
  end.

(** The same for a run of the resolver, which returns a reference to a
    new frame. *)
Definition stands_for (h : store)
  (run : option (result (ref * string)) * store)
  (pure : option (result (DataFrame * string))) : Prop :=
  h `prefix_of` snd run /\
  match pure with
  | Some (Ok (f, s)) =>
      exists r, fst run = Some (Ok (r, s)) /\ snd run !! r = Some f /\
                (List.length h <= r)%nat
  | Some (Raise e) => fst run = Some (Raise e)
  | None => fst run = None
  end.

End Heap.

(** ** Further readings of the registry *)

(** A definition without its [drop] key. *)
Definition without_drop (definition : Entry) : Entry :=
  List.filter (fun kv => negb (String.eqb (fst kv) "drop")) definition.

(** Two registries that differ in their [drop] keys only. *)
Definition same_but_drop (a b : Registry) : Prop :=
  Forall2 (fun x y => fst x = fst y /\
                      without_drop (snd x) = without_drop (snd y)) a b.

(** The rows that a lookup over the default years selects. *)
Definition default_rows {regex : RegexEngine} (df : list Row) (entity : Entry)
  : list Row :=
  List.filter
    (fun row => isin (year row) default_years && matches entity row) df.

(** The resolved series has rows. *)
Definition has_cells (serie : DataFrame) : bool :=
  match serie with
  | Column _ _ => true
  | _ => false
  end.

(** The name of a column. *)
Definition column_name (serie : DataFrame) : string :=
  match serie with
  | Column name _ => name
  | _ => ""
  end.

(** A registry whose formula holds no variable. *)
Definition constant_registry : Registry :=
  [("K", [("formula", PStr "1 + 2")])].

(** A registry whose formula refers to its own variable. *)
Definition self_registry : Registry :=
  [("A", [("formula", PStr "A + 1")])].

(** How the reference engine resolves the variables of [xyz_registry] over
    the single year of [table_1999]. *)
Definition resolved_1999 (v : string) : DataFrame * string :=
  match get_or_construct_value 1 table_1999 v (Some xyz_registry) [1999] with
  | Some (Ok r) => r
  | _ => (NoFrame, "")
  end.

(** [drop_registry] without its [drop] keys. *)
Definition kept_registry : Registry :=
  [("X_in", [("code", PStr "D41")]);
   ("Y_in", [("code", PStr "D42")]);
   ("Z_out", [("formula", PStr "X_in - Y_in")])].

(** The variable brings a column to the combined table. *)
Definition brings_column (resolved : string -> DataFrame * string)
  (entry : string * Entry) : bool :=
  negb (dropped (snd entry)) && has_cells (fst (resolved (fst entry))).

(** A registry whose variable is found by its description. *)
Definition pib_registry : Registry :=
  [("PIB", [("institution", PStr "S1"); ("description", PStr "P.B")])].

(** [repeated_year_registry] followed by a variable that refers to the
    undeclared [Q]. *)
Definition failing_registry : Registry :=
  repeated_year_registry ++ [("Z", [("formula", PStr "X + Q")])].

(** * Properties *)

(** ** Strings *)

Lemma append_cons (c : ascii) (a b : string) :
  String c a +:+ b = String c (a +:+ b).
Proof. reflexivity. Qed.

Lemma append_nil (b : string) : EmptyString +:+ b = b.
Proof. reflexivity. Qed.

Lemma prefix_split (p s : string) :
  String.prefix p s = true <-> exists t, s = p +:+ t.
Proof.
  revert s. induction p as [|c p IH]; intros s.
  - split; [intros _; exists s; reflexivity | intros _; destruct s; reflexivity].
  - destruct s as [|d s]; simpl.
    + split; [discriminate | intros [t Ht]; discriminate].
    + destruct (Ascii.ascii_dec c d) as [->|Hne].
      * rewrite IH. split; intros [t Ht]; exists t;
          rewrite append_cons in *; congruence.
      * split; [discriminate | intros [t Ht]; rewrite append_cons in Ht; congruence].
Qed.

(** [contains] decides the substring relation. *)
Lemma contains_spec (pat s : string) :
  contains pat s = true <-> exists a b, s = a +:+ pat +:+ b.
Proof.
  induction s as [|c s IH].
  - change (contains pat "") with (String.prefix pat "" || false).
    rewrite orb_false_r, prefix_split. split.
    + intros [t Ht]. exists EmptyString, t. exact Ht.
    + intros [a [b Hab]]. destruct a; [eauto | discriminate].
  - change (contains pat (String c s))
      with (String.prefix pat (String c s) || contains pat s).
    rewrite orb_true_iff, prefix_split, IH. split.
    + intros [[t Ht] | [a [b Hab]]].
      * exists EmptyString, t. exact Ht.
      * exists (String c a), b. rewrite append_cons. congruence.
    + intros [a [b Hab]]. destruct a as [|d a].
      * left. eauto.
      * right. exists a, b. rewrite append_cons in Hab. congruence.
Qed.

(** ** The row filter *)

Lemma filter_filter_and {A} (f g : A -> bool) (l : list A) :
  List.filter g (List.filter f l) = List.filter (fun x => f x && g x) l.
Proof.
  induction l as [|x l IH]; simpl; [reflexivity|].
  destruct (f x); simpl; [destruct (g x)|]; rewrite IH; reflexivity.
Qed.

Lemma empty_rows_of (df : DataFrame) :
  is_slice df -> empty df = true -> rows_of df = [].
Proof.
  intros [-> | [rows ->]]; simpl; [reflexivity|].
  destruct rows; [reflexivity | discriminate].
Qed.

Lemma select_slice (df : DataFrame) (mask : Row -> bool) :
  is_slice df ->
  is_slice (select df mask) /\
  rows_of (select df mask) = List.filter mask (rows_of df).
Proof.
  intros [-> | [rows ->]]; simpl; split; try reflexivity.
  - left; reflexivity.
  - right; eauto.
Qed.

(** A well-formed constraint never raises; it keeps the rows that match
    it. *)
Lemma look_up_step_matches {regex : RegexEngine}
  (acc : DataFrame) (kv : string * pyval) :
  is_slice acc -> field_wf kv = true ->
  exists acc', look_up_step acc kv = Ok acc' /\ is_slice acc' /\
    rows_of acc' = List.filter (fun r => field_matches r kv) (rows_of acc).
Proof.
  intros Hs Hwf. destruct kv as [key v].
  unfold look_up_step, field_wf, field_matches in *.
  assert (Hid : List.filter (fun _ : Row => true) (rows_of acc) = rows_of acc).
  { clear. induction (rows_of acc); simpl; congruence. }
  destruct (is_none v) eqn:Hn; [eauto|].
  destruct (String.eqb key "drop") eqn:Hd; [eauto|].
  destruct (String.eqb key "description") eqn:Hdesc; simpl in *.
  - destruct (String.eqb key "formula") eqn:Hf.
    { apply String.eqb_eq in Hdesc, Hf. congruence. }
    destruct v as [| | |pat]; try discriminate.
    unfold compiles in Hwf.
    destruct (str_contains pat) as [test|e]; [simpl | discriminate].
    destruct (select_slice acc (description_contains test) Hs) as [H1 H2].
    eauto.
  - destruct (String.eqb key "formula") eqn:Hf; simpl in *.
    + exists NoFrame. split; [reflexivity|]. split; [left; reflexivity|].
      apply String.eqb_eq in Hf. subst key. simpl.
      clear. induction (rows_of acc); simpl; auto.
    + rewrite Hwf.
      destruct (select_slice acc (cell_equals key v) Hs) as [H1 H2].
      destruct (empty (select acc (cell_equals key v))) eqn:He.
      * exists NoFrame. split; [reflexivity|]. split; [left; reflexivity|].
        transitivity (rows_of (select acc (cell_equals key v))); [|exact H2].
        symmetry. apply empty_rows_of; assumption.
      * eauto.
Qed.

Lemma look_up_loop_matches {regex : RegexEngine}
  (entry : Entry) (acc : DataFrame) :
  is_slice acc -> entry_wf entry = true ->
  exists r, look_up_loop entry acc = Ok r /\ is_slice r /\
    rows_of r = List.filter (matches entry) (rows_of acc).
Proof.
  revert acc. induction entry as [|kv entry IH]; intros acc Hs Hwf; simpl.
  - exists acc. repeat split; [assumption|].
    clear. induction (rows_of acc); simpl; congruence.
  - simpl in Hwf. apply andb_true_iff in Hwf as [Hkv Hwf].
    destruct (look_up_step_matches acc kv Hs Hkv) as [acc' [-> [Hs' Hr']]].
    simpl. destruct (IH acc' Hs' Hwf) as [r [-> [Hsr Hr]]].
    exists r. repeat split; [assumption|].
    rewrite Hr, Hr', filter_filter_and. reflexivity.
Qed.

Lemma look_up_well_formed {regex : RegexEngine}
  (df : list Row) (entry : Entry) (years : list Z) :
  entry_wf entry = true ->
  exists r, look_up df entry years = Ok r /\
    rows_of r =
      List.filter (fun row => isin (year row) years && matches entry row) df.
Proof.
  intros Hwf. unfold look_up.
  destruct (look_up_loop_matches entry
              (Table (List.filter (fun r => isin (year r) years) df)))
    as [r [Hr [_ Hrows]]]; [right; eauto | assumption |].
  exists r. split; [assumption|].
  rewrite Hrows. simpl. apply filter_filter_and.
Qed.

(** Equality of cells of the same type is equality of their contents. *)
Lemma py_eq_same_type :
  (forall s t, py_eq (PStr s) (PStr t) = true <-> s = t) /\
  (forall n m, py_eq (PInt n) (PInt m) = true <-> n = m) /\
  (forall x y, py_eq (PBool x) (PBool y) = true <-> x = y).
Proof.
  split; [|split]; intros a b; simpl.
  - apply String.eqb_eq.
  - apply Z.eqb_eq.
  - apply Bool.eqb_true_iff.
Qed.

(** What [field_matches] asks, in words: nothing of a null field or of
    [drop], a successful search of the pattern in the description, an equal
    cell otherwise. *)
Lemma field_matches_spec {regex : RegexEngine}
  (r : Row) (key : string) (v : pyval) :
  field_matches r (key, v) = true <->
  v = PNone \/ key = "drop" \/
  (key = "description" /\
   exists pat test, v = PStr pat /\ str_contains pat = Ok test /\
                    test (description r) = true) \/
  (key <> "description" /\
   exists c, cell r key = Some c /\ py_eq c v = true).
Proof.
  unfold field_matches, cell_equals.
  destruct (is_none v) eqn:Hn; [destruct v; try discriminate; tauto|].
  assert (Hv : v <> PNone) by (intros ->; discriminate).
  destruct (String.eqb key "drop") eqn:Hd;
    [apply String.eqb_eq in Hd; tauto | apply String.eqb_neq in Hd].
  destruct (String.eqb key "description") eqn:Hk;
    [apply String.eqb_eq in Hk | apply String.eqb_neq in Hk].
  - split.
    + destruct v as [| x | n | pat]; try discriminate.
      destruct (str_contains pat) as [test|e] eqn:Hc; [|discriminate].
      intros H. right. right. left.
      split; [assumption|]. exists pat, test. auto.
    + intros [H | [H | [[_ [pat [test [-> [-> H]]]]] | [H _]]]];
        try contradiction.
      exact H.
  - split.
    + destruct (cell r key) as [c|]; [|discriminate].
      intros H. right. right. right. split; [assumption|]. eauto.
    + intros [H | [H | [[H _] | [_ [c [-> H]]]]]]; try contradiction.
      exact H.
Qed.

(** The search of a pattern without special characters is the search of a
    substring: for such a description, a constraint asks of a row what
    [asks] says. *)
Lemma field_matches_plain {regex : RegexEngine}
  (r : Row) (kv : string * pyval) :
  (if String.eqb (fst kv) "description"
   then match snd kv with PStr pat => plain pat | _ => true end
   else true) = true ->
  field_matches r kv = true <-> asks r kv.
Proof.
  destruct kv as [key v]. unfold asks. simpl fst. simpl snd.
  intros Hplain. rewrite field_matches_spec.
  split.
  - intros [H | [H | [[Hk [pat [test [-> [Hc H]]]]] | H]]]; auto.
    right. right. left. split; [assumption|]. exists pat.
    split; [reflexivity|]. apply contains_spec.
    apply String.eqb_eq in Hk. rewrite Hk in Hplain.
    destruct (str_contains_plain pat Hplain) as [test' [Hc' Htest]].
    rewrite Hc in Hc'. injection Hc' as <-. rewrite <- Htest. exact H.
  - intros [H | [H | [[Hk [pat [-> H]]] | H]]]; auto.
    right. right. left. split; [assumption|].
    apply String.eqb_eq in Hk. rewrite Hk in Hplain.
    destruct (str_contains_plain pat Hplain) as [test [Hc Htest]].
    exists pat, test. repeat split; [assumption|].
    rewrite Htest. apply contains_spec. exact H.
Qed.

Lemma matches_plain {regex : RegexEngine} (entry : Entry) (r : Row) :
  plain_descriptions entry = true ->
  matches entry r = true <-> forall kv, In kv entry -> asks r kv.
Proof.
  unfold matches, plain_descriptions. rewrite !forallb_forall.
  intros Hplain. split.
  - intros H kv Hin. apply field_matches_plain; auto.
  - intros H kv Hin. apply field_matches_plain; auto.
Qed.


(** *** Faults and the frame without columns *)

#[local] Arguments field_wf : simpl never.
#[local] Arguments look_up_step : simpl never.

(** Whether a constraint raises does not depend on the rows that are
    left. *)
Lemma look_up_step_fault {regex : RegexEngine}
  (acc : DataFrame) (kv : string * pyval) :
  field_wf kv = false -> look_up_step acc kv = Raise (fault_of kv).
Proof.
  destruct kv as [key v]. unfold field_wf, look_up_step, fault_of. simpl fst.
  destruct (is_none v); [discriminate|].
  destruct (String.eqb key "drop"); [discriminate|].
  destruct (String.eqb key "formula"); [discriminate|]. simpl.
  destruct (String.eqb key "description"); simpl.
  - unfold compiles.
    destruct v as [| | |pat]; simpl; try (intros; reflexivity).
    destruct (str_contains pat); [discriminate | reflexivity].
  - intros ->. reflexivity.
Qed.

Lemma look_up_step_ok {regex : RegexEngine}
  (acc : DataFrame) (kv : string * pyval) :
  field_wf kv = true -> exists acc', look_up_step acc kv = Ok acc'.
Proof.
  destruct kv as [key v]. unfold field_wf, look_up_step.
  destruct (is_none v); [eauto|].
  destruct (String.eqb key "drop"); [eauto|].
  destruct (String.eqb key "formula") eqn:Hf; simpl.
  - destruct (String.eqb key "description") eqn:Hd; simpl; [|eauto].
    apply String.eqb_eq in Hf, Hd. congruence.
  - destruct (String.eqb key "description"); simpl.
    + unfold compiles.
      destruct v as [| | |pat]; simpl; try discriminate.
      destruct (str_contains pat); [simpl; eauto | discriminate].
    + intros ->. destruct (empty _); eauto.
Qed.

Lemma first_fault_none {regex : RegexEngine} (entry : Entry) :
  first_fault entry = None <-> entry_wf entry = true.
Proof.
  induction entry as [|[key v] entry IH]; simpl; [tauto|].
  destruct (field_wf (key, v)); simpl; [exact IH|].
  split; discriminate.
Qed.

Lemma look_up_loop_fault {regex : RegexEngine}
  (entry : Entry) (acc : DataFrame) (e : exn) :
  first_fault entry = Some e -> look_up_loop entry acc = Raise e.
Proof.
  revert acc. induction entry as [|[key v] entry IH]; intros acc; simpl;
    [discriminate|].
  destruct (field_wf (key, v)) eqn:Hwf.
  - intros He. destruct (look_up_step_ok acc (key, v) Hwf) as [acc' ->].
    simpl. apply IH, He.
  - rewrite (look_up_step_fault acc (key, v) Hwf).
    intros [= <-]. reflexivity.
Qed.

(** Once the frame without columns is reached it is kept. *)
Lemma look_up_step_no_frame {regex : RegexEngine}
  (kv : string * pyval) (r : DataFrame) :
  look_up_step NoFrame kv = Ok r -> r = NoFrame.
Proof.
  destruct kv as [key v]. unfold look_up_step, bind.
  repeat match goal with
         | |- context [if ?b then _ else _] => destruct b
         | |- context [match ?x with _ => _ end] => destruct x
         end; simpl; congruence.
Qed.

Lemma look_up_loop_no_frame {regex : RegexEngine}
  (entry : Entry) (r : DataFrame) :
  look_up_loop entry NoFrame = Ok r -> r = NoFrame.
Proof.
  induction entry as [|kv entry IH]; simpl; [congruence|].
  destruct (look_up_step NoFrame kv) as [acc'|e] eqn:Hstep; simpl;
    [|discriminate].
  apply look_up_step_no_frame in Hstep. subst acc'. exact IH.
Qed.

Lemma look_up_loop_after_no_frame {regex : RegexEngine} (entry : Entry) :
  look_up_loop entry NoFrame =
  match first_fault entry with
  | Some e => Raise e
  | None => Ok NoFrame
  end.
Proof.
  destruct (first_fault entry) as [e|] eqn:Hf.
  - apply look_up_loop_fault, Hf.
  - apply first_fault_none in Hf.
    destruct (look_up_loop_matches entry NoFrame) as [r [Hr _]];
      [left; reflexivity | assumption |].
    rewrite Hr. f_equal. apply look_up_loop_no_frame with entry, Hr.
Qed.

Lemma look_up_loop_app {regex : RegexEngine} (a b : Entry) (acc : DataFrame) :
  look_up_loop (a ++ b) acc = (acc' <- look_up_loop a acc ;; look_up_loop b acc').
Proof.
  revert acc. induction a as [|kv a IH]; intros acc; simpl; [reflexivity|].
  destruct (look_up_step acc kv); simpl; [apply IH | reflexivity].
Qed.

Lemma look_up_step_formula {regex : RegexEngine} (acc : DataFrame) (f : pyval) :
  f <> PNone -> look_up_step acc ("formula", f) = Ok NoFrame.
Proof. destruct f; [congruence | reflexivity..]. Qed.

Lemma look_up_loop_formula {regex : RegexEngine}
  (entry : Entry) (acc r : DataFrame) (f : pyval) :
  In ("formula", f) entry -> f <> PNone ->
  look_up_loop entry acc = Ok r -> r = NoFrame.
Proof.
  intros Hin Hf. apply in_split in Hin as [a [b ->]].
  rewrite look_up_loop_app.
  destruct (look_up_loop a acc) as [acc'|e]; simpl; [|discriminate].
  rewrite look_up_step_formula by assumption. simpl.
  apply look_up_loop_no_frame.
Qed.

(** C4 (amended). For every table, constraint set and year range,
    whenever [look_up] returns, it returns exactly the rows of the table,
    in their order, whose year is among the requested years and which match
    every non-null field of the constraint set, [drop] apart: the
    description by a regular-expression search of the given value in the
    description of the row, any other constrained field by equality with
    the cell of the row ([field_matches_spec]). When the descriptions of
    the constraint set hold no special character, the search is substring
    containment: the rows returned are the rows of the table with a
    requested year of which every constraint asks what [asks] says. It
    returns for every well-formed constraint set, whose descriptions
    compile, and only for those. *)
Theorem look_up_returns_exactly_the_matching_rows {regex : RegexEngine}
  (df : list Row) (entry : Entry) (years : list Z) :
  (forall r, look_up df entry years = Ok r ->
     rows_of r =
       List.filter (fun row => isin (year row) years && matches entry row) df
     /\ (plain_descriptions entry = true ->
         forall row, In row (rows_of r) <->
           In row df /\ In (year row) years /\
           forall kv, In kv entry -> asks row kv))
  /\ ((exists r, look_up df entry years = Ok r) <-> entry_wf entry = true).
Proof.
  assert (Hwf : entry_wf entry = true ->
    exists r, look_up df entry years = Ok r /\
      rows_of r =
        List.filter (fun row => isin (year row) years && matches entry row) df)
    by apply look_up_well_formed.
  assert (Hok : forall r, look_up df entry years = Ok r ->
                          entry_wf entry = true).
  { intros r Hr. apply first_fault_none.
    destruct (first_fault entry) as [e|] eqn:Hf; [|reflexivity].
    unfold look_up in Hr. rewrite (look_up_loop_fault _ _ _ Hf) in Hr.
    discriminate. }
  split; [|split].
  - intros r Hr. destruct (Hwf (Hok r Hr)) as [r' [Hr' Hrows]].
    rewrite Hr in Hr'. injection Hr' as <-. split; [exact Hrows|].
    intros Hplain row. rewrite Hrows, filter_In, andb_true_iff.
    rewrite (matches_plain entry row Hplain).
    unfold isin. rewrite existsb_exists.
    split.
    + intros [Hin [[y [Hy Heq]] Hasks]]. apply Z.eqb_eq in Heq. subst y.
      auto.
    + intros [Hin [Hy Hasks]]. repeat split; [assumption | | assumption].
      exists (year row). split; [assumption | apply Z.eqb_refl].
  - intros [r Hr]. exact (Hok r Hr).
  - intros H. destruct (Hwf H) as [r [Hr _]]. eauto.
Qed.

Lemma look_up_returns_exactly_the_matching_rows_witness :
  exists r,
    look_up pib_table
      [("code", PStr "B1g"); ("institution", PNone);
       ("description", PStr "PIB"); ("drop", PBool true)] [1999] = Ok r /\
    rows_of r = [mkRow "B1g" "S1" false 1999 "PIB total" 20] /\
    forall row, In row (rows_of r) <->
      In row pib_table /\ In (year row) [1999] /\
      forall kv,
        In kv [("code", PStr "B1g"); ("institution", PNone);
               ("description", PStr "PIB"); ("drop", PBool true)] ->
        asks row kv.
Proof.
  destruct (look_up_returns_exactly_the_matching_rows pib_table
              [("code", PStr "B1g"); ("institution", PNone);
               ("description", PStr "PIB"); ("drop", PBool true)] [1999])
    as [Hrows [_ Hreturns]].
  destruct (Hreturns eq_refl) as [r Hr]. exists r.
  destruct (Hrows r Hr) as [Hfilter Hasks].
  split; [exact Hr|]. split; [rewrite Hfilter; reflexivity|].
  exact (Hasks eq_refl).
Defined.

(** C4, the claim as stated fails: the pattern [P.B] keeps the row
    described as [PIB total], which does not contain it, and a pattern that
    is no regular expression raises. *)
Lemma description_is_searched_as_a_regular_expression :
  look_up pib_table [("description", PStr "P.B")] [1999] =
    Ok (Table [mkRow "B1g" "S1" false 1999 "P.B aux prix courants" 10;
               mkRow "B1g" "S1" false 1999 "PIB total" 20])
  /\ ~ occurs_in "P.B" "PIB total"
  /\ look_up pib_table [("description", PStr "(")] [1999] = Raise ReError.
Proof.
  split; [reflexivity|]. split; [|reflexivity].
  intros H. apply contains_spec in H. discriminate H.
Qed.

Lemma look_up_with_formula {regex : RegexEngine}
  (df : list Row) (entry : Entry) (years : list Z) (f : pyval) :
  In ("formula", f) entry -> f <> PNone ->
  look_up df entry years =
  match first_fault entry with
  | Some e => Raise e
  | None => Ok NoFrame
  end.
Proof.
  intros Hin Hf. unfold look_up.
  destruct (first_fault entry) as [e|] eqn:Hfault.
  - apply look_up_loop_fault, Hfault.
  - apply first_fault_none in Hfault.
    destruct (look_up_loop_matches entry
                (Table (List.filter (fun r => isin (year r) years) df)))
      as [r [Hr _]]; [right; eauto | assumption |].
    rewrite Hr. f_equal. eapply look_up_loop_formula; eauto.
Qed.

(** C5 (amended). For every table, year range and constraint set that
    holds the key [formula] with a non-null value, [look_up] returns the
    frame without rows nor columns, whatever the other fields ask of the
    rows, unless one of the constraints is ill-formed (an unknown column,
    a description that is no string or does not compile), in which case
    the exception of the first such constraint is raised. *)
Theorem look_up_formula_forces_empty {regex : RegexEngine}
  (df : list Row) (entry : Entry) (years : list Z) (f : pyval) :
  In ("formula", f) entry -> f <> PNone ->
  look_up df entry years =
  match first_fault entry with
  | Some e => Raise e
  | None => Ok NoFrame
  end.
Proof.
  intros Hin Hf. unfold look_up.
  destruct (first_fault entry) as [e|] eqn:Hfault.
  - apply look_up_loop_fault, Hfault.
  - apply first_fault_none in Hfault.
    destruct (look_up_loop_matches entry
                (Table (List.filter (fun r => isin (year r) years) df)))
      as [r [Hr _]]; [right; eauto | assumption |].
    rewrite Hr. f_equal.
    apply in_split in Hin as [before [after ->]].
    rewrite look_up_loop_app in Hr.
    destruct (look_up_loop before _) as [acc|e]; [|discriminate].
    simpl in Hr. rewrite look_up_step_formula in Hr by assumption.
    simpl in Hr. apply look_up_loop_no_frame in Hr. exact Hr.
Qed.

Lemma look_up_formula_forces_empty_witness :
  look_up table_two_years [("code", PStr "D41"); ("formula", PStr "X + Y")]
    [1999; 2000] = Ok NoFrame.
Proof.
  apply (look_up_formula_forces_empty table_two_years
           [("code", PStr "D41"); ("formula", PStr "X + Y")] [1999; 2000]
           (PStr "X + Y")).
  - simpl. right. left. reflexivity.
  - discriminate.
Defined.

(** C5, the claim as stated fails: a null [formula] is skipped like any
    null field, and the rows that match the other fields are returned. *)
Lemma look_up_null_formula_returns_rows :
  look_up table_two_years [("code", PStr "D41"); ("formula", PNone)]
    [1999; 2000] = Ok (Table [row "D41" 1999 10; row "D41" 2000 20]) /\
  empty (Table [row "D41" 1999 10; row "D41" 2000 20]) = false.
Proof. split; reflexivity. Qed.

(** C2 (amended). As soon as a non-null equality constraint leaves no row,
    the result becomes the frame without rows nor columns and stays so, but
    the constraints that follow are still visited: the first ill-formed one
    among them raises its exception, and only when there is none does
    [look_up] return the empty frame. *)
Theorem look_up_visits_constraints_after_empty {regex : RegexEngine}
  (df : list Row) (years : list Z) (before after : Entry)
  (key : string) (v : pyval) (acc : DataFrame) :
  look_up df before years = Ok acc ->
  is_none v = false ->
  String.eqb key "drop" = false ->
  String.eqb key "description" = false ->
  String.eqb key "formula" = false ->
  is_column key = true ->
  empty (select acc (cell_equals key v)) = true ->
  look_up df (before ++ (key, v) :: after) years =
  match first_fault after with
  | Some e => Raise e
  | None => Ok NoFrame
  end.
Proof.
  unfold look_up. intros Hb Hn Hd Hdesc Hf Hc He.
  rewrite look_up_loop_app, Hb. simpl. unfold look_up_step.
  rewrite Hn, Hd, Hdesc, Hf, Hc. simpl. rewrite He. simpl.
  apply look_up_loop_after_no_frame.
Qed.

Lemma look_up_visits_constraints_after_empty_witness :
  look_up table_two_years
    ([("institution", PStr "S1")] ++ ("code", PStr "D43")
       :: [("ressources", PBool false); ("description", PInt 3)])
    [1999; 2000] = Raise TypeError.
Proof.
  apply (look_up_visits_constraints_after_empty table_two_years [1999; 2000]
           [("institution", PStr "S1")]
           [("ressources", PBool false); ("description", PInt 3)]
           "code" (PStr "D43") (Table table_two_years));
    reflexivity.
Defined.

(** C2, the claim as stated fails: the code D43 selects no row, yet the
    constraint that follows is still applied. When it names an unknown
    column it raises instead of being skipped; when it is well formed the
    store shows that it runs: its mask, its copy and its empty frame are
    three objects more. *)
Lemma look_up_does_not_skip_after_empty :
  look_up table_two_years [("code", PStr "D43")] [1999; 2000] = Ok NoFrame /\
  look_up table_two_years [("code", PStr "D43"); ("bogus", PInt 1)]
    [1999; 2000] = Raise (KeyError "bogus") /\
  List.length
    (snd (Heap.look_up 0 [("code", PStr "D43")] [1999; 2000]
            [Table table_two_years])) = 7%nat /\
  List.length
    (snd (Heap.look_up 0 [("code", PStr "D43"); ("institution", PStr "S1")]
            [1999; 2000] [Table table_two_years])) = 10%nat.
Proof. repeat split; reflexivity. Qed.

(** ** The batch filter *)

Lemma isin_In (y : Z) (years : list Z) : isin y years = true <-> In y years.
Proof.
  unfold isin. rewrite existsb_exists. split.
  - intros [x [Hin Heq]]. apply Z.eqb_eq in Heq. congruence.
  - intros Hin. exists y. split; [assumption | apply Z.eqb_refl].
Qed.

Lemma default_years_range (y : Z) :
  isin y default_years = true <-> 1949 <= y <= 2013.
Proof.
  rewrite isin_In. unfold default_years. rewrite in_map_iff. split.
  - intros [n [<- Hn]]. apply in_seq in Hn. lia.
  - intros Hy. exists (Z.to_nat (y - 1949)). split; [lia|].
    apply in_seq. lia.
Qed.

#[local] Arguments default_years : simpl never.

Lemma select_rows_incl (df : DataFrame) (mask : Row -> bool) (r : Row) :
  In r (rows_of (select df mask)) -> In r (rows_of df).
Proof.
  destruct df; simpl; try tauto.
  rewrite filter_In. tauto.
Qed.

Lemma look_up_step_incl {regex : RegexEngine}
  (acc acc' : DataFrame) (kv : string * pyval) (r : Row) :
  look_up_step acc kv = Ok acc' -> In r (rows_of acc') -> In r (rows_of acc).
Proof.
  destruct kv as [key v]. unfold look_up_step, bind.
  repeat match goal with
         | |- context [if ?b then _ else _] => destruct b eqn:?
         | |- context [match ?x with _ => _ end] => destruct x eqn:?
         end; simpl; try discriminate; intros [= <-]; simpl; try tauto;
    apply select_rows_incl.
Qed.

Lemma look_up_loop_incl {regex : RegexEngine}
  (entry : Entry) (acc res : DataFrame) (r : Row) :
  look_up_loop entry acc = Ok res -> In r (rows_of res) -> In r (rows_of acc).
Proof.
  revert acc. induction entry as [|kv entry IH]; intros acc; simpl.
  - intros [= <-]. tauto.
  - destruct (look_up_step acc kv) as [acc'|e] eqn:Hstep; simpl; [|discriminate].
    intros Hloop Hin. eapply look_up_step_incl; eauto.
Qed.

(** Whatever the constraints, a row that [look_up] returns is a row of the
    table within the requested years. *)
Lemma look_up_sound {regex : RegexEngine}
  (df : list Row) (entry : Entry) (years : list Z)
  (res : DataFrame) (r : Row) :
  look_up df entry years = Ok res -> In r (rows_of res) ->
  In r df /\ In (year r) years.
Proof.
  unfold look_up. intros Hloop Hin.
  eapply look_up_loop_incl in Hin; [|exact Hloop].
  simpl in Hin. apply filter_In in Hin as [Hdf Hy].
  split; [assumption | apply isin_In, Hy].
Qed.

Lemma concat_rows_In (a b : DataFrame) (r : Row) :
  In r (rows_of (concat_rows a b)) -> In r (rows_of a) \/ In r (rows_of b).
Proof.
  destruct a, b; simpl; try tauto. apply in_app_or.
Qed.

Lemma dedup_incl (rows : list Row) (r : Row) : In r (dedup rows) -> In r rows.
Proof.
  unfold dedup.
  assert (H : forall acc, In r (fold_left
            (fun acc r => if bool_decide (r ∈ acc) then acc else acc ++ [r])
            rows acc) -> In r acc \/ In r rows).
  { induction rows as [|x rows IH]; intros acc; simpl; [tauto|].
    intros Hin. apply IH in Hin as [Hin | Hin]; [|tauto].
    destruct (bool_decide (x ∈ acc)); [tauto|].
    apply in_app_or in Hin as [Hin | [-> | []]]; tauto. }
  intros Hin. apply H in Hin as [[] | Hin]. exact Hin.
Qed.

Lemma look_many_loop_sound {regex : RegexEngine}
  (df : list Row) (entries : list Entry)
  (out res : DataFrame) (r : Row) :
  look_many_loop df entries out = Ok res -> In r (rows_of res) ->
  In r (rows_of out) \/ (In r df /\ In (year r) default_years).
Proof.
  revert out. induction entries as [|entity rest IH]; intros out;
    cbn [look_many_loop].
  - intros [= <-]. tauto.
  - destruct (look_up df entity default_years) as [inter|e] eqn:Hup;
      cbn [bind]; [|discriminate].
    intros Hloop Hin. destruct (IH _ Hloop Hin) as [Hc | Hd]; [|tauto].
    apply concat_rows_In in Hc as [Ho | Hi]; [tauto|].
    right. eapply look_up_sound; eauto.
Qed.

(** C10. [look_many] takes a table and a list of constraint sets and no
    year range: each lookup runs over the years 1949 to 2013 that [look_up]
    has by default, so every row of its result is a row of the table whose
    year lies between 1949 and 2013. *)
Theorem look_many_keeps_only_default_years {regex : RegexEngine}
  (df : list Row) (entry_by_index_list : list Entry) (res : DataFrame)
  (r : Row) :
  look_many df entry_by_index_list = Ok res ->
  In r (rows_of res) ->
  In r df /\ 1949 <= year r <= 2013.
Proof.
  unfold look_many.
  destruct (look_many_loop df entry_by_index_list NoFrame) as [out|e] eqn:Hloop;
    simpl; [|discriminate].
  intros [= <-] Hin.
  assert (Hout : In r (rows_of out)).
  { destruct out; simpl in *; try tauto. apply dedup_incl, Hin. }
  destruct (look_many_loop_sound _ _ _ _ _ Hloop Hout) as [[] | [Hdf Hy]].
  split; [assumption|]. apply default_years_range, isin_In, Hy.
Qed.

Lemma look_many_keeps_only_default_years_witness :
  In (row "D41" 2000 20) (table_two_years ++ [row "D41" 2014 3]) /\
  1949 <= year (row "D41" 2000 20) <= 2013.
Proof.
  apply (look_many_keeps_only_default_years
           (table_two_years ++ [row "D41" 2014 3])
           [[("code", PStr "D41")]; [("code", PStr "D41"); ("year", PInt 2000)]]
           (Table [row "D41" 1999 10; row "D41" 2000 20])).
  - vm_compute. reflexivity.
  - simpl. right. left. reflexivity.
Defined.

(** A row of 2014 that matches the constraints is left out. *)
Example look_many_drops_2014 :
  look_many (table_two_years ++ [row "D41" 2014 3]) [[("code", PStr "D41")]]
  = Ok (Table [row "D41" 1999 10; row "D41" 2000 20]).
Proof. vm_compute. reflexivity. Qed.

(** ** The resolver *)

Lemma dict_get_In (key : string) (d : Entry) (v : pyval) :
  dict_get key d = v -> v <> PNone -> In (key, v) d.
Proof.
  induction d as [|[k w] d IH]; simpl; [congruence|].
  destruct (String.eqb k key) eqn:Hk.
  - apply String.eqb_eq in Hk. intros -> _. left. congruence.
  - intros Hv Hn. right. apply IH; assumption.
Qed.

Lemma registry_get_absent (name : string) (registry : Registry) :
  ~ In name (List.map fst registry) ->
  registry_get name registry = Raise (KeyError name).
Proof.
  induction registry as [|[k d] registry IH]; simpl; [reflexivity|].
  intros Hnot. destruct (String.eqb k name) eqn:Hk.
  - apply String.eqb_eq in Hk. tauto.
  - apply IH. tauto.
Qed.

Lemma registry_get_In (name : string) (registry : Registry) (d : Entry) :
  List.NoDup (List.map fst registry) -> In (name, d) registry ->
  registry_get name registry = Ok d.
Proof.
  induction registry as [|[k e] registry IH]; simpl; [tauto|].
  intros Hnd [Heq | Hin].
  - injection Heq as -> ->. rewrite String.eqb_refl. reflexivity.
  - apply List.NoDup_cons_iff in Hnd as [Hk Hnd].
    destruct (String.eqb k name) eqn:Hkn.
    + apply String.eqb_eq in Hkn. subst k. exfalso. apply Hk.
      apply in_map_iff. exists (name, d). auto.
    + apply IH; assumption.
Qed.

Section ResolverFacts.
Context {regex : RegexEngine} {engine : FormulaEngine}.

Implicit Types rec : string -> option (result (DataFrame * string)).

Lemma resolve_components_mono rec1 rec2 formula variables st r :
  refines rec1 rec2 ->
  resolve_components rec1 formula variables st = Some r ->
  resolve_components rec2 formula variables st = Some r.
Proof.
  intros Href. revert st.
  induction variables as [|c rest IH]; intros st; simpl; [tauto|].
  destruct (rec1 c) as [[[vv vf]|e]|] eqn:Hc; [| |discriminate].
  - rewrite (Href _ _ Hc). apply IH.
  - rewrite (Href _ _ Hc). tauto.
Qed.

Lemma resolve_body_mono rec1 rec2 df name registry years r :
  refines rec1 rec2 ->
  resolve_body rec1 df name registry years = Some r ->
  resolve_body rec2 df name registry years = Some r.
Proof.
  intros Href. unfold resolve_body.
  destruct (registry_get name registry) as [variable|e]; [|tauto].
  destruct (look_up df variable years) as [entry_df|e]; [|tauto].
  destruct (negb (empty entry_df)); [tauto|].
  destruct (negb (truthy (dict_get "formula" variable)) && empty entry_df);
    [tauto|].
  destruct (dict_get "formula" variable) as [| | |formula]; try tauto.
  destruct (parse_variables formula) as [variables|e]; [|tauto].
  destruct (resolve_components rec1 formula variables no_locals)
    as [[st|e]|] eqn:Hrc; [| |discriminate];
    rewrite (resolve_components_mono _ _ _ _ _ _ Href Hrc); tauto.
Qed.

(** An answer does not change when fuel is added. *)
Lemma get_or_construct_value_mono (n m : nat) df name registry years r :
  (n <= m)%nat ->
  get_or_construct_value n df name registry years = Some r ->
  get_or_construct_value m df name registry years = Some r.
Proof.
  revert m name registry r. induction n as [|n IH]; intros m name registry r;
    [discriminate|].
  destruct m as [|m]; [lia|]. intros Hle. simpl.
  apply resolve_body_mono. intros c rc. apply IH. lia.
Qed.
End ResolverFacts.

Section DirectVariables.
Context {regex : RegexEngine} {engine : FormulaEngine}.

(** The direct-hit case: the series holds the value of every row that the
    filter returns, under its year, in the order of the table. *)
Lemma direct_hit_returns_rows (fuel : nat) df name registry definition years rows :
  registry_get name registry = Ok definition ->
  look_up df definition years = Ok (Table rows) ->
  rows <> [] ->
  get_or_construct_value (S fuel) df name (Some registry) years =
  Some (Ok (Column name (List.map (fun r => (year r, value r)) rows), name)).
Proof.
  intros Hget Hup Hrows. simpl. unfold resolve_body. rewrite Hget, Hup.
  destruct rows; [congruence | reflexivity].
Qed.

(** C3 (amended). For every direct variable whose filter, restricted to
    the requested years, yields two rows of the same year with different
    values, [get_or_construct_value] raises nothing: it returns the series
    that holds the value of every matching row under its year, so both
    values stand in it under that year, and the name of the variable as
    formula. *)
Theorem ambiguous_match_is_returned
  (fuel : nat) df name registry definition years rows (r1 r2 : Row) :
  registry_get name registry = Ok definition ->
  look_up df definition years = Ok (Table rows) ->
  In r1 rows -> In r2 rows ->
  year r1 = year r2 -> value r1 <> value r2 ->
  exists cells,
    get_or_construct_value (S fuel) df name (Some registry) years =
      Some (Ok (Column name cells, name)) /\
    cells = List.map (fun r => (year r, value r)) rows /\
    In (year r1, value r1) cells /\ In (year r1, value r2) cells.
Proof.
  intros Hget Hup H1 H2 Hy Hv.
  exists (List.map (fun r => (year r, value r)) rows).
  split; [|split; [reflexivity|split]].
  - apply direct_hit_returns_rows with definition; [assumption..|].
    destruct rows; [destruct H1 | discriminate].
  - apply in_map_iff. exists r1. auto.
  - apply in_map_iff. exists r2. rewrite Hy. auto.
Qed.

(** C6 (amended). Called without a registry, [get_or_construct_value]
    resolves the variable with the definition [{code: variable_name}];
    when moreover no row of the table within the requested years has the
    name as code, it returns the frame without columns and the empty
    formula, and raises nothing. *)
Theorem absent_registry_looks_up_by_code
  (fuel : nat) df name years :
  get_or_construct_value fuel df name None years =
    get_or_construct_value fuel df name
      (Some [(name, [("code", PStr name)])]) years /\
  ((forall r, In r df -> In (year r) years -> code r <> name) ->
   get_or_construct_value (S fuel) df name None years =
     Some (Ok (NoFrame, ""))).
Proof.
  split; [destruct fuel; reflexivity|].
  intros Hnone. simpl. unfold resolve_body. simpl.
  rewrite String.eqb_refl. unfold look_up. simpl.
  unfold look_up_step. simpl.
  assert (Hf : List.filter (cell_equals "code" (PStr name))
                 (List.filter (fun r => isin (year r) years) df) = []).
  { rewrite filter_filter_and.
    induction df as [|r df IH]; simpl; [reflexivity|].
    destruct (isin (year r) years) eqn:Hy; simpl.
    - unfold cell_equals at 1. simpl.
      destruct (String.eqb (code r) name) eqn:Hc.
      + apply String.eqb_eq in Hc. apply isin_In in Hy.
        exfalso. apply (Hnone r); simpl; auto.
      + apply IH. intros r' Hin. apply Hnone. simpl. auto.
    - apply IH. intros r' Hin. apply Hnone. simpl. auto. }
  rewrite Hf. reflexivity.
Qed.
End DirectVariables.

Lemma ambiguous_match_is_returned_witness :
  exists cells,
    get_or_construct_value 1 ambiguous_table "X" (Some xyz_registry) [1999] =
      Some (Ok (Column "X" cells, "X")) /\
    cells = [(1999, 10); (1999, 20)] /\
    In (1999, 10) cells /\ In (1999, 20) cells.
Proof.
  apply (ambiguous_match_is_returned 0 ambiguous_table "X" xyz_registry
           [("code", PStr "D41")] [1999] ambiguous_table
           (mkRow "D41" "S1" false 1999 "" 10)
           (mkRow "D41" "S2" false 1999 "" 20)).
  - reflexivity.
  - reflexivity.
  - left. reflexivity.
  - right. left. reflexivity.
  - reflexivity.
  - discriminate.
Defined.

(** C3, the claim as stated fails: the code D41 has two rows for 1999 with
    the values 10 and 20, and the resolver returns a series with both
    instead of raising. *)
Lemma ambiguous_match_raises_nothing :
  get_or_construct_value 1 ambiguous_table "X" (Some xyz_registry) [1999] =
  Some (Ok (Column "X" [(1999, 10); (1999, 20)], "X")).
Proof. reflexivity. Qed.

Lemma absent_registry_looks_up_by_code_witness :
  get_or_construct_value 1 table_two_years "Q" None [1999; 2000] =
  Some (Ok (NoFrame, "")).
Proof.
  apply (absent_registry_looks_up_by_code 0 table_two_years "Q" [1999; 2000]).
  intros r Hin _. simpl in Hin.
  destruct Hin as [<- | [<- | [<- | [<- | []]]]]; discriminate.
Defined.

(** C6, the claim as stated fails: an empty registry is not replaced by the
    trivial definition, and a variable that is in neither the registry nor
    the table raises [KeyError]. *)
Lemma empty_registry_raises_key_error :
  get_or_construct_value 1 table_two_years "Q" (Some []) [1999; 2000] =
    Some (Raise (KeyError "Q")) /\
  get_or_construct_value 1 table_two_years "Q" (Some xyz_registry)
    [1999; 2000] = Some (Raise (KeyError "Q")).
Proof. split; reflexivity. Qed.

Section DerivedVariables.
Context {regex : RegexEngine} {engine : FormulaEngine}.

Implicit Types rec : string -> option (result (DataFrame * string)).

Lemma resolve_components_app rec formula pre post st :
  resolve_components rec formula (pre ++ post) st =
  match resolve_components rec formula pre st with
  | Some (Ok st') => resolve_components rec formula post st'
  | other => other
  end.
Proof.
  revert st. induction pre as [|c pre IH]; intros st; simpl; [reflexivity|].
  destruct (rec c) as [[[vv vf]|e]|]; [apply IH | reflexivity..].
Qed.

(** The loop gives up at the first component that does not resolve. *)
Lemma resolve_components_stops rec formula variables st c :
  In c variables -> (forall r, rec c <> Some (Ok r)) ->
  forall st', resolve_components rec formula variables st <> Some (Ok st').
Proof.
  intros Hin Hc. revert st.
  induction variables as [|d rest IH]; intros st st'; simpl; [destruct Hin|].
  destruct (rec d) as [[[vv vf]|e]|] eqn:Hd; [|discriminate..].
  destruct Hin as [-> | Hin]; [exfalso; eapply Hc, Hd | apply IH, Hin].
Qed.

Lemma resolve_components_reach rec formula pre c post st e :
  (forall p, In p pre -> exists r, rec p = Some (Ok r)) ->
  rec c = Some (Raise e) ->
  resolve_components rec formula (pre ++ c :: post) st = Some (Raise e).
Proof.
  intros Hpre Hc. revert st.
  induction pre as [|p pre IH]; intros st; simpl.
  - rewrite Hc. reflexivity.
  - destruct (Hpre p) as [[vv vf] ->]; [left; reflexivity|].
    apply IH. intros q Hq. apply Hpre. right. exact Hq.
Qed.

(** The substitutions do not add up: every turn of the loop starts again
    from the formula of the registry, so the expanded formula is the
    formula with its last component alone replaced. *)
Lemma resolve_components_last rec formula pre c st st' vv vf :
  rec c = Some (Ok (vv, vf)) ->
  resolve_components rec formula (pre ++ [c]) st = Some (Ok st') ->
  final_formula st' = Some (replace formula c ("(" +:+ vf +:+ ")")).
Proof.
  intros Hc. rewrite resolve_components_app.
  destruct (resolve_components rec formula pre st) as [[st1|e]|];
    [|discriminate..].
  simpl. rewrite Hc. intros [= <-]. reflexivity.
Qed.

(** Hence the formula that a derived variable returns: the formula of
    the registry in which the last component alone is replaced by its
    parenthesized formula. *)
Lemma derived_formula_replaces_last_component
  (fuel : nat) df registry years name definition formula pre c
  serie f vv vf :
  registry_get name registry = Ok definition ->
  dict_get "formula" definition = PStr formula ->
  formula <> "" ->
  parse_variables formula = Ok (pre ++ [c]) ->
  get_or_construct_value fuel df c (Some registry) years
    = Some (Ok (vv, vf)) ->
  get_or_construct_value (S fuel) df name (Some registry) years
    = Some (Ok (serie, f)) ->
  f = replace formula c ("(" +:+ vf +:+ ")").
Proof.
  intros Hget Hformula Hne Hparse Hc. simpl. unfold resolve_body.
  rewrite Hget.
  assert (Hin : In ("formula", PStr formula) definition)
    by (apply dict_get_In; [assumption | discriminate]).
  rewrite (look_up_with_formula _ _ _ _ Hin) by discriminate.
  destruct (first_fault definition); [discriminate|]. simpl.
  rewrite Hformula. simpl.
  destruct (String.eqb formula "") eqn:He;
    [apply String.eqb_eq in He; contradiction|]. simpl.
  rewrite Hparse.
  destruct (resolve_components _ formula (pre ++ [c]) no_locals)
    as [[st|e]|] eqn:Hrc; [|discriminate..].
  apply resolve_components_last with (vv := vv) (vf := vf) in Hrc;
    [|exact Hc].
  unfold evaluate. rewrite Hrc.
  destruct (print_lengths (pre ++ [c]) (dico_value st)); [|discriminate].
  simpl. destruct (py_eval _ _); [|discriminate]. simpl.
  destruct (local "index" (index st)); [|discriminate]. simpl.
  destruct (make_frame name _ _); [|discriminate]. simpl.
  intros [= _ <-]. reflexivity.
Qed.

(** Variables that resolve one by one resolve together with a common
    fuel. *)
Lemma common_fuel df registry years (names : list string) :
  (forall p, In p names -> exists n r,
      get_or_construct_value n df p (Some registry) years = Some (Ok r)) ->
  exists n, forall p, In p names -> exists r,
      get_or_construct_value n df p (Some registry) years = Some (Ok r).
Proof.
  induction names as [|q names IH]; intros H.
  - exists 0%nat. intros p [].
  - destruct IH as [n Hn]; [intros p Hp; apply H; right; exact Hp|].
    destruct (H q) as [m [r Hr]]; [left; reflexivity|].
    exists (Nat.max n m). intros p [<- | Hp].
    + exists r. eapply get_or_construct_value_mono; [|exact Hr]. lia.
    + destruct (Hn p Hp) as [r' Hr']. exists r'.
      eapply get_or_construct_value_mono; [|exact Hr']. lia.
Qed.

(** C7. For every registry in which the formula of a variable references
    a name [c] that is no key of the registry, resolving the variable
    never returns a result, whatever the fuel; and once the components
    listed before [c] resolve, so that the resolution reaches [c], it
    raises the [KeyError] of the registry lookup of [c], which is the
    unresolved-reference failure of the code. *)
Theorem undeclared_reference_raises
  df registry years name definition formula pre c post :
  registry_get name registry = Ok definition ->
  dict_get "formula" definition = PStr formula ->
  formula <> "" ->
  parse_variables formula = Ok (pre ++ c :: post) ->
  ~ In c (List.map fst registry) ->
  (forall fuel r,
      get_or_construct_value fuel df name (Some registry) years
      <> Some (Ok r)) /\
  (first_fault definition = None ->
   (forall p, In p pre -> exists n r,
       get_or_construct_value n df p (Some registry) years = Some (Ok r)) ->
   exists n0, forall n, (n0 <= n)%nat ->
     get_or_construct_value n df name (Some registry) years =
     Some (Raise (KeyError c))).
Proof.
  intros Hget Hformula Hne Hparse Habsent.
  assert (Hin : In ("formula", PStr formula) definition)
    by (apply dict_get_In; [assumption | discriminate]).
  assert (Htruthy : truthy (PStr formula) = true).
  { simpl. destruct (String.eqb formula "") eqn:He; [|reflexivity].
    apply String.eqb_eq in He. contradiction. }
  assert (Hc : forall n,
    get_or_construct_value (S n) df c (Some registry) years =
    Some (Raise (KeyError c))).
  { intros n. simpl. unfold resolve_body.
    rewrite (registry_get_absent c registry Habsent). reflexivity. }
  split.
  - intros [|fuel] r; [discriminate|]. simpl. unfold resolve_body.
    rewrite Hget.
    destruct (look_up df definition years) as [entry_df|e] eqn:Hup;
      [|discriminate].
    rewrite (look_up_with_formula _ _ _ _ Hin) in Hup
      by discriminate.
    destruct (first_fault definition); [discriminate|].
    injection Hup as <-. rewrite Hformula, Htruthy, Hparse. simpl.
    destruct (resolve_components _ formula (pre ++ c :: post) no_locals)
      as [[st|e]|] eqn:Hrc; [|discriminate..].
    exfalso. eapply resolve_components_stops; [| |exact Hrc].
    + apply in_or_app. right. left. reflexivity.
    + intros r'. destruct fuel; [discriminate|]. rewrite Hc. discriminate.
  - intros Hwf Hpre. destruct (common_fuel _ _ _ _ Hpre) as [n0 Hn0].
    exists (S (S n0)). intros [|n] Hle; [lia|]. simpl. unfold resolve_body.
    rewrite Hget, (look_up_with_formula _ _ _ _ Hin), Hwf
      by discriminate.
    rewrite Hformula, Htruthy, Hparse. simpl.
    erewrite resolve_components_reach; [reflexivity| |].
    + intros p Hp. destruct (Hn0 p Hp) as [r Hr]. exists r.
      eapply get_or_construct_value_mono; [|exact Hr]. lia.
    + destruct n; [lia|]. apply Hc.
Qed.
End DerivedVariables.

Lemma undeclared_reference_raises_witness :
  (forall fuel r,
      get_or_construct_value fuel table_two_years "Z" (Some q_registry)
        [1999; 2000] <> Some (Ok r)) /\
  exists n0, forall n, (n0 <= n)%nat ->
    get_or_construct_value n table_two_years "Z" (Some q_registry)
      [1999; 2000] = Some (Raise (KeyError "Q")).
Proof.
  destruct (undeclared_reference_raises table_two_years q_registry
              [1999; 2000] "Z" [("formula", PStr "X + Q")] "X + Q"
              ["X"] "Q" [] eq_refl eq_refl) as [Hnever Hraise].
  - discriminate.
  - reflexivity.
  - simpl. intros [H | [H | []]]; discriminate.
  - split; [exact Hnever|]. apply Hraise; [reflexivity|].
    intros p [<- | []]. exists 1%nat. eexists. reflexivity.
Defined.

Example undeclared_reference_key_error :
  get_or_construct_value 2 table_two_years "Z" (Some q_registry) [1999; 2000]
  = Some (Raise (KeyError "Q")).
Proof. vm_compute. reflexivity. Qed.

(** C1. On the registry {X: D41, Y: D42, Z: X + Y} the expanded formula of
    Z should be (X) + (Y). The code replaces X, then replaces Y in the
    formula of the registry again, so over two years it returns X + (Y)
    with the sums 15 and 27; over the single year 1999 of the example every
    component is squeezed to a scalar array, whose length cannot be taken,
    and the resolution raises [TypeError]. *)
Theorem expanded_formula_keeps_last_substitution_only :
  get_or_construct_value 2 table_two_years "Z" (Some xyz_registry)
    [1999; 2000]
  = Some (Ok (Column "Z" [(1999, 15); (2000, 27)], "X + (Y)")) /\
  get_or_construct_value 2 table_1999 "Z" (Some xyz_registry) [1999]
  = Some (Raise TypeError).
Proof. split; vm_compute; reflexivity. Qed.

(** ** The batch resolver *)

(** *** Columns side by side *)

Lemma same_index_spec (a b : DataFrame) :
  same_index a b = true <-> index_of a = index_of b.
Proof. unfold same_index. apply bool_decide_eq_true. Qed.

Lemma all_same_index_spec (columns : list DataFrame) :
  all_same_index columns = true <->
  forall a b, In a columns -> In b columns -> index_of a = index_of b.
Proof.
  destruct columns as [|first rest]; simpl; [split; [intros _ a b []|auto]|].
  rewrite forallb_forall. split.
  - intros H a b Ha Hb.
    assert (Hfirst : forall x, first = x \/ In x rest ->
                               index_of x = index_of first).
    { intros x [<- | Hx]; [reflexivity|]. apply same_index_spec, H, Hx. }
    rewrite (Hfirst a Ha), (Hfirst b Hb). reflexivity.
  - intros H x Hx. apply same_index_spec. apply H; [right | left]; auto.
Qed.

(** The test of [concat_columns] is the test that the columns, the new one
    included, can stand side by side. *)
Lemma alignable_snoc (table : list DataFrame) (serie : DataFrame) :
  forallb (fun column => same_index column serie) table
  || forallb unique_index (serie :: table)
  = alignable (table ++ [serie]).
Proof.
  unfold alignable. f_equal.
  - apply eq_true_iff_eq. rewrite forallb_forall, all_same_index_spec. split.
    + intros H a b Ha Hb.
      assert (Hserie : forall x, In x (table ++ [serie]) ->
                                 index_of x = index_of serie).
      { intros x Hx. apply in_app_iff in Hx as [Hx | [<- | []]];
          [apply same_index_spec, H, Hx | reflexivity]. }
      rewrite (Hserie a Ha), (Hserie b Hb). reflexivity.
    + intros H x Hx. apply same_index_spec.
      apply H; apply in_app_iff; [left | right; left]; auto.
  - rewrite forallb_app. simpl. rewrite andb_true_r. apply andb_comm.
Qed.

Lemma alignable_prefix (a b : list DataFrame) :
  alignable (a ++ b) = true -> alignable a = true.
Proof.
  unfold alignable. rewrite !orb_true_iff, forallb_app, andb_true_iff.
  rewrite !all_same_index_spec.
  intros [H | [H _]]; [left | right; exact H].
  intros x y Hx Hy. apply H; apply in_app_iff; left; assumption.
Qed.

Lemma concat_columns_spec (table : list DataFrame) (serie : DataFrame) :
  serie <> NoFrame ->
  concat_columns table serie =
  if alignable (table ++ [serie]) then Ok (table ++ [serie])
  else Raise InvalidIndexError.
Proof.
  intros Hserie. rewrite <- alignable_snoc. unfold concat_columns.
  destruct serie; [congruence | | |];
    (destruct table as [|first rest]; [reflexivity|]); lazy beta iota;
    (destruct (forallb (fun column => same_index column _) (first :: rest));
     [reflexivity|]);
    rewrite orb_false_l;
    (destruct (forallb unique_index (_ :: first :: rest)); reflexivity).
Qed.

(** The concatenations of a batch return when the series can stand side by
    side, and raise otherwise. *)
Lemma concat_all_spec (series table : list DataFrame) :
  (forall serie, In serie series -> serie <> NoFrame) ->
  alignable table = true ->
  concat_all table series =
  if alignable (table ++ series) then Ok (table ++ series)
  else Raise InvalidIndexError.
Proof.
  revert table. induction series as [|serie rest IH]; intros table Hs Ht;
    simpl.
  - rewrite app_nil_r, Ht. reflexivity.
  - rewrite concat_columns_spec by (apply Hs; left; reflexivity).
    destruct (alignable (table ++ [serie])) eqn:Hstep; simpl.
    + rewrite IH; [|intros; apply Hs; right; assumption | assumption].
      rewrite <- app_assoc. reflexivity.
    + destruct (alignable (table ++ serie :: rest)) eqn:Hall; [|reflexivity].
      change (serie :: rest) with ([serie] ++ rest) in Hall.
      rewrite app_assoc in Hall. apply alignable_prefix in Hall. congruence.
Qed.

Lemma series_columns_frames (serie : DataFrame) (column : DataFrame) :
  In column (series_columns serie) -> column <> NoFrame.
Proof.
  destruct serie; simpl; [intros [] | ..]; intros [<- | []]; discriminate.
Qed.

Lemma concat_all_series (table : list DataFrame) (serie : DataFrame)
  (rest : list DataFrame) :
  concat_all table (series_columns serie ++ rest) =
  (table' <- concat_columns table serie ;; concat_all table' rest).
Proof. destruct serie; reflexivity. Qed.

Section Batch.
Context {regex : RegexEngine} {engine : FormulaEngine}.
Variables (fuel : nat) (df : list Row) (registry : Registry) (years : list Z).
Variable resolved : string -> DataFrame * string.

(** Once its variables resolve, the loop of the batch is the
    concatenation of their series and the record of their formulas. *)
Lemma data_loop_resolved (todo : list string) columns formulas :
  (forall v, In v todo ->
     get_or_construct_value fuel df v (Some registry) years =
     Some (Ok (resolved v))) ->
  (forall v, In v todo -> exists d, registry_get v registry = Ok d) ->
  data_loop fuel df registry years todo (columns, formulas) =
  match concat_all columns (flat_map (columns_of registry resolved) todo) with
  | Ok table =>
      Some (Ok (table,
                fold_left (record_formula registry resolved) todo formulas))
  | Raise e => Some (Raise e)
  end.
Proof.
  revert columns formulas.
  induction todo as [|v todo IH]; intros columns formulas Hres Hdef;
    [reflexivity|].
  cbn [data_loop flat_map fold_left].
  unfold data_step. rewrite (Hres v) by (left; reflexivity).
  destruct (resolved v) as [vv vf] eqn:Hv.
  destruct (Hdef v) as [d Hd]; [left; reflexivity|].
  unfold columns_of at 1, record_formula at 2. rewrite Hd, Hv.
  unfold combined_columns, dropped, has_formula. cbn [fst snd].
  rewrite Hv. cbn [fst snd].
  destruct (truthy (dict_get "drop" d)); cbn [negb].
  - rewrite IH by (intros; (apply Hres || apply Hdef); right; assumption).
    reflexivity.
  - rewrite concat_all_series.
    destruct (concat_columns columns vv) as [table|e]; [|reflexivity].
    cbn [bind].
    rewrite IH by (intros; (apply Hres || apply Hdef); right; assumption).
    reflexivity.
Qed.

Lemma data_loop_needs_all (todo : list string) acc out :
  data_loop fuel df registry years todo acc = Some (Ok out) ->
  forall v, In v todo -> exists r,
    get_or_construct_value fuel df v (Some registry) years = Some (Ok r).
Proof.
  revert acc. induction todo as [|w todo IH]; intros acc; simpl;
    [intros _ v []|].
  destruct (data_step fuel df registry years acc w) as [[acc'|e]|] eqn:Hs;
    [|discriminate..].
  intros Hloop v [<- | Hin]; [|eapply IH; eauto].
  unfold data_step in Hs. destruct acc as [columns formulas].
  destruct (get_or_construct_value fuel df w (Some registry) years)
    as [[r|e]|]; [eauto | discriminate..].
Qed.

Lemma columns_of_frames (todo : list string) (column : DataFrame) :
  In column (flat_map (columns_of registry resolved) todo) ->
  column <> NoFrame.
Proof.
  intros H. apply in_flat_map in H as [v [_ H]].
  unfold columns_of, combined_columns in H.
  destruct (registry_get v registry); [|destruct H].
  destruct (dropped _); [destruct H|].
  eapply series_columns_frames, H.
Qed.

(** A recorded formula is the formula of a variable that carries one. *)
Lemma record_formula_origin (todo : list string) formulas k f :
  fold_left (record_formula registry resolved) todo formulas !! k = Some f ->
  formulas !! k = Some f \/
  exists v d, In v todo /\ registry_get v registry = Ok d /\
    has_formula d = true /\ k = readable v /\ f = snd (resolved v).
Proof.
  revert formulas. induction todo as [|v todo IH]; intros formulas; simpl;
    [tauto|].
  intros H. apply IH in H as [H | [w [d [Hw H]]]].
  - unfold record_formula in H.
    destruct (registry_get v registry) as [d|e] eqn:Hd; [|tauto].
    destruct (has_formula d) eqn:Hf; [|tauto].
    destruct (decide (readable v = k)) as [<- | Hne].
    + rewrite lookup_insert_eq in H. injection H as <-.
      right. exists v, d. auto.
    + rewrite lookup_insert_ne in H by assumption. tauto.
  - right. exists w, d. tauto.
Qed.

(** A recorded formula stays as long as no variable with a formula bears
    the same readable name. *)
Lemma record_formula_keeps (todo : list string) formulas k f :
  (forall w e, In w todo -> registry_get w registry = Ok e ->
     has_formula e = true -> readable w <> k) ->
  formulas !! k = Some f ->
  fold_left (record_formula registry resolved) todo formulas !! k = Some f.
Proof.
  revert formulas. induction todo as [|w todo IH]; intros formulas Hother H;
    simpl; [exact H|].
  apply IH; [intros; eapply Hother; eauto; right; assumption|].
  unfold record_formula.
  destruct (registry_get w registry) as [e|] eqn:He; [|exact H].
  destruct (has_formula e) eqn:Hfe; [|exact H].
  rewrite lookup_insert_ne; [exact H|].
  eapply Hother; eauto. left. reflexivity.
Qed.

(** The formula found under a readable name is the formula of the last
    variable with a formula that bears it. *)
Lemma record_formula_last (before after : list string) formulas v d :
  registry_get v registry = Ok d -> has_formula d = true ->
  (forall w e, In w after -> registry_get w registry = Ok e ->
     has_formula e = true -> readable w <> readable v) ->
  fold_left (record_formula registry resolved) (before ++ v :: after) formulas
    !! readable v
  = Some (snd (resolved v)).
Proof.
  intros Hd Hf Hafter. rewrite fold_left_app. cbn [fold_left].
  apply record_formula_keeps; [exact Hafter|].
  unfold record_formula. rewrite Hd, Hf. apply lookup_insert_eq.
Qed.

Lemma flat_map_keys (f : string -> list DataFrame)
  (g : string * Entry -> list DataFrame) (l : Registry) :
  (forall x, In x l -> f (fst x) = g x) ->
  flat_map f (List.map fst l) = flat_map g l.
Proof.
  induction l as [|x l IH]; simpl; [reflexivity|]. intros H.
  rewrite (H x) by (left; reflexivity). f_equal. apply IH.
  intros y Hy. apply H. right. exact Hy.
Qed.

(** C8 (amended). For every registry and year range,
    [get_or_construct_data] resolves every variable of the registry,
    dropped or not, and returns only if they all resolve. Once they do,
    it returns exactly when the series that it keeps can stand side by
    side, that is when they all bear the same index or none of them
    repeats a year; otherwise the concatenation raises
    [InvalidIndexError]. The combined table then holds, in the order of
    the registry, the column of every variable whose definition carries
    no true [drop] and whose series has a column (a variable resolved as
    absent brings none), each with its cells under their year;
    [formulas] maps the name, with underscores replaced by spaces, of
    every variable whose definition carries a formula to the formula that
    its resolution returned, the variable listed last winning when two of
    them bear the same readable name, and holds nothing else. *)
Theorem batch_resolution :
  List.NoDup (List.map fst registry) ->
  ((forall v, In v (List.map fst registry) ->
      get_or_construct_value fuel df v (Some registry) years =
      Some (Ok (resolved v))) ->
   (alignable (flat_map (combined_columns resolved) registry) = true ->
    exists formulas,
      get_or_construct_data fuel df registry years =
        Some (Ok (flat_map (combined_columns resolved) registry, formulas)) /\
      (forall before v d after,
         registry = before ++ (v, d) :: after -> has_formula d = true ->
         (forall w e, In (w, e) after -> has_formula e = true ->
            readable w <> readable v) ->
         formulas !! readable v = Some (snd (resolved v))) /\
      (forall k f, formulas !! k = Some f ->
         exists v d, In (v, d) registry /\ has_formula d = true /\
           k = readable v /\ f = snd (resolved v))) /\
   (alignable (flat_map (combined_columns resolved) registry) = false ->
    get_or_construct_data fuel df registry years =
      Some (Raise InvalidIndexError))) /\
  (forall out,
      get_or_construct_data fuel df registry years = Some (Ok out) ->
      forall v, In v (List.map fst registry) -> exists r,
        get_or_construct_value fuel df v (Some registry) years =
        Some (Ok r)).
Proof.
  intros Hnd.
  assert (Hkeys : forall v, In v (List.map fst registry) ->
                    exists d, In (v, d) registry /\
                              registry_get v registry = Ok d).
  { intros v Hv. apply in_map_iff in Hv as [[w d] [<- Hin]].
    exists d. split; [assumption | apply registry_get_In; assumption]. }
  assert (Hin_get : forall v d, In (v, d) registry ->
                      registry_get v registry = Ok d)
    by (intros; apply registry_get_In; assumption).
  assert (Hcolumns : flat_map (columns_of registry resolved)
                       (List.map fst registry) =
                     flat_map (combined_columns resolved) registry).
  { apply flat_map_keys. intros [v d] Hin. unfold columns_of. simpl.
    rewrite (Hin_get v d Hin). reflexivity. }
  split; [|intros out Hout; eapply data_loop_needs_all; exact Hout].
  intros Hres.
  assert (Hdata : get_or_construct_data fuel df registry years =
            if alignable (flat_map (combined_columns resolved) registry)
            then Some (Ok (flat_map (combined_columns resolved) registry,
                           fold_left (record_formula registry resolved)
                             (List.map fst registry) ∅))
            else Some (Raise InvalidIndexError)).
  { unfold get_or_construct_data.
    rewrite data_loop_resolved;
      [|assumption
       |intros v Hv; destruct (Hkeys v Hv) as [d [_ Hd]]; eauto].
    rewrite concat_all_spec; [|apply columns_of_frames | reflexivity].
    rewrite app_nil_l, Hcolumns.
    destruct (alignable _); reflexivity. }
  split; [|intros Hno; rewrite Hdata, Hno; reflexivity].
  intros Hyes. rewrite Hyes in Hdata.
  exists (fold_left (record_formula registry resolved) (List.map fst registry) ∅).
  split; [exact Hdata|]. split.
  - intros before v d after Hreg Hf Hafter.
    assert (Hd : registry_get v registry = Ok d).
    { apply Hin_get. rewrite Hreg. apply in_app_iff. right. left.
      reflexivity. }
    assert (Hmap : List.map fst registry =
                   List.map fst before ++ v :: List.map fst after).
    { rewrite Hreg, List.map_app. reflexivity. }
    rewrite Hmap. apply record_formula_last with d; [assumption..|].
    intros w e Hw He Hfe. apply in_map_iff in Hw as [[w' e'] [<- Hin']].
    simpl in *. apply (Hafter w' e'); [assumption|].
    assert (He' : registry_get w' registry = Ok e').
    { apply Hin_get. rewrite Hreg. apply in_app_iff. right. right.
      assumption. }
    rewrite He in He'. injection He' as <-. exact Hfe.
  - intros k f Hk. apply record_formula_origin in Hk as [Hk | Hk].
    + rewrite lookup_empty in Hk. discriminate.
    + destruct Hk as [v [d [Hv [Hd [Hf [-> ->]]]]]].
      destruct (Hkeys v Hv) as [d' [Hin Hd']].
      rewrite Hd in Hd'. injection Hd' as <-. exists v, d. auto.
Qed.
End Batch.

Lemma batch_resolution_witness :
  exists formulas,
    get_or_construct_data 2 table_two_years mixed_registry [1999; 2000] =
      Some (Ok ([Column "Y_in" [(1999, 5); (2000, 7)];
                 Column "Z_out" [(1999, 5); (2000, 13)]], formulas)) /\
    formulas !! "Z out" = Some "X_in - (Y_in)".
Proof.
  destruct (batch_resolution 2 table_two_years mixed_registry [1999; 2000]
              mixed_resolved) as [Hok _].
  - repeat constructor; simpl; intros H;
      repeat (destruct H as [H | H]; [discriminate|]); destruct H.
  - destruct Hok as [Hreturns _].
    + intros v [<- | [<- | [<- | []]]]; vm_compute; reflexivity.
    + destruct (Hreturns eq_refl) as [formulas [Hdata [Hlookup _]]].
      exists formulas. split; [exact Hdata|].
      apply (Hlookup
               [("X_in", [("code", PStr "D41"); ("drop", PBool true)]);
                ("Y_in", [("code", PStr "D42")])]
               "Z_out" [("formula", PStr "X_in - Y_in")] []).
      * reflexivity.
      * reflexivity.
      * intros w e [].
Defined.

(** C8, the claim as stated fails: X carries no [drop] but the table has
    no row for its code, so the combined table gets no column for X. *)
Lemma absent_variable_has_no_column :
  dropped [("code", PStr "D43")] = false /\
  get_or_construct_data 1 table_two_years absent_registry [1999; 2000] =
  Some (Ok ([], ∅)).
Proof. split; vm_compute; reflexivity. Qed.

(** Y has one row for 1999 and X two: both resolve, and the concatenation
    of the series of X raises. *)
Example repeated_year_breaks_the_batch :
  get_or_construct_value 1 ambiguous_table "Y" (Some repeated_year_registry)
    [1999] = Some (Ok (Column "Y" [(1999, 10)], "Y")) /\
  get_or_construct_value 1 ambiguous_table "X" (Some repeated_year_registry)
    [1999] = Some (Ok (Column "X" [(1999, 10); (1999, 20)], "X")) /\
  get_or_construct_data 1 ambiguous_table repeated_year_registry [1999] =
    Some (Raise InvalidIndexError).
Proof. repeat split; vm_compute; reflexivity. Qed.

(** ** The store: what a call leaves unchanged *)

Section HeapFrame.
Context {regex : RegexEngine}.

Lemma extends_ret {A} (a : A) : Heap.extends (Heap.ret a).
Proof. intros h. reflexivity. Qed.

Lemma extends_raise {A} (e : exn) : Heap.extends (@Heap.raise A e).
Proof. intros h. reflexivity. Qed.

Lemma extends_out_of_fuel {A} : Heap.extends (@Heap.out_of_fuel A).
Proof. intros h. reflexivity. Qed.

Lemma extends_lift {A} (r : result A) : Heap.extends (Heap.lift r).
Proof. destruct r; [apply extends_ret | apply extends_raise]. Qed.

Lemma extends_alloc (f : DataFrame) : Heap.extends (Heap.alloc f).
Proof. intros h. unfold Heap.final, Heap.alloc. simpl. apply prefix_app_r. reflexivity. Qed.

Lemma extends_read (r : Heap.ref) : Heap.extends (Heap.read r).
Proof. intros h. unfold Heap.final, Heap.read. destruct (h !! r); reflexivity. Qed.

Lemma extends_bind {A B} (m : Heap.M A) (k : A -> Heap.M B) :
  Heap.extends m -> (forall a, Heap.extends (k a)) -> Heap.extends (Heap.bind m k).
Proof.
  intros Hm Hk h. specialize (Hm h). unfold Heap.final, Heap.bind in *.
  destruct (m h) as [[[a|e]|] h1]; simpl in *; try assumption.
  etransitivity; [exact Hm | apply Hk].
Qed.

(** An update of an object allocated since keeps the store that was
    there before. *)
Lemma prefix_insert_new (h h1 : Heap.store) (r : Heap.ref) (f : DataFrame) :
  h `prefix_of` h1 -> (List.length h <= r)%nat -> h `prefix_of` <[r := f]> h1.
Proof.
  intros [k ->] Hr. rewrite insert_app_r_alt by exact Hr.
  apply prefix_app_r. reflexivity.
Qed.

Create HintDb heap.
#[local] Hint Resolve extends_ret extends_raise extends_out_of_fuel
  extends_lift extends_alloc extends_read : heap.

Ltac extends_steps :=
  repeat first
    [ apply extends_bind; [|intros ?]
    | solve [auto with heap]
    | match goal with
      | |- Heap.extends (if ?b then _ else _) => destruct b
      | |- Heap.extends (match ?x with _ => _ end) => destruct x
      end ].

Lemma extends_copy (df : Heap.ref) : Heap.extends (Heap.copy df).
Proof. unfold Heap.copy. extends_steps. Qed.

Lemma extends_new_frame : Heap.extends Heap.new_frame.
Proof. apply extends_alloc. Qed.

Lemma extends_column (df : Heap.ref) (key : string) : Heap.extends (Heap.column df key).
Proof. unfold Heap.column. extends_steps. Qed.

Lemma extends_getitem_mask (r : Heap.ref) (mask : Row -> bool) :
  Heap.extends (Heap.getitem_mask r mask).
Proof. unfold Heap.getitem_mask. extends_steps. Qed.

Lemma extends_is_empty (r : Heap.ref) : Heap.extends (Heap.is_empty r).
Proof. unfold Heap.is_empty. extends_steps. Qed.

Lemma extends_set_index (r : Heap.ref) : Heap.extends (Heap.set_index r).
Proof. unfold Heap.set_index. extends_steps. Qed.

Lemma extends_getitem_value (r : Heap.ref) : Heap.extends (Heap.getitem_value r).
Proof. unfold Heap.getitem_value. extends_steps. Qed.

#[local] Hint Resolve extends_copy extends_new_frame extends_column
  extends_getitem_mask extends_is_empty extends_set_index
  extends_getitem_value : heap.

Lemma extends_look_up_step df acc kv : Heap.extends (Heap.look_up_step df acc kv).
Proof. destruct kv as [key v]. unfold Heap.look_up_step. extends_steps. Qed.

Lemma extends_look_up_loop df entry acc :
  Heap.extends (Heap.look_up_loop df entry acc).
Proof.
  revert acc. induction entry as [|kv entry IH]; intros acc; simpl.
  - apply extends_ret.
  - apply extends_bind; [apply extends_look_up_step | intros a; apply IH].
Qed.

Lemma extends_look_up df entry years : Heap.extends (Heap.look_up df entry years).
Proof.
  unfold Heap.look_up.
  repeat (apply extends_bind; [auto with heap | intros ?]).
  apply extends_look_up_loop.
Qed.

(** *** Runs *)

Lemma run_bind {A B} (m : Heap.M A) (k : A -> Heap.M B) (h : Heap.store) :
  Heap.bind m k h =
  match m h with
  | (Some (Ok a), h') => k a h'
  | (Some (Raise e), h') => (Some (Raise e), h')
  | (None, h') => (None, h')
  end.
Proof. reflexivity. Qed.

Lemma run_bind_ok {A B} (m : Heap.M A) (k : A -> Heap.M B) (h h' : Heap.store) (a : A) :
  m h = (Some (Ok a), h') -> Heap.bind m k h = k a h'.
Proof. intros H. rewrite run_bind, H. reflexivity. Qed.

Lemma run_bind_raise {A B} (m : Heap.M A) (k : A -> Heap.M B) (h h' : Heap.store) e :
  m h = (Some (Raise e), h') -> Heap.bind m k h = (Some (Raise e), h').
Proof. intros H. rewrite run_bind, H. reflexivity. Qed.

Lemma run_alloc (h : Heap.store) (f : DataFrame) :
  Heap.alloc f h = (Some (Ok (List.length h)), h ++ [f]).
Proof. reflexivity. Qed.

Lemma run_read (h : Heap.store) (r : Heap.ref) (f : DataFrame) :
  h !! r = Some f -> Heap.read r h = (Some (Ok f), h).
Proof. intros H. unfold Heap.read. rewrite H. reflexivity. Qed.

Lemma run_read_none {A} (h : Heap.store) (r : Heap.ref) (k : DataFrame -> Heap.M A) :
  h !! r = None ->
  Heap.bind (Heap.read r) k h = (Some (Raise (Exception "no such object")), h).
Proof. intros H. unfold Heap.bind, Heap.read. rewrite H. reflexivity. Qed.

Lemma run_copy (h : Heap.store) (r : Heap.ref) (f : DataFrame) :
  h !! r = Some f -> Heap.copy r h = (Some (Ok (List.length h)), h ++ [f]).
Proof.
  intros H. unfold Heap.copy. rewrite (run_bind_ok _ _ _ _ _ (run_read _ _ _ H)).
  reflexivity.
Qed.

Lemma run_getitem_mask (h : Heap.store) (r : Heap.ref) (f : DataFrame) mask :
  h !! r = Some f ->
  Heap.getitem_mask r mask h = (Some (Ok (List.length h)), h ++ [select f mask]).
Proof.
  intros H. unfold Heap.getitem_mask.
  rewrite (run_bind_ok _ _ _ _ _ (run_read _ _ _ H)). reflexivity.
Qed.

Lemma run_column (h : Heap.store) (df : Heap.ref) (f : DataFrame) (key : string) :
  h !! df = Some f ->
  Heap.column df key h =
  (Some (if Heap.has_column f key then Ok tt else Raise (KeyError key)), h).
Proof.
  intros H. unfold Heap.column.
  rewrite (run_bind_ok _ _ _ _ _ (run_read _ _ _ H)).
  destruct (Heap.has_column f key); reflexivity.
Qed.

Lemma run_is_empty (h : Heap.store) (r : Heap.ref) (f : DataFrame) :
  h !! r = Some f -> Heap.is_empty r h = (Some (Ok (empty f)), h).
Proof.
  intros H. unfold Heap.is_empty.
  rewrite (run_bind_ok _ _ _ _ _ (run_read _ _ _ H)). reflexivity.
Qed.

Lemma run_lift {A} (r : result A) (h : Heap.store) : Heap.lift r h = (Some r, h).
Proof. destruct r; reflexivity. Qed.

Lemma lookup_new (h : Heap.store) (f : DataFrame) :
  (h ++ [f]) !! List.length h = Some f.
Proof. apply list_lookup_middle. reflexivity. Qed.

Lemma lookup_old (h : Heap.store) (f g : DataFrame) (r : Heap.ref) :
  h !! r = Some f -> (h ++ [g]) !! r = Some f.
Proof. apply lookup_app_l_Some. Qed.

#[local] Hint Resolve lookup_new lookup_old : heap.

(** The one update in place, [serie.columns = [name]], is made on the
    copy that the line before has just allocated. *)
Lemma extends_rename_copy (selected : Heap.ref) (name : string) :
  Heap.extends (Heap.rename_copy selected name).
Proof.
  intros h. unfold Heap.final, Heap.rename_copy.
  destruct (h !! selected) as [f|] eqn:Hs;
    [|unfold Heap.copy at 1; rewrite run_bind, (run_read_none _ _ _ Hs);
      reflexivity].
  rewrite (run_bind_ok _ _ _ _ _ (run_copy _ _ _ Hs)).
  rewrite (run_bind_ok _ _ _ _ _ (run_read _ _ _ (lookup_new h f))).
  destruct (Nat.eqb (columns_count f) 1);
    [|apply prefix_app_r; reflexivity].
  rewrite (run_bind_ok _ _ (h ++ [f]) (h ++ [f]) tt eq_refl).
  rewrite run_bind. unfold Heap.set_columns.
  rewrite (run_bind_ok _ _ _ _ _ (run_read _ _ _ (lookup_new h f))).
  rewrite run_bind, run_lift.
  destruct (rename_column f name) as [f'|e]; cbn [snd Heap.write Heap.ret].
  - apply prefix_insert_new; [apply prefix_app_r; reflexivity | lia].
  - apply prefix_app_r. reflexivity.
Qed.

Section ResolverFrame.
Context {engine : FormulaEngine}.

Lemma extends_resolve_components rec formula variables st :
  (forall c, Heap.extends (rec c)) ->
  Heap.extends (Heap.resolve_components rec formula variables st).
Proof.
  intros Hrec. revert st.
  induction variables as [|c rest IH]; intros st; simpl.
  - apply extends_ret.
  - apply extends_bind; [apply Hrec|]. intros [vv vf].
    apply extends_bind; [apply extends_read|]. intros serie. apply IH.
Qed.

Lemma extends_resolve_body rec df name registry years :
  (forall c, Heap.extends (rec c)) ->
  Heap.extends (Heap.resolve_body rec df name registry years).
Proof.
  intros Hrec. unfold Heap.resolve_body.
  apply extends_bind; [apply extends_lift|]. intros variable.
  apply extends_bind; [apply extends_look_up|]. intros entry_df.
  apply extends_bind; [apply extends_is_empty|]. intros e.
  destruct (negb e).
  - unfold Heap.direct_hit.
    apply extends_bind; [apply extends_set_index|]. intros entry_df'.
    apply extends_bind; [apply extends_getitem_value|]. intros selected.
    apply extends_rename_copy.
  - destruct (negb (truthy (dict_get "formula" variable)) && e).
    + apply extends_bind; [apply extends_new_frame|]. intros serie.
      apply extends_ret.
    + destruct (dict_get "formula" variable); try apply extends_raise.
      apply extends_bind; [apply extends_lift|]. intros variables.
      apply extends_bind;
        [apply extends_resolve_components, Hrec|]. intros st.
      apply extends_bind; [apply extends_lift|]. intros answer.
      apply extends_bind; [apply extends_alloc|]. intros serie.
      apply extends_ret.
Qed.

Lemma extends_get_or_construct_value fuel df name registry years :
  Heap.extends (Heap.get_or_construct_value fuel df name registry years).
Proof.
  revert df name registry.
  induction fuel as [|fuel IH]; intros df name registry; simpl.
  - apply extends_out_of_fuel.
  - apply extends_bind; [apply extends_copy|]. intros df'.
    apply extends_resolve_body. intros c. apply IH.
Qed.
End ResolverFrame.

(** *** The store model computes what the model on values computes *)

Lemma prefix_snoc (h h' : Heap.store) (f : DataFrame) :
  h `prefix_of` h' -> h `prefix_of` h' ++ [f].
Proof. apply prefix_app_r. Qed.

#[local] Hint Resolve prefix_snoc : heap.
#[local] Hint Extern 1 (_ `prefix_of` _) => reflexivity : heap.

Lemma look_up_step_stands_for (h : Heap.store) (df acc : Heap.ref) rows facc kv :
  h !! df = Some (Table rows) -> h !! acc = Some facc ->
  Heap.filter_stands_for h acc (Heap.look_up_step df acc kv h)
    (look_up_step facc kv).
Proof.
  intros Hdf Hacc. destruct kv as [key v].
  assert (Hlt : (acc < List.length h)%nat)
    by (eapply lookup_lt_Some; exact Hacc).
  unfold Heap.look_up_step, look_up_step, Heap.filter_stands_for.
  destruct (is_none v); [simpl; eauto 6 with heap|].
  destruct (String.eqb key "drop"); [simpl; eauto 6 with heap|].
  destruct (String.eqb key "description") eqn:Hdesc; simpl.
  - apply String.eqb_eq in Hdesc. subst key. simpl.
    rewrite run_bind, (run_column _ _ _ _ Hdf). simpl.
    destruct v as [| | |pat]; simpl; try (split; [reflexivity | reflexivity]).
    rewrite run_bind, run_lift.
    destruct (str_contains pat) as [test|e]; simpl;
      [|split; reflexivity].
    rewrite (run_bind_ok _ _ _ _ _ (run_getitem_mask _ _ _ _ Hacc)).
    rewrite (run_copy _ _ _ (lookup_new _ _)). simpl.
    split; [auto with heap|]. eexists. split; [reflexivity|].
    split; [apply lookup_new|]. rewrite length_app. simpl. lia.
  - destruct (String.eqb key "formula"); simpl.
    + unfold Heap.new_frame, Heap.alloc. simpl. split; [auto with heap|].
      eexists. split; [reflexivity|]. split; [apply lookup_new | lia].
    + rewrite run_bind, (run_column _ _ _ _ Hdf). simpl.
      destruct (is_column key); [|split; reflexivity].
      rewrite (run_bind_ok _ _ _ _ _ (run_getitem_mask _ _ _ _ Hacc)).
      rewrite (run_bind_ok _ _ _ _ _ (run_copy _ _ _ (lookup_new _ _))).
      rewrite (run_bind_ok _ _ _ _ _ (run_is_empty _ _ _ (lookup_new _ _))).
      destruct (empty (select facc (cell_equals key v))); simpl.
      * split; [auto with heap|]. eexists. split; [reflexivity|].
        split; [apply lookup_new|]. rewrite !length_app. simpl. lia.
      * split; [auto with heap|]. eexists. split; [reflexivity|].
        split; [apply lookup_new|]. rewrite length_app. simpl. lia.
Qed.

Lemma look_up_loop_stands_for (entry : Entry) (h : Heap.store) (df acc : Heap.ref)
  rows facc :
  h !! df = Some (Table rows) -> h !! acc = Some facc ->
  Heap.filter_stands_for h acc (Heap.look_up_loop df entry acc h)
    (look_up_loop entry facc).
Proof.
  revert h acc facc.
  induction entry as [|kv entry IH]; intros h acc facc Hdf Hacc; simpl.
  - split; [reflexivity|]. exists acc. auto.
  - destruct (look_up_step_stands_for h df acc rows facc kv Hdf Hacc)
      as [Hext Hstep].
    rewrite run_bind.
    destruct (Heap.look_up_step df acc kv h) as [o h1]. simpl in *.
    destruct (look_up_step facc kv) as [f1|e]; simpl.
    + destruct Hstep as [acc1 [-> [Hacc1 Hle]]].
      destruct (IH h1 acc1 f1) as [Hext' Hloop];
        [eapply prefix_lookup_Some; eauto | assumption |].
      split; [etransitivity; eassumption|].
      destruct (look_up_loop entry f1); [|assumption].
      destruct Hloop as [r [Hr [Hf Hle']]]. exists r.
      split; [assumption|]. split; [assumption | lia].
    + rewrite Hstep. split; [assumption | reflexivity].
Qed.

(** On a store that holds the table under [df], the filter of the store
    model returns a new frame that is the frame of the model on
    values. *)
Lemma look_up_stands_for (h : Heap.store) (df : Heap.ref) rows entry years :
  h !! df = Some (Table rows) ->
  Heap.filter_stands_for h (List.length h) (Heap.look_up df entry years h)
    (look_up rows entry years).
Proof.
  intros Hdf. unfold Heap.look_up, look_up.
  rewrite (run_bind_ok _ _ _ _ _ (run_copy _ _ _ Hdf)).
  rewrite run_bind, (run_column _ _ _ _ (lookup_old _ _ _ _ Hdf)). simpl.
  rewrite (run_bind_ok _ _ _ _ _ (run_getitem_mask _ _ _ _ (lookup_new _ _))).
  rewrite (run_bind_ok _ _ _ _ _ (run_copy _ _ _ (lookup_new _ _))).
  simpl select.
  match goal with
  | |- Heap.filter_stands_for _ _ (Heap.look_up_loop _ _ ?acc ?h1) _ =>
      destruct (look_up_loop_stands_for entry h1 df acc rows
                  (Table (List.filter (fun r => isin (year r) years) rows)))
        as [Hext Hloop]
  end.
  - auto with heap.
  - apply lookup_new.
  - split.
    + etransitivity; [|exact Hext]. auto 6 with heap.
    + destruct (look_up_loop entry _); [|assumption].
      destruct Hloop as [r [Hr [Hf Hle]]]. exists r.
      split; [assumption|]. split; [assumption|].
      rewrite !length_app in Hle. simpl in Hle. lia.
Qed.

Lemma run_set_index (h : Heap.store) (r : Heap.ref) (f : DataFrame) :
  h !! r = Some f ->
  Heap.set_index r h =
  match set_index_year f with
  | Ok f' => (Some (Ok (List.length h)), h ++ [f'])
  | Raise e => (Some (Raise e), h)
  end.
Proof.
  intros H. unfold Heap.set_index.
  rewrite (run_bind_ok _ _ _ _ _ (run_read _ _ _ H)), run_bind, run_lift.
  destruct (set_index_year f); reflexivity.
Qed.

Lemma run_getitem_value (h : Heap.store) (r : Heap.ref) (f : DataFrame) :
  h !! r = Some f ->
  Heap.getitem_value r h =
  match value_column f with
  | Ok f' => (Some (Ok (List.length h)), h ++ [f'])
  | Raise e => (Some (Raise e), h)
  end.
Proof.
  intros H. unfold Heap.getitem_value.
  rewrite (run_bind_ok _ _ _ _ _ (run_read _ _ _ H)), run_bind, run_lift.
  destruct (value_column f); reflexivity.
Qed.

Lemma run_rename_copy (h : Heap.store) (r : Heap.ref) (f : DataFrame) name :
  h !! r = Some f ->
  Heap.rename_copy r name h =
  if Nat.eqb (columns_count f) 1 then
    match rename_column f name with
    | Ok f' => (Some (Ok (List.length h, name)), h ++ [f'])
    | Raise e => (Some (Raise e), h ++ [f])
    end
  else (Some (Raise AssertionError), h ++ [f]).
Proof.
  intros H. unfold Heap.rename_copy.
  rewrite (run_bind_ok _ _ _ _ _ (run_copy _ _ _ H)).
  rewrite (run_bind_ok _ _ _ _ _ (run_read _ _ _ (lookup_new h f))).
  destruct (Nat.eqb (columns_count f) 1); [|reflexivity].
  rewrite (run_bind_ok _ _ (h ++ [f]) (h ++ [f]) tt eq_refl).
  rewrite run_bind. unfold Heap.set_columns.
  rewrite (run_bind_ok _ _ _ _ _ (run_read _ _ _ (lookup_new h f))).
  rewrite run_bind, run_lift.
  destruct (rename_column f name) as [f'|e]; [|reflexivity].
  unfold Heap.write, Heap.ret. do 2 f_equal.
  rewrite insert_app_r_alt by lia. rewrite Nat.sub_diag. reflexivity.
Qed.

(** The direct-hit case of the store model builds the series of the
    model on values in a new object. *)
Lemma direct_hit_stands_for (h : Heap.store) (r : Heap.ref) (f : DataFrame)
  (name : string) :
  h !! r = Some f ->
  Heap.stands_for h (Heap.direct_hit r name h) (Some (direct_hit f name)).
Proof.
  intros H. unfold Heap.direct_hit, direct_hit, Heap.stands_for.
  rewrite run_bind, (run_set_index _ _ _ H).
  destruct (set_index_year f) as [f1|e]; simpl; [|split; reflexivity].
  rewrite run_bind, (run_getitem_value _ _ _ (lookup_new h f1)).
  destruct (value_column f1) as [f2|e]; simpl;
    [|split; [auto with heap | reflexivity]].
  rewrite (run_rename_copy _ _ _ _ (lookup_new (h ++ [f1]) f2)).
  destruct (Nat.eqb (columns_count f2) 1); simpl;
    [|split; [auto with heap | reflexivity]].
  destruct (rename_column f2 name) as [f3|e]; simpl;
    [|split; [auto with heap | reflexivity]].
  split; [auto with heap|]. eexists. split; [reflexivity|].
  split; [apply lookup_new|]. rewrite !length_app. simpl. lia.
Qed.

Section ResolverRefinement.
Context {engine : FormulaEngine}.
Variables (df : Heap.ref) (rows : list Row).
Variable rec_st : string -> Heap.M (Heap.ref * string).
Variable rec : string -> option (result (DataFrame * string)).

Hypothesis rec_stands_for : forall c h,
  h !! df = Some (Table rows) -> Heap.stands_for h (rec_st c h) (rec c).

Lemma resolve_components_stands_for formula variables st (h : Heap.store) :
  h !! df = Some (Table rows) ->
  h `prefix_of` snd (Heap.resolve_components rec_st formula variables st h)
  /\ fst (Heap.resolve_components rec_st formula variables st h)
     = resolve_components rec formula variables st.
Proof.
  revert st h. induction variables as [|c rest IH]; intros st h Hdf; simpl.
  - split; reflexivity.
  - destruct (rec_stands_for c h Hdf) as [Hext Hrec].
    rewrite run_bind.
    destruct (rec_st c h) as [o h1]. simpl in *.
    destruct (rec c) as [[[f vf]|e]|].
    + destruct Hrec as [r [-> [Hr _]]].
      rewrite (run_bind_ok _ _ _ _ _ (run_read _ _ _ Hr)).
      destruct (IH (mkLocals
                  (Some (replace formula c ("(" +:+ vf +:+ ")")))
                  (<[c := values_squeeze f]> (dico_value st))
                  (Some (index_of f))) h1) as [Hext' Heq];
        [eapply prefix_lookup_Some; eauto|].
      split; [etransitivity; eassumption | exact Heq].
    + rewrite Hrec. split; [assumption | reflexivity].
    + rewrite Hrec. split; [assumption | reflexivity].
Qed.

Lemma resolve_body_stands_for name registry years (h : Heap.store) :
  h !! df = Some (Table rows) ->
  Heap.stands_for h (Heap.resolve_body rec_st df name registry years h)
    (resolve_body rec rows name registry years).
Proof.
  intros Hdf. unfold Heap.resolve_body, resolve_body, Heap.stands_for.
  rewrite run_bind, run_lift.
  destruct (registry_get name registry) as [variable|e];
    [|split; reflexivity].
  destruct (look_up_stands_for h df rows variable years Hdf)
    as [Hext Hup].
  rewrite run_bind.
  destruct (Heap.look_up df variable years h) as [o h1]. simpl in *.
  destruct (look_up rows variable years) as [entry_df|e];
    [|rewrite Hup; split; [assumption | reflexivity]].
  destruct Hup as [r [-> [Hr Hle]]].
  rewrite (run_bind_ok _ _ _ _ _ (run_is_empty _ _ _ Hr)).
  assert (Hdf1 : h1 !! df = Some (Table rows))
    by (eapply prefix_lookup_Some; eauto).
  assert (Hlen : (List.length h <= List.length h1)%nat)
    by (apply prefix_length; assumption).
  destruct (negb (empty entry_df)).
  { destruct (direct_hit_stands_for h1 r entry_df name Hr)
      as [Hext' Hhit].
    split; [etransitivity; eassumption|].
    destruct (direct_hit entry_df name) as [[f s]|e]; [|assumption].
    destruct Hhit as [r' [Hr' [Hf Hle']]]. exists r'.
    split; [assumption|]. split; [assumption | lia]. }
  destruct (negb (truthy (dict_get "formula" variable)) && empty entry_df).
  { unfold Heap.new_frame.
    rewrite (run_bind_ok _ _ _ _ _ (run_alloc _ _)). unfold Heap.ret. simpl.
    split; [auto with heap|]. eexists. split; [reflexivity|].
    split; [apply lookup_new | lia]. }
  destruct (dict_get "formula" variable) as [| | |formula];
    try (split; [assumption | reflexivity]).
  rewrite run_bind, run_lift.
  destruct (parse_variables formula) as [variables|e];
    [|split; [assumption | reflexivity]].
  destruct (resolve_components_stands_for formula variables no_locals
              h1 Hdf1) as [Hext' Heq].
  rewrite run_bind.
  destruct (Heap.resolve_components rec_st formula variables no_locals h1)
    as [o h2]. simpl in *. subst o.
  assert (Hext2 : h `prefix_of` h2) by (etransitivity; eassumption).
  assert (Hlen2 : (List.length h <= List.length h2)%nat)
    by (apply prefix_length; assumption).
  destruct (resolve_components rec formula variables no_locals)
    as [[st|e]|]; try (split; [assumption | reflexivity]).
  rewrite run_bind, run_lift.
  destruct (evaluate name formula variables st) as [[f s]|e];
    [|split; [assumption | reflexivity]].
  rewrite (run_bind_ok _ _ _ _ _ (run_alloc _ _)). unfold Heap.ret. simpl.
  split; [auto with heap|].
  eexists. split; [reflexivity|]. split; [apply lookup_new | lia].
Qed.
End ResolverRefinement.

(** On a store that holds the table under [df], the resolver of the store
    model returns what the resolver on values returns, in a new object,
    and runs out of fuel when it does. *)
Lemma get_or_construct_value_stands_for {engine : FormulaEngine}
  (fuel : nat) (h : Heap.store) (df : Heap.ref) rows name registry years :
  h !! df = Some (Table rows) ->
  Heap.stands_for h
    (Heap.get_or_construct_value fuel df name registry years h)
    (get_or_construct_value fuel rows name registry years).
Proof.
  revert h df name registry.
  induction fuel as [|fuel IH]; intros h df name registry Hdf; simpl.
  - split; reflexivity.
  - rewrite (run_bind_ok _ _ _ _ _ (run_copy _ _ _ Hdf)).
    match goal with
    | |- Heap.stands_for _ (Heap.resolve_body ?rs _ _ ?reg _ _)
           (resolve_body ?r _ _ _ _) =>
        destruct (resolve_body_stands_for (List.length h) rows rs r
                    (fun c h' Hh' => IH h' (List.length h) c (Some reg) Hh')
                    name reg years (h ++ [Table rows]) (lookup_new _ _))
          as [Hext Hbody]
    end.
    split; [etransitivity; [|exact Hext]; auto with heap|].
    destruct (resolve_body _ rows name _ years) as [[[f s]|e]|];
      try assumption.
    destruct Hbody as [r [Hr [Hf Hle]]]. exists r.
    split; [assumption|]. split; [assumption|].
    rewrite length_app in Hle. simpl in Hle. lia.
Qed.

(** C9. For every call of [look_up] and of [get_or_construct_value] on a
    store that holds the caller's table under [df], every object of the
    store, the table itself among them, is the same after the call,
    whether the call returns, raises or runs out of fuel: the calls work
    on copies, and the single update in place is made on a copy allocated
    by the call. A call that returns gives a reference to a new object,
    never to the caller's table. *)
Theorem caller_table_is_left_unchanged {engine : FormulaEngine}
  (h : Heap.store) (df : Heap.ref) (rows : list Row) :
  h !! df = Some (Table rows) ->
  (forall entry years,
      let run := Heap.look_up df entry years h in
      snd run !! df = Some (Table rows) /\
      (forall r f, h !! r = Some f -> snd run !! r = Some f) /\
      (forall r, fst run = Some (Ok r) -> (List.length h <= r)%nat)) /\
  (forall fuel name registry years,
      let run :=
        Heap.get_or_construct_value fuel df name registry years h in
      snd run !! df = Some (Table rows) /\
      (forall r f, h !! r = Some f -> snd run !! r = Some f) /\
      (forall r s, fst run = Some (Ok (r, s)) -> (List.length h <= r)%nat)).
Proof.
  intros Hdf. split.
  - intros entry years run.
    assert (Hext : h `prefix_of` snd run)
      by apply (extends_look_up df entry years h).
    split; [eapply prefix_lookup_Some; eauto|].
    split; [intros r f Hr; eapply prefix_lookup_Some; eauto|].
    intros r Hrun.
    destruct (look_up_stands_for h df rows entry years Hdf) as [_ Hpure].
    fold run in Hpure. rewrite Hrun in Hpure.
    destruct (look_up rows entry years); [|discriminate].
    destruct Hpure as [r' [[= <-] [_ Hle]]]. exact Hle.
  - intros fuel name registry years run.
    assert (Hext : h `prefix_of` snd run)
      by apply (extends_get_or_construct_value fuel df name registry years h).
    split; [eapply prefix_lookup_Some; eauto|].
    split; [intros r f Hr; eapply prefix_lookup_Some; eauto|].
    intros r s Hrun.
    destruct (get_or_construct_value_stands_for fuel h df rows name
                registry years Hdf) as [_ Hpure].
    fold run in Hpure. rewrite Hrun in Hpure.
    destruct (get_or_construct_value fuel rows name registry years)
      as [[[f s']|e]|]; [|discriminate..].
    destruct Hpure as [r' [[= <- <-] [_ Hle]]]. exact Hle.
Qed.
End HeapFrame.

Lemma caller_table_is_left_unchanged_witness :
  snd (Heap.get_or_construct_value 2 0 "Z" (Some xyz_registry) [1999; 2000]
         [Table table_two_years]) !! 0%nat
  = Some (Table table_two_years).
Proof.
  destruct (caller_table_is_left_unchanged [Table table_two_years] 0
              table_two_years eq_refl) as [_ Hvalue].
  destruct (Hvalue 2%nat "Z" (Some xyz_registry) [1999; 2000]) as [Htable _].
  exact Htable.
Defined.

(** The store after the resolution of X: the table under reference 0 is
    followed by the copies and slices of the calls, and the answer is the
    last object. *)
Example store_after_resolution :
  let run := Heap.get_or_construct_value 2 0 "X" (Some xyz_registry)
               [1999; 2000] [Table table_two_years] in
  fst run = Some (Ok (9%nat, "X")) /\
  snd run !! 0%nat = Some (Table table_two_years) /\
  snd run !! 9%nat = Some (Column "X" [(1999, 10); (2000, 20)]).
Proof. vm_compute. auto. Qed.

(** * Further properties of the row filter *)

Lemma look_up_returns_well_formed {regex : RegexEngine}
  (df : list Row) (entry : Entry) (years : list Z) (r : DataFrame) :
  look_up df entry years = Ok r -> entry_wf entry = true.
Proof.
  intros Hr. apply first_fault_none.
  destruct (first_fault entry) as [e|] eqn:Hf; [|reflexivity].
  unfold look_up in Hr. rewrite (look_up_loop_fault _ _ _ Hf) in Hr.
  discriminate.
Qed.

Lemma look_up_rows {regex : RegexEngine}
  (df : list Row) (entry : Entry) (years : list Z) (r : DataFrame) :
  look_up df entry years = Ok r ->
  is_slice r /\
  rows_of r =
    List.filter (fun row => isin (year row) years && matches entry row) df.
Proof.
  intros Hr. pose proof (look_up_returns_well_formed _ _ _ _ Hr) as Hwf.
  unfold look_up in Hr.
  destruct (look_up_loop_matches entry
              (Table (List.filter (fun r => isin (year r) years) df)))
    as [r' [Hr' [Hs Hrows]]]; [right; eauto | assumption |].
  rewrite Hr in Hr'. injection Hr' as <-. split; [assumption|].
  rewrite Hrows. simpl. apply filter_filter_and.
Qed.

(** X1. A field whose value is null, and the key [drop] whatever its value,
    play no part in [look_up]: taking such a field out of the constraint
    set changes neither the frame returned nor the exception raised. *)
Theorem look_up_ignores_null_and_drop {regex : RegexEngine}
  (df : list Row) (before after : Entry) (key : string) (v : pyval)
  (years : list Z) :
  v = PNone \/ key = "drop" ->
  look_up df (before ++ (key, v) :: after) years =
  look_up df (before ++ after) years.
Proof.
  intros H. unfold look_up. rewrite !look_up_loop_app.
  destruct (look_up_loop before _) as [acc|e]; simpl; [|reflexivity].
  assert (Hstep : look_up_step acc (key, v) = Ok acc).
  { unfold look_up_step. destruct H as [-> | ->]; [reflexivity|].
    destruct (is_none v); reflexivity. }
  rewrite Hstep. reflexivity.
Qed.

Lemma look_up_ignores_null_and_drop_witness :
  look_up table_two_years
    ([("code", PStr "D41")] ++ ("drop", PBool true) :: [("year", PInt 2000)])
    [1999; 2000]
  = look_up table_two_years ([("code", PStr "D41")] ++ [("year", PInt 2000)])
      [1999; 2000].
Proof.
  apply (look_up_ignores_null_and_drop table_two_years [("code", PStr "D41")]
           [("year", PInt 2000)] "drop" (PBool true) [1999; 2000]).
  right. reflexivity.
Defined.

Lemma matches_permutation {regex : RegexEngine}
  (entry entry' : Entry) (r : Row) :
  Permutation entry entry' -> matches entry r = matches entry' r.
Proof.
  unfold matches. induction 1 as [|x l l' _ IH|x y l|l l' l'' _ IH1 _ IH2];
    simpl; try congruence.
  destruct (field_matches r x), (field_matches r y); reflexivity.
Qed.

Lemma entry_wf_permutation {regex : RegexEngine} (entry entry' : Entry) :
  Permutation entry entry' -> entry_wf entry = entry_wf entry'.
Proof.
  unfold entry_wf. induction 1 as [|x l l' _ IH|x y l|l l' l'' _ IH1 _ IH2];
    simpl; try congruence.
  destruct (field_wf x), (field_wf y); reflexivity.
Qed.

(** X2. The order in which the dict of constraints is iterated does not
    matter: two orders of the same constraints either both return or both
    raise, and when they return they return the same rows. *)
Theorem look_up_order_is_irrelevant {regex : RegexEngine}
  (df : list Row) (entry entry' : Entry) (years : list Z) :
  Permutation entry entry' ->
  ((exists r, look_up df entry years = Ok r) <->
   (exists r', look_up df entry' years = Ok r')) /\
  (forall r r', look_up df entry years = Ok r ->
                look_up df entry' years = Ok r' ->
                rows_of r = rows_of r').
Proof.
  intros Hperm. split.
  - split; intros [r Hr]; apply look_up_returns_well_formed in Hr.
    + rewrite (entry_wf_permutation _ _ Hperm) in Hr.
      destruct (look_up_well_formed df entry' years Hr) as [r' [Hr' _]]. eauto.
    + rewrite <- (entry_wf_permutation _ _ Hperm) in Hr.
      destruct (look_up_well_formed df entry years Hr) as [r' [Hr' _]]. eauto.
  - intros r r' Hr Hr'.
    apply look_up_rows in Hr as [_ ->]. apply look_up_rows in Hr' as [_ ->].
    induction df as [|row df IH]; simpl; [reflexivity|].
    rewrite (matches_permutation _ _ row Hperm), IH. reflexivity.
Qed.

Lemma look_up_order_is_irrelevant_witness :
  rows_of (Table []) = rows_of NoFrame.
Proof.
  apply (proj2 (look_up_order_is_irrelevant table_two_years
                  [("code", PStr "D41"); ("description", PStr "x")]
                  [("description", PStr "x"); ("code", PStr "D41")]
                  [1999; 2000] (perm_swap _ _ _)));
    reflexivity.
Defined.

(** The two orders of the witness return different empty frames: the
    table without rows, and the frame without columns. *)
Example look_up_order_changes_the_empty_frame :
  look_up table_two_years [("code", PStr "D41"); ("description", PStr "x")]
    [1999; 2000] = Ok (Table []) /\
  look_up table_two_years [("description", PStr "x"); ("code", PStr "D41")]
    [1999; 2000] = Ok NoFrame.
Proof. split; reflexivity. Qed.

(** X3. A non-null constraint on a key that is neither a column of the
    table nor [drop], [description] or [formula] makes [look_up] raise
    [KeyError] on that key, once the constraints before it are well
    formed, whatever the rows and the constraints after it. *)
Theorem look_up_unknown_column_raises {regex : RegexEngine}
  (df : list Row) (before after : Entry) (key : string) (v : pyval)
  (years : list Z) :
  entry_wf before = true ->
  is_none v = false ->
  String.eqb key "drop" = false ->
  String.eqb key "description" = false ->
  String.eqb key "formula" = false ->
  is_column key = false ->
  look_up df (before ++ (key, v) :: after) years = Raise (KeyError key).
Proof.
  intros Hwf Hn Hd Hdesc Hf Hc. unfold look_up. rewrite look_up_loop_app.
  destruct (look_up_loop_matches before
              (Table (List.filter (fun r => isin (year r) years) df)))
    as [acc [-> _]]; [right; eauto | assumption |].
  simpl. unfold look_up_step. rewrite Hn, Hd, Hdesc, Hf, Hc. reflexivity.
Qed.

Lemma look_up_unknown_column_raises_witness :
  look_up table_two_years
    ([("code", PStr "D41")] ++ ("sector", PStr "S1") :: [("year", PInt 1999)])
    [1999; 2000] = Raise (KeyError "sector").
Proof.
  apply (look_up_unknown_column_raises table_two_years [("code", PStr "D41")]
           [("year", PInt 1999)] "sector" (PStr "S1") [1999; 2000]);
    reflexivity.
Defined.

Lemma filter_agree {A} (f g : A -> bool) (l : list A) :
  (forall x, In x l -> f x = g x) -> List.filter f l = List.filter g l.
Proof.
  induction l as [|x l IH]; intros H; simpl; [reflexivity|].
  rewrite (H x) by (left; reflexivity).
  rewrite IH by (intros y Hy; apply H; right; exact Hy). reflexivity.
Qed.

(** X4. Narrowing the year range narrows the result and nothing else: over
    years taken among [years'], [look_up] returns the rows that it returns
    over [years'], restricted to those years. *)
Theorem look_up_narrows_with_the_years {regex : RegexEngine}
  (df : list Row) (entry : Entry) (years years' : list Z) (r' : DataFrame) :
  (forall y, In y years -> In y years') ->
  look_up df entry years' = Ok r' ->
  exists r, look_up df entry years = Ok r /\
    rows_of r = List.filter (fun row => isin (year row) years) (rows_of r').
Proof.
  intros Hincl Hr'.
  pose proof (look_up_returns_well_formed _ _ _ _ Hr') as Hwf.
  destruct (look_up_well_formed df entry years Hwf) as [r [Hr Hrows]].
  exists r. split; [assumption|].
  apply look_up_rows in Hr' as [_ ->].
  rewrite Hrows, filter_filter_and. apply filter_agree. intros row _.
  destruct (isin (year row) years) eqn:Hy; simpl.
  - apply isin_In, Hincl, isin_In in Hy. rewrite Hy. simpl.
    destruct (matches entry row); reflexivity.
  - destruct (isin (year row) years' && matches entry row); reflexivity.
Qed.

Lemma look_up_narrows_with_the_years_witness :
  exists r,
    look_up table_two_years [("code", PStr "D41")] [2000] = Ok r /\
    rows_of r =
      List.filter (fun row => isin (year row) [2000])
        (rows_of (Table [row "D41" 1999 10; row "D41" 2000 20])).
Proof.
  apply (look_up_narrows_with_the_years table_two_years [("code", PStr "D41")]
           [2000] [1999; 2000]).
  - intros y [<- | []]. right. left. reflexivity.
  - reflexivity.
Defined.

(** X5. What [look_up] returns is the frame without columns or a slice
    of the table. Applied to a slice that it returned, with the same
    constraints and years, it returns the rows of the slice again; applied
    to the frame without columns, it raises [KeyError] on [year], whatever
    the constraints. *)
Theorem look_up_of_a_returned_frame {regex : RegexEngine}
  (df : list Row) (entry : Entry) (years : list Z) :
  (forall r, look_up df entry years = Ok r ->
     r = NoFrame \/ exists rows, r = Table rows) /\
  (forall rows, look_up df entry years = Ok (Table rows) ->
     exists r2, look_up rows entry years = Ok r2 /\ rows_of r2 = rows) /\
  (forall (h : Heap.store) (r : Heap.ref), h !! r = Some NoFrame ->
     fst (Heap.look_up r entry years h) = Some (Raise (KeyError "year"))).
Proof.
  split; [|split].
  - intros r Hr. apply look_up_rows in Hr as [Hs _]. exact Hs.
  - intros rows Hr.
    pose proof (look_up_returns_well_formed _ _ _ _ Hr) as Hwf.
    destruct (look_up_well_formed rows entry years Hwf) as [r2 [Hr2 Hrows]].
    exists r2. split; [assumption|]. rewrite Hrows.
    apply look_up_rows in Hr as [_ Hr]. simpl in Hr. rewrite Hr at 2.
    rewrite Hr, filter_filter_and. apply filter_agree. intros row _.
    destruct (isin (year row) years && matches entry row); reflexivity.
  - intros h r Hr. unfold Heap.look_up.
    rewrite (run_bind_ok _ _ _ _ _ (run_copy _ _ _ Hr)).
    rewrite run_bind, (run_column _ _ _ _ (lookup_old _ _ _ _ Hr)).
    reflexivity.
Qed.

Lemma look_up_of_a_returned_frame_witness :
  (exists r2,
     look_up [row "D41" 1999 10; row "D41" 2000 20]
       [("code", PStr "D41")] [1999; 2000] = Ok r2 /\
     rows_of r2 = [row "D41" 1999 10; row "D41" 2000 20]) /\
  fst (Heap.look_up 0%nat [("code", PStr "D41")] [1999; 2000] [NoFrame]) =
    Some (Raise (KeyError "year")).
Proof.
  destruct (look_up_of_a_returned_frame table_two_years [("code", PStr "D41")]
              [1999; 2000]) as [_ [Hslice Hnone]].
  split; [apply Hslice | apply Hnone]; reflexivity.
Defined.

(** A lookup that finds nothing returns the frame without columns. *)
Example look_up_finds_nothing :
  look_up table_two_years [("code", PStr "D43")] [1999; 2000] = Ok NoFrame.
Proof. reflexivity. Qed.

(** * Further properties of the batch filter *)

Lemma dedup_step_In (rows acc : list Row) (r : Row) :
  In r (fold_left
          (fun acc r => if bool_decide (r ∈ acc) then acc else acc ++ [r])
          rows acc) <-> In r acc \/ In r rows.
Proof.
  revert acc. induction rows as [|x rows IH]; intros acc; simpl; [tauto|].
  rewrite IH. destruct (bool_decide (x ∈ acc)) eqn:Hx.
  - apply bool_decide_eq_true, list_elem_of_In in Hx.
    split; [tauto|]. intros [H | [<- | H]]; tauto.
  - rewrite in_app_iff. simpl. tauto.
Qed.

Lemma dedup_In (rows : list Row) (r : Row) : In r (dedup rows) <-> In r rows.
Proof. unfold dedup. rewrite dedup_step_In. simpl. tauto. Qed.

Lemma dedup_NoDup (rows : list Row) : List.NoDup (dedup rows).
Proof.
  unfold dedup.
  assert (H : forall acc, List.NoDup acc ->
            List.NoDup (fold_left
              (fun acc r => if bool_decide (r ∈ acc) then acc else acc ++ [r])
              rows acc)).
  { induction rows as [|x rows IH]; intros acc Hacc; simpl; [assumption|].
    apply IH. destruct (bool_decide (x ∈ acc)) eqn:Hx; [assumption|].
    apply bool_decide_eq_false in Hx. rewrite list_elem_of_In in Hx.
    apply List.NoDup_app; [assumption | repeat constructor; intros [] |].
    intros y Hy [<- | []]. contradiction. }
  apply H. constructor.
Qed.

Lemma concat_rows_slices (a b : DataFrame) :
  is_slice a -> is_slice b ->
  is_slice (concat_rows a b) /\
  rows_of (concat_rows a b) = rows_of a ++ rows_of b.
Proof.
  intros [-> | [ra ->]] [-> | [rb ->]]; simpl; rewrite ?app_nil_r;
    split; try reflexivity; (left; reflexivity) || (right; eauto).
Qed.

Lemma look_many_loop_rows {regex : RegexEngine}
  (df : list Row) (entries : list Entry)
  (out : DataFrame) :
  forallb entry_wf entries = true -> is_slice out ->
  exists res, look_many_loop df entries out = Ok res /\ is_slice res /\
    rows_of res = rows_of out ++ flat_map (default_rows df) entries.
Proof.
  revert out. induction entries as [|entity rest IH]; intros out Hwf Hout;
    cbn [look_many_loop flat_map].
  - exists out. rewrite app_nil_r. auto.
  - simpl in Hwf. apply andb_true_iff in Hwf as [He Hrest].
    destruct (look_up_well_formed df entity default_years He) as [r [Hr _]].
    rewrite Hr. cbn [bind]. apply look_up_rows in Hr as [Hs Hrows].
    destruct (concat_rows_slices out r Hout Hs) as [Hs' Hrows'].
    destruct (IH _ Hrest Hs') as [res [Hres [Hsres Hrr]]].
    exists res. split; [assumption|]. split; [assumption|].
    rewrite Hrr, Hrows', Hrows, <- app_assoc. reflexivity.
Qed.

(** X6. [look_many] is the union of the lookups: for well-formed
    constraint sets, whose descriptions compile, it returns, each once and
    in the order in which the lookups first find them, the rows of the
    table whose year lies between 1949 and 2013 and which match at least
    one of the constraint sets, the description by the search of the
    pattern. *)
Theorem look_many_is_the_union_of_the_lookups {regex : RegexEngine}
  (df : list Row) (entry_by_index_list : list Entry) :
  forallb entry_wf entry_by_index_list = true ->
  exists res, look_many df entry_by_index_list = Ok res /\
    rows_of res = dedup (flat_map (default_rows df) entry_by_index_list) /\
    (forall r, In r (rows_of res) <->
       In r df /\ 1949 <= year r <= 2013 /\
       exists entity, In entity entry_by_index_list /\
                      matches entity r = true).
Proof.
  intros Hwf. unfold look_many.
  destruct (look_many_loop_rows df entry_by_index_list NoFrame Hwf)
    as [out [-> [Hs Hrows]]]; [left; reflexivity|].
  cbn [bind]. simpl in Hrows. eexists. split; [reflexivity|].
  assert (Heq : rows_of (drop_duplicates out) =
                dedup (flat_map (default_rows df) entry_by_index_list)).
  { destruct Hs as [-> | [rows ->]]; simpl in *; rewrite <- Hrows;
      reflexivity. }
  split; [exact Heq|]. intros r. rewrite Heq, dedup_In, in_flat_map.
  unfold default_rows. split.
  - intros [entity [Hin Hr]]. apply filter_In in Hr as [Hdf Hm].
    apply andb_true_iff in Hm as [Hy Hm].
    apply default_years_range in Hy. eauto.
  - intros [Hdf [Hy [entity [Hin Hm]]]]. exists entity. split; [assumption|].
    apply filter_In. split; [assumption|].
    apply default_years_range in Hy. rewrite Hy, Hm. reflexivity.
Qed.

Lemma look_many_is_the_union_of_the_lookups_witness :
  exists res,
    look_many pib_table
      [[("description", PStr "P.B")]; [("code", PStr "B1g")]] = Ok res /\
    rows_of res =
      dedup (flat_map (default_rows pib_table)
               [[("description", PStr "P.B")]; [("code", PStr "B1g")]]) /\
    (forall r, In r (rows_of res) <->
       In r pib_table /\ 1949 <= year r <= 2013 /\
       exists entity,
         In entity [[("description", PStr "P.B")]; [("code", PStr "B1g")]] /\
         matches entity r = true).
Proof.
  apply (look_many_is_the_union_of_the_lookups pib_table
           [[("description", PStr "P.B")]; [("code", PStr "B1g")]]).
  reflexivity.
Defined.

(** The rows described as [P.B aux prix courants] and [PIB total] match
    both constraint sets and are returned once. *)
Example look_many_union_example :
  look_many pib_table [[("description", PStr "P.B")]; [("code", PStr "B1g")]]
  = Ok (Table [mkRow "B1g" "S1" false 1999 "P.B aux prix courants" 10;
               mkRow "B1g" "S1" false 1999 "PIB total" 20]) /\
  look_many table_two_years [[("code", PStr "D41")]; [("year", PInt 1999)]]
  = Ok (Table [row "D41" 1999 10; row "D41" 2000 20; row "D42" 1999 5]).
Proof. split; vm_compute; reflexivity. Qed.

(** X7. Whatever the table and the constraint sets, the rows that
    [look_many] returns are pairwise distinct, even when the table itself
    repeats a row. *)
Theorem look_many_returns_distinct_rows {regex : RegexEngine}
  (df : list Row) (entry_by_index_list : list Entry) (res : DataFrame) :
  look_many df entry_by_index_list = Ok res -> List.NoDup (rows_of res).
Proof.
  unfold look_many.
  destruct (look_many_loop df entry_by_index_list NoFrame) as [out|e];
    simpl; [|discriminate].
  intros [= <-]. destruct out; simpl; try constructor. apply dedup_NoDup.
Qed.

Lemma look_many_returns_distinct_rows_witness :
  List.NoDup
    (rows_of (Table [row "D41" 1999 10])).
Proof.
  apply (look_many_returns_distinct_rows
           [row "D41" 1999 10; row "D41" 1999 10]
           [[("code", PStr "D41")]; [("year", PInt 1999)]]).
  vm_compute. reflexivity.
Defined.

Lemma look_many_loop_returns {regex : RegexEngine}
  (df : list Row) (entries : list Entry)
  (out res : DataFrame) :
  look_many_loop df entries out = Ok res -> forallb entry_wf entries = true.
Proof.
  revert out. induction entries as [|entity rest IH]; intros out;
    cbn [look_many_loop forallb]; [reflexivity|].
  destruct (look_up df entity default_years) as [r|e] eqn:Hr; cbn [bind];
    [|discriminate].
  intros Hloop. apply look_up_returns_well_formed in Hr. rewrite Hr.
  simpl. eapply IH, Hloop.
Qed.

(** X8. One ill-formed constraint set fails the whole batch: [look_many]
    returns exactly when every constraint set of the list is well formed,
    that is when its keys are columns of the table, [drop] or [formula] and
    its description is a string that compiles as a regular expression;
    otherwise it raises and the rows found by the other lookups are
    lost. *)
Theorem look_many_returns_iff_all_well_formed {regex : RegexEngine}
  (df : list Row) (entry_by_index_list : list Entry) :
  (exists res, look_many df entry_by_index_list = Ok res) <->
  forallb entry_wf entry_by_index_list = true.
Proof.
  split.
  - intros [res Hres]. unfold look_many in Hres.
    destruct (look_many_loop df entry_by_index_list NoFrame) as [out|e]
      eqn:Hloop; [|discriminate].
    eapply look_many_loop_returns, Hloop.
  - intros Hwf. unfold look_many.
    destruct (look_many_loop_rows df entry_by_index_list NoFrame Hwf)
      as [out [-> _]]; [left; reflexivity|].
    cbn [bind]. eauto.
Qed.

Example look_many_fails_as_a_whole :
  look_many table_two_years [[("code", PStr "D41")]; [("sector", PStr "S1")]]
  = Raise (KeyError "sector") /\
  look_many pib_table [[("code", PStr "B1g")]; [("description", PStr "(")]]
  = Raise ReError.
Proof. split; vm_compute; reflexivity. Qed.

(** * Further properties of the resolver *)

Section ResolverShape.
Context {regex : RegexEngine} {engine : FormulaEngine}.

Lemma make_frame_column (name : string) (data : ndarray) (index : list Z)
(serie : DataFrame) :
make_frame name data index = Ok serie ->
exists cells, serie = Column name cells /\ List.map fst cells = index.
Proof.
destruct data as [x | xs |]; simpl.
- intros [= <-]. eexists. split; [reflexivity|].
  rewrite List.map_map. simpl. apply List.map_id.
- destruct (Nat.eqb (List.length xs) (List.length index)) eqn:Hlen;
    [|discriminate].
  intros [= <-]. eexists. split; [reflexivity|].
  apply Nat.eqb_eq in Hlen. clear -Hlen. revert xs Hlen.
  induction index as [|y index IH]; intros [|x xs] Hlen; simpl in *;
    try reflexivity; try discriminate.
  f_equal. apply IH. lia.
- discriminate.
Qed.

Lemma direct_hit_column (entry_df : DataFrame) (name : string)
(serie : DataFrame) (f : string) :
direct_hit entry_df name = Ok (serie, f) ->
f = name /\ exists cells, serie = Column name cells.
Proof.
unfold direct_hit.
destruct (set_index_year entry_df) as [f1|e]; simpl; [|discriminate].
destruct (value_column f1) as [f2|e]; simpl; [|discriminate].
destruct (Nat.eqb (columns_count f2) 1); simpl; [|discriminate].
destruct f2; simpl; try discriminate.
intros [= <- <-]. eauto.
Qed.

Lemma evaluate_column (name formula : string) (variables : list string)
(st : Locals) (serie : DataFrame) (f : string) :
evaluate name formula variables st = Ok (serie, f) ->
final_formula st = Some f /\
exists cells idx, serie = Column name cells /\ index st = Some idx /\
                  List.map fst cells = idx.
Proof.
unfold evaluate.
destruct (print_lengths variables (dico_value st)); simpl; [|discriminate].
destruct (py_eval _ _) as [data|e]; simpl; [|discriminate].
destruct (index st) as [idx|]; simpl; [|discriminate].
destruct (make_frame name data idx) as [s|e] eqn:Hframe; simpl;
  [|discriminate].
destruct (final_formula st) as [ff|]; simpl; [|discriminate].
intros [= <- <-]. split; [reflexivity|].
apply make_frame_column in Hframe as [cells [-> Hidx]]. eauto.
Qed.

(** X9. Whatever the registry, a series that [get_or_construct_value]
  returns is either the frame without columns, with the empty formula, or
  a single column that bears the name of the variable. *)
Theorem resolved_series_bears_the_variable_name
(fuel : nat) df name registry years (serie : DataFrame) (f : string) :
get_or_construct_value fuel df name registry years = Some (Ok (serie, f)) ->
(serie = NoFrame /\ f = "") \/ exists cells, serie = Column name cells.
Proof.
destruct fuel as [|fuel]; [discriminate|]. simpl. unfold resolve_body.
destruct (registry_get name _) as [variable|e]; [|discriminate].
destruct (look_up df variable years) as [entry_df|e]; [|discriminate].
destruct (negb (empty entry_df)).
{ intros [= H]. apply direct_hit_column in H as [_ H]. right. exact H. }
destruct (negb (truthy (dict_get "formula" variable)) && empty entry_df).
{ intros [= <- <-]. left. auto. }
destruct (dict_get "formula" variable) as [| | |formula]; try discriminate.
destruct (parse_variables formula) as [variables|e]; [|discriminate].
destruct (resolve_components _ formula variables no_locals) as [[st|e]|];
  [|discriminate..].
intros [= H]. apply evaluate_column in H as [_ [cells [idx [-> _]]]].
right. eauto.
Qed.

(** X10. A variable whose definition holds no formula is read from the
  table: over a well-formed definition, whose description compiles,
  [get_or_construct_value] returns the values of the rows that match it
  within the requested years, the description by the search of the
  pattern, each under its year and in the order of the table, with the
  name of the variable as formula; when no row matches it returns the
  frame without columns and the empty formula, and raises nothing. *)
Theorem direct_variable_is_read_from_the_table
(fuel : nat) df name registry definition years :
registry_get name registry = Ok definition ->
dict_get "formula" definition = PNone ->
entry_wf definition = true ->
get_or_construct_value (S fuel) df name (Some registry) years =
Some (Ok
  match List.filter
          (fun row => isin (year row) years && matches definition row) df
  with
  | [] => (NoFrame, "")
  | rows => (Column name (List.map (fun r => (year r, value r)) rows), name)
  end).
Proof.
intros Hget Hformula Hwf. simpl. unfold resolve_body. rewrite Hget.
destruct (look_up_well_formed df definition years Hwf) as [r [Hr _]].
rewrite Hr. apply look_up_rows in Hr as [Hs Hrows]. rewrite <- Hrows.
rewrite Hformula. simpl.
destruct Hs as [-> | [rows ->]]; simpl; [reflexivity|].
destruct rows; reflexivity.
Qed.

End ResolverShape.

Lemma resolved_series_bears_the_variable_name_witness :
  (Column "Z" [(1999, 15); (2000, 27)] = NoFrame /\ "X + (Y)" = "") \/
  exists cells, Column "Z" [(1999, 15); (2000, 27)] = Column "Z" cells.
Proof.
  apply (resolved_series_bears_the_variable_name 2 table_two_years "Z"
           (Some xyz_registry) [1999; 2000]).
  vm_compute. reflexivity.
Defined.

Lemma direct_variable_is_read_from_the_table_witness :
  get_or_construct_value 1 pib_table "PIB" (Some pib_registry) [1999] =
  Some (Ok (Column "PIB" [(1999, 10); (1999, 20)], "PIB")).
Proof.
  etransitivity;
    [apply (direct_variable_is_read_from_the_table 0 pib_table "PIB"
              pib_registry
              [("institution", PStr "S1"); ("description", PStr "P.B")]
              [1999]); reflexivity
    |vm_compute; reflexivity].
Defined.

Section DerivedCase.
Context {regex : RegexEngine} {engine : FormulaEngine}.

Implicit Types rec : string -> option (result (DataFrame * string)).

(** The derived case, once the definition is known to hold a formula. *)
Lemma derived_case (fuel : nat) df name registry definition formula
variables years :
registry_get name registry = Ok definition ->
dict_get "formula" definition = PStr formula ->
formula <> "" ->
parse_variables formula = Ok variables ->
get_or_construct_value (S fuel) df name (Some registry) years =
match first_fault definition with
| Some e => Some (Raise e)
| None =>
    match resolve_components
            (fun component =>
               get_or_construct_value fuel df component (Some registry)
                 years)
            formula variables no_locals with
    | Some (Ok st) => Some (evaluate name formula variables st)
    | Some (Raise e) => Some (Raise e)
    | None => None
    end
end.
Proof.
intros Hget Hformula Hne Hparse. simpl. unfold resolve_body. rewrite Hget.
assert (Hin : In ("formula", PStr formula) definition)
  by (apply dict_get_In; [assumption | discriminate]).
rewrite (look_up_with_formula _ _ _ _ Hin) by discriminate.
destruct (first_fault definition); [reflexivity|]. simpl.
rewrite Hformula. simpl.
destruct (String.eqb formula "") eqn:He;
  [apply String.eqb_eq in He; contradiction|]. simpl.
rewrite Hparse. reflexivity.
Qed.

(** X11. A formula without any variable cannot be resolved: the loop over
  the components never runs, [index] is never assigned, and after the
  evaluation of the formula the construction of the series raises
  [UnboundLocalError] (or the evaluation has raised before). *)
Theorem constant_formula_raises
(fuel : nat) df name registry definition formula years :
registry_get name registry = Ok definition ->
dict_get "formula" definition = PStr formula ->
formula <> "" ->
first_fault definition = None ->
parse_variables formula = Ok [] ->
get_or_construct_value (S fuel) df name (Some registry) years =
Some (Raise match py_eval (replace formula "^" "**") ∅ with
            | Ok _ => UnboundLocalError "index"
            | Raise e => e
            end).
Proof.
intros Hget Hformula Hne Hwf Hparse.
rewrite (derived_case fuel df name registry definition formula [] years)
  by assumption.
rewrite Hwf. simpl. unfold evaluate. simpl.
destruct (py_eval _ _); reflexivity.
Qed.

(** After the loop, [dico_value] binds every component to the squeezed
  values of its series. *)
Lemma resolve_components_binds rec (resolved : string -> DataFrame * string)
formula variables st :
(forall v, In v variables -> rec v = Some (Ok (resolved v))) ->
exists st', resolve_components rec formula variables st = Some (Ok st') /\
  (forall v, In v variables ->
     dico_value st' !! v = Some (values_squeeze (fst (resolved v)))) /\
  (forall v, ~ In v variables -> dico_value st' !! v = dico_value st !! v).
Proof.
revert st. induction variables as [|c rest IH]; intros st Hrec; simpl.
- exists st. split; [reflexivity|]. split; [intros v []|reflexivity].
- rewrite (Hrec c) by (left; reflexivity).
  destruct (resolved c) as [vv vf] eqn:Hc.
  match goal with
  | |- exists st', resolve_components _ _ _ ?st1 = _ /\ _ =>
      destruct (IH st1) as [st' [Hrc [Hin Hout]]]
  end.
  { intros v Hv. apply Hrec. right. exact Hv. }
  exists st'. split; [exact Hrc|]. split.
  + intros v [<- | Hv]; [|apply Hin, Hv].
    destruct (in_dec String.string_dec c rest) as [Hc' | Hc'];
      [apply Hin, Hc'|].
    rewrite (Hout c Hc'). simpl. rewrite lookup_insert_eq, Hc. reflexivity.
  + intros v Hv. rewrite Hout by tauto. simpl.
    apply lookup_insert_ne. tauto.
Qed.

Lemma print_lengths_scalar (variables : list string)
(dico : gmap string ndarray) (c : string) (x : Z) :
(forall v, In v variables -> is_Some (dico !! v)) ->
In c variables -> dico !! c = Some (Arr0 x) ->
print_lengths variables dico = Raise TypeError.
Proof.
induction variables as [|v rest IH]; intros Hall Hin Hc; [destruct Hin|].
simpl. destruct (Hall v) as [a Ha]; [left; reflexivity|]. rewrite Ha. simpl.
destruct a as [y | ys |]; simpl; [reflexivity | |].
- apply IH; [intros w Hw; apply Hall; right; exact Hw | | exact Hc].
  destruct Hin as [-> | Hin]; [congruence | exact Hin].
- apply IH; [intros w Hw; apply Hall; right; exact Hw | | exact Hc].
  destruct Hin as [-> | Hin]; [congruence | exact Hin].
Qed.

(** X12. A derived variable cannot be resolved over a range in which one
  of its components has a single row: the values of that component are
  squeezed to a scalar array, and the line that prints the length of
  every component raises [TypeError] before the formula is evaluated. *)
Theorem single_row_component_raises
(fuel : nat) df name registry definition formula variables years
(resolved : string -> DataFrame * string) (c cname : string) (cell : Z * Z) :
registry_get name registry = Ok definition ->
dict_get "formula" definition = PStr formula ->
formula <> "" ->
first_fault definition = None ->
parse_variables formula = Ok variables ->
(forall v, In v variables ->
   get_or_construct_value fuel df v (Some registry) years =
   Some (Ok (resolved v))) ->
In c variables ->
fst (resolved c) = Column cname [cell] ->
get_or_construct_value (S fuel) df name (Some registry) years =
Some (Raise TypeError).
Proof.
intros Hget Hformula Hne Hwf Hparse Hres Hin Hc.
rewrite (derived_case fuel df name registry definition formula variables
           years) by assumption.
rewrite Hwf.
destruct (resolve_components_binds _ resolved formula variables no_locals
            Hres) as [st [-> [Hbound _]]].
unfold evaluate.
rewrite (print_lengths_scalar variables (dico_value st) c (snd cell)).
- reflexivity.
- intros v Hv. rewrite (Hbound v Hv). eauto.
- exact Hin.
- rewrite (Hbound c Hin), Hc. destruct cell. reflexivity.
Qed.

(** X13. Nothing detects a formula that refers to its own variable: when
  the first component of the formula of a variable is the variable
  itself, the resolution calls itself again with the same arguments and
  no amount of fuel brings an answer. *)
Theorem self_reference_never_resolves
df name registry definition formula rest years :
registry_get name registry = Ok definition ->
dict_get "formula" definition = PStr formula ->
formula <> "" ->
first_fault definition = None ->
parse_variables formula = Ok (name :: rest) ->
forall fuel,
  get_or_construct_value fuel df name (Some registry) years = None.
Proof.
intros Hget Hformula Hne Hwf Hparse.
induction fuel as [|fuel IH]; [reflexivity|].
rewrite (derived_case fuel df name registry definition formula
           (name :: rest) years) by assumption.
rewrite Hwf. simpl. rewrite IH. reflexivity.
Qed.

(** X14. The failure of a component is the failure of the variable: when
  the components listed before [c] resolve and [c] raises, the variable
  raises the same exception, and the components after [c] are not
  resolved. *)
Theorem component_failure_propagates
(fuel : nat) df name registry definition formula before c after years
(e : exn) :
registry_get name registry = Ok definition ->
dict_get "formula" definition = PStr formula ->
formula <> "" ->
first_fault definition = None ->
parse_variables formula = Ok (before ++ c :: after) ->
(forall p, In p before -> exists r,
   get_or_construct_value fuel df p (Some registry) years = Some (Ok r)) ->
get_or_construct_value fuel df c (Some registry) years = Some (Raise e) ->
get_or_construct_value (S fuel) df name (Some registry) years =
Some (Raise e).
Proof.
intros Hget Hformula Hne Hwf Hparse Hbefore Hc.
rewrite (derived_case fuel df name registry definition formula
           (before ++ c :: after) years) by assumption.
rewrite Hwf.
rewrite (resolve_components_reach _ formula before c after no_locals e
           Hbefore Hc).
reflexivity.
Qed.

Lemma resolve_components_last_index rec formula before c st st' vv vf :
rec c = Some (Ok (vv, vf)) ->
resolve_components rec formula (before ++ [c]) st = Some (Ok st') ->
index st' = Some (index_of vv).
Proof.
intros Hc. rewrite resolve_components_app.
destruct (resolve_components rec formula before st) as [[st1|e]|];
  [|discriminate..].
simpl. rewrite Hc. intros [= <-]. reflexivity.
Qed.

(** X15. The series of a derived variable is indexed by the index of the
  component resolved last, whatever the indexes of the other
  components. *)
Theorem derived_series_takes_the_last_index
(fuel : nat) df registry years name definition formula before c
serie f vv vf :
registry_get name registry = Ok definition ->
dict_get "formula" definition = PStr formula ->
formula <> "" ->
parse_variables formula = Ok (before ++ [c]) ->
get_or_construct_value fuel df c (Some registry) years
  = Some (Ok (vv, vf)) ->
get_or_construct_value (S fuel) df name (Some registry) years
  = Some (Ok (serie, f)) ->
index_of serie = index_of vv.
Proof.
intros Hget Hformula Hne Hparse Hc.
rewrite (derived_case fuel df name registry definition formula
           (before ++ [c]) years) by assumption.
destruct (first_fault definition); [discriminate|].
destruct (resolve_components _ formula (before ++ [c]) no_locals)
  as [[st|e]|] eqn:Hrc; [|discriminate..].
apply resolve_components_last_index with (vv := vv) (vf := vf) in Hrc;
  [|exact Hc].
intros [= Heval].
apply evaluate_column in Heval as [_ [cells [idx [-> [Hidx Hcells]]]]].
simpl. rewrite Hcells. congruence.
Qed.
(** X22. The expanded formula of a derived variable is the formula of the
  registry in which the name of the component resolved last, and no
  other, is replaced by the parenthesized formula of that component,
  wherever the name occurs in the text. *)
Theorem derived_formula_expands_the_last_component_only
(fuel : nat) df registry years name definition formula before c
serie f vv vf :
registry_get name registry = Ok definition ->
dict_get "formula" definition = PStr formula ->
formula <> "" ->
parse_variables formula = Ok (before ++ [c]) ->
get_or_construct_value fuel df c (Some registry) years
  = Some (Ok (vv, vf)) ->
get_or_construct_value (S fuel) df name (Some registry) years
  = Some (Ok (serie, f)) ->
f = replace formula c ("(" +:+ vf +:+ ")").
Proof.
intros Hget Hformula Hne Hparse Hc.
rewrite (derived_case fuel df name registry definition formula
           (before ++ [c]) years) by assumption.
destruct (first_fault definition); [discriminate|].
destruct (resolve_components _ formula (before ++ [c]) no_locals)
  as [[st|e]|] eqn:Hrc; [|discriminate..].
apply resolve_components_last with (vv := vv) (vf := vf) in Hrc;
  [|exact Hc].
intros [= Heval]. apply evaluate_column in Heval as [Hf _]. congruence.
Qed.
End DerivedCase.

Lemma constant_formula_raises_witness :
  get_or_construct_value 1 table_two_years "K" (Some constant_registry)
    [1999; 2000] = Some (Raise (UnboundLocalError "index")).
Proof.
  etransitivity.
  - apply (constant_formula_raises 0 table_two_years "K" constant_registry
             [("formula", PStr "1 + 2")] "1 + 2" [1999; 2000]);
      reflexivity || discriminate.
  - vm_compute. reflexivity.
Defined.

Lemma single_row_component_raises_witness :
  get_or_construct_value 2 table_1999 "Z" (Some xyz_registry) [1999] =
  Some (Raise TypeError).
Proof.
  apply (single_row_component_raises 1 table_1999 "Z" xyz_registry
           [("formula", PStr "X + Y")] "X + Y" ["X"; "Y"] [1999]
           resolved_1999 "X" "X" (1999, 10)); try reflexivity.
  - discriminate.
  - intros v [<- | [<- | []]]; reflexivity.
  - left. reflexivity.
Defined.

Lemma self_reference_never_resolves_witness :
  get_or_construct_value 7 table_two_years "A" (Some self_registry)
    [1999; 2000] = None.
Proof.
  apply (self_reference_never_resolves table_two_years "A" self_registry
           [("formula", PStr "A + 1")] "A + 1" []); try reflexivity.
  discriminate.
Defined.

Lemma component_failure_propagates_witness :
  get_or_construct_value 2 table_two_years "Z" (Some q_registry) [1999; 2000]
  = Some (Raise (KeyError "Q")).
Proof.
  apply (component_failure_propagates 1 table_two_years "Z" q_registry
           [("formula", PStr "X + Q")] "X + Q" ["X"] "Q" [] [1999; 2000]);
    try reflexivity.
  - discriminate.
  - intros p [<- | []]. eexists. reflexivity.
Defined.

Lemma derived_series_takes_the_last_index_witness :
  index_of (Column "Z" [(1999, 15); (2000, 27)]) =
  index_of (Column "Y" [(1999, 5); (2000, 7)]).
Proof.
  apply (derived_series_takes_the_last_index 1 table_two_years xyz_registry
           [1999; 2000] "Z" [("formula", PStr "X + Y")] "X + Y" ["X"] "Y"
           (Column "Z" [(1999, 15); (2000, 27)]) "X + (Y)"
           (Column "Y" [(1999, 5); (2000, 7)]) "Y");
    try reflexivity.
  discriminate.
Defined.

(** * The drop flag and the resolution *)

Lemma look_up_loop_without_drop {regex : RegexEngine}
  (definition : Entry) (acc : DataFrame) :
  look_up_loop (without_drop definition) acc = look_up_loop definition acc.
Proof.
  revert acc. induction definition as [|[key v] d IH]; intros acc;
    [reflexivity|].
  unfold without_drop. cbn [List.filter fst]. fold (without_drop d).
  destruct (String.eqb key "drop") eqn:Hk; cbn [negb look_up_loop].
  - assert (Hstep : look_up_step acc (key, v) = Ok acc).
    { unfold look_up_step. rewrite Hk. destruct (is_none v); reflexivity. }
    rewrite Hstep. cbn [bind]. apply IH.
  - destruct (look_up_step acc (key, v)); cbn [bind]; [apply IH|reflexivity].
Qed.

Lemma dict_get_without_drop (key : string) (definition : Entry) :
  String.eqb key "drop" = false ->
  dict_get key (without_drop definition) = dict_get key definition.
Proof.
  intros Hkey. induction definition as [|[k v] d IH]; [reflexivity|].
  unfold without_drop. cbn [List.filter fst]. fold (without_drop d).
  destruct (String.eqb k "drop") eqn:Hk; cbn [negb dict_get].
  - apply String.eqb_eq in Hk. subst k.
    rewrite String.eqb_sym, Hkey. exact IH.
  - rewrite IH. reflexivity.
Qed.

Lemma registry_get_same_but_drop (a b : Registry) (name : string) :
  same_but_drop a b ->
  (registry_get name a = Raise (KeyError name) /\
   registry_get name b = Raise (KeyError name)) \/
  exists d d', registry_get name a = Ok d /\ registry_get name b = Ok d' /\
               without_drop d = without_drop d'.
Proof.
  induction 1 as [|[k d] [k' d'] a b [Hk Hd] _ IH]; simpl; [auto|].
  simpl in Hk, Hd. subst k'.
  destruct (String.eqb k name); [right; eauto | exact IH].
Qed.

Section DropFlag.
Context {regex : RegexEngine} {engine : FormulaEngine}.

Implicit Types rec : string -> option (result (DataFrame * string)).

Lemma resolve_components_ext rec rec' formula variables st :
(forall c, rec c = rec' c) ->
resolve_components rec formula variables st =
resolve_components rec' formula variables st.
Proof.
intros Hrec. revert st. induction variables as [|c rest IH]; intros st;
  simpl; [reflexivity|].
rewrite <- Hrec. destruct (rec c) as [[[vv vf]|e]|]; [apply IH|reflexivity..].
Qed.

Lemma resolve_body_same_but_drop rec rec' df name (a b : Registry) years :
(forall c, rec c = rec' c) -> same_but_drop a b ->
resolve_body rec df name a years = resolve_body rec' df name b years.
Proof.
intros Hrec Hab. unfold resolve_body.
destruct (registry_get_same_but_drop a b name Hab)
  as [[-> ->] | [d [d' [-> [-> Hd]]]]]; [reflexivity|].
assert (Hup : look_up df d years = look_up df d' years).
{ unfold look_up. rewrite <- (look_up_loop_without_drop d),
    <- (look_up_loop_without_drop d'), Hd. reflexivity. }
assert (Hf : dict_get "formula" d = dict_get "formula" d').
{ rewrite <- (dict_get_without_drop "formula" d),
    <- (dict_get_without_drop "formula" d'), Hd; reflexivity. }
rewrite Hup, Hf.
destruct (look_up df d' years) as [entry_df|e]; [|reflexivity].
destruct (negb (empty entry_df)); [reflexivity|].
destruct (negb (truthy (dict_get "formula" d')) && empty entry_df);
  [reflexivity|].
destruct (dict_get "formula" d') as [| | |formula]; try reflexivity.
destruct (parse_variables formula) as [variables|e]; [|reflexivity].
rewrite (resolve_components_ext rec rec' formula variables no_locals Hrec).
reflexivity.
Qed.

(** X16. The [drop] key plays no part in the resolution: two registries
  that differ only in the [drop] keys of their definitions resolve every
  variable to the same series and formula, or to the same failure. A
  dropped variable is resolved, and feeds its dependents, as if it were
  kept. *)
Theorem drop_plays_no_part_in_resolution
(fuel : nat) df name (a b : Registry) years :
same_but_drop a b ->
get_or_construct_value fuel df name (Some a) years =
get_or_construct_value fuel df name (Some b) years.
Proof.
intros Hab. revert name. induction fuel as [|fuel IH]; intros name;
  [reflexivity|].
simpl. apply resolve_body_same_but_drop; [|assumption].
intros c. apply IH.
Qed.

(** * Failures and columns of the batch *)

Lemma resolved_is_registered (fuel : nat) df name registry years r :
get_or_construct_value fuel df name (Some registry) years = Some (Ok r) ->
exists d, registry_get name registry = Ok d.
Proof.
destruct fuel as [|fuel]; [discriminate|]. simpl. unfold resolve_body.
destruct (registry_get name registry) as [d|e]; [eauto | discriminate].
Qed.

Lemma data_loop_app (fuel : nat) df registry years (a b : list string) acc :
data_loop fuel df registry years (a ++ b) acc =
match data_loop fuel df registry years a acc with
| Some (Ok acc') => data_loop fuel df registry years b acc'
| other => other
end.
Proof.
revert acc. induction a as [|v a IH]; intros acc; simpl; [reflexivity|].
destruct (data_step fuel df registry years acc v) as [[acc'|e]|];
  [apply IH | reflexivity..].
Qed.

(** X17. One failure fails the whole batch: when the variables listed
  before [v] in the registry resolve and [v] raises, were it dropped,
  [get_or_construct_data] raises and returns neither table nor formulas.
  It raises the exception of [v] when the series kept before [v] can
  stand side by side; otherwise their concatenation has raised
  [InvalidIndexError] before [v] is reached. *)
Theorem batch_fails_with_its_first_failure
(fuel : nat) df registry years (resolved : string -> DataFrame * string)
before v after (e : exn) :
List.map fst registry = before ++ v :: after ->
(forall p, In p before ->
   get_or_construct_value fuel df p (Some registry) years =
   Some (Ok (resolved p))) ->
get_or_construct_value fuel df v (Some registry) years = Some (Raise e) ->
get_or_construct_data fuel df registry years =
Some (Raise (if alignable (flat_map (columns_of registry resolved) before)
             then e else InvalidIndexError)).
Proof.
intros Hkeys Hbefore Hv. unfold get_or_construct_data.
rewrite Hkeys, data_loop_app.
rewrite (data_loop_resolved fuel df registry years resolved before [] ∅
           Hbefore)
  by (intros p Hp; eapply resolved_is_registered, Hbefore, Hp).
rewrite concat_all_spec; [|apply columns_of_frames | reflexivity].
rewrite app_nil_l.
destruct (alignable _); [|reflexivity].
simpl. unfold data_step. rewrite Hv. reflexivity.
Qed.

Lemma resolved_shape (fuel : nat) df name registry years serie f :
get_or_construct_value fuel df name registry years = Some (Ok (serie, f)) ->
serie = NoFrame \/ exists cells, serie = Column name cells.
Proof.
destruct fuel as [|fuel]; [discriminate|]. simpl. unfold resolve_body.
destruct (registry_get name _) as [variable|e]; [|discriminate].
destruct (look_up df variable years) as [entry_df|e]; [|discriminate].
destruct (negb (empty entry_df)).
{ intros [= H]. apply direct_hit_column in H as [_ H]. right. exact H. }
destruct (negb (truthy (dict_get "formula" variable)) && empty entry_df).
{ intros [= <- <-]. left. reflexivity. }
destruct (dict_get "formula" variable) as [| | |formula]; try discriminate.
destruct (parse_variables formula) as [variables|e]; [|discriminate].
destruct (resolve_components _ formula variables no_locals) as [[st|e]|];
  [|discriminate..].
intros [= H]. apply evaluate_column in H as [_ [cells [idx [-> _]]]].
right. eauto.
Qed.

(** X18. The columns of the combined table bear the names of the
  variables, without the replacement of underscores made for the
  formulas: when every variable resolves and the series kept can stand
  side by side, they are, in the order of the registry, the names of the
  variables that are not dropped and whose series has rows. *)
Theorem combined_table_columns_are_the_kept_variables
(fuel : nat) df registry years (resolved : string -> DataFrame * string) :
List.NoDup (List.map fst registry) ->
(forall v, In v (List.map fst registry) ->
   get_or_construct_value fuel df v (Some registry) years =
   Some (Ok (resolved v))) ->
alignable (flat_map (combined_columns resolved) registry) = true ->
exists columns formulas,
  get_or_construct_data fuel df registry years =
    Some (Ok (columns, formulas)) /\
  List.map column_name columns =
    List.map fst (List.filter (brings_column resolved) registry).
Proof.
intros Hnd Hres Halign.
exists (flat_map (combined_columns resolved) registry).
eexists. split.
- unfold get_or_construct_data. rewrite (data_loop_resolved fuel df registry
    years resolved (List.map fst registry) [] ∅ Hres)
    by (intros v Hv; eapply resolved_is_registered, Hres, Hv).
  rewrite concat_all_spec; [|apply columns_of_frames | reflexivity].
  rewrite app_nil_l.
  assert (Hcolumns : flat_map (columns_of registry resolved)
                       (List.map fst registry) =
                     flat_map (combined_columns resolved) registry).
  { apply flat_map_keys. intros [v d] Hin. unfold columns_of. simpl.
    rewrite (registry_get_In v registry d Hnd Hin). reflexivity. }
  rewrite Hcolumns, Halign. reflexivity.
- assert (H : forall l : Registry,
    (forall x, In x l -> In (fst x) (List.map fst registry)) ->
    List.map column_name (flat_map (combined_columns resolved) l) =
    List.map fst (List.filter (brings_column resolved) l)).
  { induction l as [|[v d] l IH]; intros Hl; [reflexivity|].
    cbn [flat_map List.filter]. rewrite List.map_app, IH
      by (intros x Hx; apply Hl; right; exact Hx).
    unfold combined_columns, brings_column. cbn [fst snd].
    destruct (dropped d); [reflexivity|]. cbn [negb andb].
    pose proof (Hres v (Hl (v, d) (or_introl eq_refl))) as Hv.
    destruct (resolved v) as [serie f]. cbn [fst].
    apply resolved_shape in Hv as [-> | [cells ->]]; reflexivity. }
  apply H. intros x Hx. apply in_map, Hx.
Qed.
End DropFlag.

Lemma drop_plays_no_part_in_resolution_witness :
  get_or_construct_value 2 table_two_years "Z_out" (Some drop_registry)
    [1999; 2000] =
  get_or_construct_value 2 table_two_years "Z_out" (Some kept_registry)
    [1999; 2000].
Proof.
  apply (drop_plays_no_part_in_resolution 2 table_two_years "Z_out"
           drop_registry kept_registry [1999; 2000]).
  repeat constructor.
Defined.

Lemma batch_fails_with_its_first_failure_witness :
  get_or_construct_data 2 table_two_years q_registry [1999; 2000] =
  Some (Raise (KeyError "Q")).
Proof.
  apply (batch_fails_with_its_first_failure 2 table_two_years q_registry
           [1999; 2000]
           (fun _ => (Column "X" [(1999, 10); (2000, 20)], "X"))
           ["X"] "Z" []).
  - reflexivity.
  - intros p [<- | []]. reflexivity.
  - vm_compute. reflexivity.
Defined.

(** Y and X resolve, X with the year 1999 twice: their concatenation raises
    before Z, which refers to the undeclared Q, is resolved. *)
Example batch_fails_before_its_first_failure :
  get_or_construct_value 2 ambiguous_table "Z" (Some failing_registry) [1999]
    = Some (Raise (KeyError "Q")) /\
  get_or_construct_data 2 ambiguous_table failing_registry [1999]
    = Some (Raise InvalidIndexError).
Proof. split; vm_compute; reflexivity. Qed.

Lemma combined_table_columns_are_the_kept_variables_witness :
  exists columns formulas,
    get_or_construct_data 2 table_two_years mixed_registry [1999; 2000] =
      Some (Ok (columns, formulas)) /\
    List.map column_name columns =
      List.map fst (List.filter (brings_column mixed_resolved) mixed_registry).
Proof.
  apply (combined_table_columns_are_the_kept_variables 2 table_two_years
           mixed_registry [1999; 2000] mixed_resolved).
  - repeat constructor; simpl; intros H;
      repeat (destruct H as [H | H]; [discriminate|]); destruct H.
  - intros v [<- | [<- | [<- | []]]]; vm_compute; reflexivity.
  - vm_compute. reflexivity.
Defined.

Example combined_table_columns_example :
  List.map fst (List.filter (brings_column mixed_resolved) mixed_registry)
  = ["Y_in"; "Z_out"].
Proof. vm_compute. reflexivity. Qed.

(** * The years and the rows that are read *)

Lemma filter_twice {A} (f : A -> bool) (l : list A) :
  List.filter f (List.filter f l) = List.filter f l.
Proof.
  rewrite filter_filter_and. apply filter_agree. intros x _.
  destruct (f x); reflexivity.
Qed.

Lemma look_up_reads_requested_years {regex : RegexEngine}
  (df : list Row) (entry : Entry) (years : list Z) :
  look_up (List.filter (fun r => isin (year r) years) df) entry years =
  look_up df entry years.
Proof. unfold look_up. rewrite filter_twice. reflexivity. Qed.

Section RequestedYears.
Context {regex : RegexEngine} {engine : FormulaEngine}.

(** X19. The resolution reads the rows of the requested years and no
  other: removing from the table every row of another year changes
  nothing to what [get_or_construct_value] returns or raises, for the
  variable and for all the components that it resolves on the way, which
  receive the same years. *)
Theorem resolution_reads_requested_years_only
(fuel : nat) df name registry years :
get_or_construct_value fuel
  (List.filter (fun r => isin (year r) years) df) name registry years =
get_or_construct_value fuel df name registry years.
Proof.
revert name registry. induction fuel as [|fuel IH]; intros name registry;
  [reflexivity|].
simpl. unfold resolve_body.
destruct (registry_get name _) as [variable|e]; [|reflexivity].
rewrite look_up_reads_requested_years.
destruct (look_up df variable years) as [entry_df|e]; [|reflexivity].
destruct (negb (empty entry_df)); [reflexivity|].
destruct (negb (truthy (dict_get "formula" variable)) && empty entry_df);
  [reflexivity|].
destruct (dict_get "formula" variable) as [| | |formula]; try reflexivity.
destruct (parse_variables formula) as [variables|e]; [|reflexivity].
rewrite (resolve_components_ext _
           (fun component =>
              get_or_construct_value fuel df component
                (Some match registry with
                      | Some registry => registry
                      | None => [(name, [("code", PStr name)])]
                      end) years)
           formula variables no_locals); [reflexivity|].
intros c. apply IH.
Qed.
End RequestedYears.

(** * The formula handed to the evaluation *)

Lemma prefix_caret (c : ascii) (s : string) :
  String.prefix "^" (String c s) = Ascii.eqb "^" c.
Proof.
  change (String.prefix "^" (String c s))
    with (if Ascii.ascii_dec "^" c then String.prefix "" s else false).
  destruct (Ascii.ascii_dec "^" c) as [<- | Hne].
  - destruct s; reflexivity.
  - symmetry. apply Ascii.eqb_neq. exact Hne.
Qed.

Lemma contains_caret_cons (c : ascii) (s : string) :
  contains "^" (String c s) = Ascii.eqb "^" c || contains "^" s.
Proof.
  change (contains "^" (String c s))
    with (String.prefix "^" (String c s) || contains "^" s).
  rewrite prefix_caret. reflexivity.
Qed.

(** X20. The formula handed to [eval] holds no caret: every [^] of the
    formula of the registry has become [**], so a power is never evaluated
    as the exclusive or of Python. *)
Theorem formula_modified_holds_no_caret (formula : string) :
  contains "^" (replace formula "^" "**") = false.
Proof.
  unfold replace. induction formula as [|c s IH]; [reflexivity|].
  cbn [replace_from String.length Nat.sub]. rewrite prefix_caret.
  destruct (Ascii.eqb "^" c) eqn:Hc.
  - change ("**" +:+ replace_from "^" "**" 0 s)
      with (String "*" (String "*" (replace_from "^" "**" 0 s))).
    rewrite !contains_caret_cons. exact IH.
  - rewrite contains_caret_cons, IH, Hc. reflexivity.
Qed.

(** * The resolution without a registry *)

(** X21. Called without a registry, [get_or_construct_value] reads the
    variable as a code: it returns the values of the rows of the requested
    years whose code is the name of the variable, each under its year, with
    the name as formula, and the frame without columns with the empty
    formula when there is no such row. It never raises. *)
Theorem absent_registry_reads_the_code {regex : RegexEngine}
  {engine : FormulaEngine}
  (fuel : nat) df name years :
  get_or_construct_value (S fuel) df name None years =
  Some (Ok
    match List.filter
            (fun row => isin (year row) years && String.eqb (code row) name)
            df
    with
    | [] => (NoFrame, "")
    | rows => (Column name (List.map (fun r => (year r, value r)) rows), name)
    end).
Proof.
  simpl. unfold resolve_body. simpl. rewrite String.eqb_refl.
  destruct (look_up_well_formed df [("code", PStr name)] years eq_refl)
    as [r [Hr _]].
  rewrite Hr. apply look_up_rows in Hr as [Hs Hrows].
  assert (Heq : rows_of r =
    List.filter
      (fun row => isin (year row) years && String.eqb (code row) name) df).
  { rewrite Hrows. apply filter_agree. intros row _.
    unfold matches, field_matches, cell_equals. simpl.
    rewrite andb_true_r. reflexivity. }
  rewrite <- Heq.
  destruct Hs as [-> | [rows ->]]; simpl; [reflexivity|].
  destruct rows; reflexivity.
Qed.

Lemma derived_formula_expands_the_last_component_only_witness :
  "X_in - (Y_in)" = replace "X_in - Y_in" "Y_in" ("(" +:+ "Y_in" +:+ ")").
Proof.
  apply (derived_formula_expands_the_last_component_only 1 table_two_years
           drop_registry [1999; 2000] "Z_out"
           [("formula", PStr "X_in - Y_in")] "X_in - Y_in" ["X_in"] "Y_in"
           (Column "Z_out" [(1999, 5); (2000, 13)]) "X_in - (Y_in)"
           (Column "Y_in" [(1999, 5); (2000, 7)]) "Y_in");
    try reflexivity.
  discriminate.
Defined.
